(** * Pearl belief update on a DAG of discrete variables

    A shallow embedding of [beliefs/models/belief_update_node_model.py]:
    the [Node] mailbox protocol, the aggregation and normalisation
    arithmetic, the [BernoulliOrNode] specialisation, and the construction
    and the boundary conditions of [BeliefUpdateNodeModel].

    Numbers.  The source computes with numpy [float64] arrays.  A scalar is
    a binary64 float of Rocq's kernel, whose sum, difference, product and
    quotient are those of IEEE 754 in the rounding to nearest even that
    numpy uses: a result is rounded, overflows to an infinity, underflows
    to a denormal or to zero, and zero has a sign.  There is one [nan].

    Arrays.  The arrays the node computes with have one dimension and dtype
    float64.  A message update accepts any [numpy.ndarray] of shape
    [(cardinality,)], whatever its dtype, so a mailbox can also hold an
    array of strings; arithmetic on such an array raises [TypeError]. *)

From Stdlib Require Import List String Bool Arith Lia ZArith Floats.
From Stdlib Require Import Permutation.
Import ListNotations.
Set Warnings "-inexact-float".

(** ** Scalars and arrays of dtype float64 *)

Module Np.

Definition float64 : Type := float.

Definition zero : float64 := 0%float.
Definition neg_zero : float64 := (-0)%float.
Definition one : float64 := 1%float.
Definition PInf : float64 := infinity.
Definition NInf : float64 := neg_infinity.
Definition NaN : float64 := nan.

(** [x * y], [x + y], [-x], [x - y] and [x / y].  A quotient by zero is
    an infinity of the sign of the quotient, and [0/0] is [nan]. *)
Definition mul (x y : float64) : float64 := PrimFloat.mul x y.
Definition add (x y : float64) : float64 := PrimFloat.add x y.
Definition neg (x : float64) : float64 := PrimFloat.opp x.
Definition sub (x y : float64) : float64 := PrimFloat.sub x y.
Definition div (x y : float64) : float64 := PrimFloat.div x y.

(** [x == y]: [nan] equals nothing, and the two zeros are equal. *)
Definition eqb (x y : float64) : bool := PrimFloat.eqb x y.

(** [bool(x)]: a scalar is true unless it is a zero ([nan] and the
    infinities are true). *)
Definition truthy (x : float64) : bool := negb (eqb x zero).

(** [np.isnan(x)] *)
Definition isnan (x : float64) : bool := negb (eqb x x).

(** [np.finfo(np.float64).max], [2^1024 - 2^971]. *)
Definition float64_max : float64 := 0x1.fffffffffffffp+1023%float.

(** [np.nan_to_num] on one scalar: [nan] becomes [0], the infinities become
    the largest and the most negative finite [float64], and a finite number
    is kept. *)
Definition nan_to_num1 (x : float64) : float64 :=
  if isnan x then zero
  else if eqb x PInf then float64_max
  else if eqb x NInf then neg float64_max
  else x.

(** *** One-dimensional arrays *)

Definition ndarray : Type := list float64.

(** [np.ones([n])] *)
Definition ones (n : nat) : ndarray := repeat one n.

(** [a.any()] *)
Definition any (a : ndarray) : bool := existsb truthy a.

(** Elementwise [f] on two arrays of one length. *)
Fixpoint zip_with (f : float64 -> float64 -> float64) (a b : ndarray)
  : ndarray :=
  match a, b with
  | x :: a', y :: b' => f x y :: zip_with f a' b'
  | _, _ => []
  end.

(** The loop of numpy's summation over the groups of eight elements that
    follow the first eight: each group is added to the eight partial sums
    [r].  What is left when fewer than eight remain is returned with the
    partial sums. *)
Fixpoint add_groups_of_8 (fuel : nat) (r a : ndarray) : ndarray * ndarray :=
  match fuel with
  | O => (r, a)
  | S fuel' =>
      if Nat.leb 8 (List.length a)
      then add_groups_of_8 fuel' (zip_with add r (firstn 8 a)) (skipn 8 a)
      else (r, a)
  end.

(** numpy's [pairwise_sum] on [n] elements.  Fewer than eight are added
    from left to right, starting from [-0.0]; up to 128 are added in eight
    partial sums, which are then added in pairs, and the rest is added to
    the total; a longer array is split in two parts, the first of a length
    that is a multiple of eight, and the sums of the parts are added.
    [fuel] bounds the depth of the splitting and is the length of the
    array in [sum]. *)
Fixpoint pairwise_sum (fuel : nat) (a : ndarray) : float64 :=
  let n := List.length a in
  if Nat.ltb n 8 then fold_left add a neg_zero
  else if Nat.leb n 128 then
    match add_groups_of_8 n (firstn 8 a) (skipn 8 a) with
    | ([r0; r1; r2; r3; r4; r5; r6; r7], rest) =>
        fold_left add rest
          (add (add (add r0 r1) (add r2 r3)) (add (add r4 r5) (add r6 r7)))
    | (_, rest) => NaN
    end
  else
    match fuel with
    | O => NaN
    | S fuel' =>
        let n2 := Nat.div n 2 in
        let n2 := n2 - Nat.modulo n2 8 in
        add (pairwise_sum fuel' (firstn n2 a))
            (pairwise_sum fuel' (skipn n2 a))
    end.

(** [a.sum()]: the sum of an empty array is [0.0]; otherwise the pairwise
    sum is added to the initial value [-0.0] of the reduction, so that an
    array of fewer than eight elements is added from left to right.  (A
    numpy older than 1.24 starts from [0.0]; the two agree unless every
    element is [-0.0].)  The two [NaN] branches of [pairwise_sum] are not
    reached: an array of eight elements or more has eight partial sums, and
    the fuel is the length. *)
Definition sum (a : ndarray) : float64 :=
  match a with
  | [] => zero
  | _ => add neg_zero (pairwise_sum (List.length a) a)
  end.

(** [np.array_equal(a, b)]: same shape and all elements equal. *)
Fixpoint array_equal (a b : ndarray) : bool :=
  match a, b with
  | [], [] => true
  | x :: a', y :: b' => eqb x y && array_equal a' b'
  | _, _ => false
  end.

(** A binary ufunc on two one-dimensional arrays, with numpy's broadcasting:
    equal lengths go elementwise, an array of length one is stretched, and
    any other pair of shapes cannot be broadcast ([None]). *)
Definition broadcast (f : float64 -> float64 -> float64) (a b : ndarray)
  : option ndarray :=
  if Nat.eqb (List.length a) (List.length b) then Some (zip_with f a b)
  else match a, b with
       | [x], _ => Some (map (f x) b)
       | _, [y] => Some (map (fun x => f x y) a)
       | _, _ => None
       end.

(** [a / s] for a scalar [s]. *)
Definition div_scalar (a : ndarray) (s : float64) : ndarray :=
  map (fun x => div x s) a.

(** [np.nan_to_num(a)] *)
Definition nan_to_num (a : ndarray) : ndarray := map nan_to_num1 a.

End Np.

(** ** The Python layer: exceptions, results, dictionaries *)

Definition label : Type := string.
Bind Scope string_scope with label.

Inductive MessageType : Type :=
| LAMBDA
| PI.

(** The messages of the [ValueError]s the module raises, one per [raise]
    site, and of the one numpy raises when two shapes do not broadcast.
    [BadDimensions] carries the cardinality and the shape found. *)
Inductive value_error : Type :=
| MissingMsg (message_type : MessageType)
| KeyNotAllowed (key : label)
| BadDimensions (cardinality : nat) (shape : list nat)
| NoLambdaMsgFromChild
| CannotBroadcast.

(** The [TypeError]s: the one the module raises for a value that is not an
    ndarray, and those of Python and numpy for an operand that an operation
    does not support ([None], a string or an array of strings where a number
    is needed) and for [reduce] of an empty sequence. *)
Inductive type_error : Type :=
| NotNdarray
| NoneOperand
| StrOperand
| ReduceEmpty.

Inductive exn : Type :=
| ValueError (msg : value_error)
| TypeError (msg : type_error)
| InvalidLambdaMsgToParent
| NotImplementedError
| AttributeError
| KeyError (key : label)
| IndexError.

(** The error kinds of the specification, by the [raise] that produces
    each. *)
Definition MissingMessage (mt : MessageType) : exn := ValueError (MissingMsg mt).
Definition UnknownNeighbor (key : label) : exn := ValueError (KeyNotAllowed key).
Definition ShapeMismatch (cardinality : nat) (shape : list nat) : exn :=
  ValueError (BadDimensions cardinality shape).
Definition TypeMismatch : exn := TypeError NotNdarray.
Definition PreconditionNotMet : exn := ValueError NoLambdaMsgFromChild.

Inductive result (A : Type) : Type :=
| Ok (a : A)
| Raise (e : exn).
Arguments Ok {A} a.
Arguments Raise {A} e.

Definition rbind {A B} (r : result A) (k : A -> result B) : result B :=
  match r with
  | Ok a => k a
  | Raise e => Raise e
  end.

(** A method that may assign to attributes of its receiver: the receiver
    goes in and comes out, also when the method raises. *)
Definition M (S A : Type) : Type := S -> result A * S.

Definition ret {S A} (a : A) : M S A := fun s => (Ok a, s).
Definition raise {S A} (e : exn) : M S A := fun s => (Raise e, s).
Definition bind {S A B} (c : M S A) (k : A -> M S B) : M S B :=
  fun s => match c s with
           | (Ok a, s') => k a s'
           | (Raise e, s') => (Raise e, s')
           end.
Definition read {S A} (f : S -> A) : M S A := fun s => (Ok (f s), s).
Definition assign {S} (f : S -> S) : M S unit := fun s => (Ok tt, f s).
Definition lift {S A} (r : result A) : M S A := fun s => (r, s).
(** A computation that only reads the receiver. *)
Definition query {S A} (f : S -> result A) : M S A := fun s => (f s, s).

Declare Scope py_scope.
Delimit Scope py_scope with py.
Notation "x <- c ;; k" := (bind c (fun x => k))
  (at level 61, c at next level, right associativity) : py_scope.
Notation "c ;;; k" := (bind c (fun _ => k))
  (at level 61, right associativity) : py_scope.
Notation "'let?' x := r 'in' k" := (rbind r (fun x => k))
  (at level 61, x name, r at next level, right associativity).

(** A [dict] with [str] keys, in insertion order. *)
Definition dict (V : Type) : Type := list (label * V).

Fixpoint dict_get {V} (d : dict V) (k : label) : option V :=
  match d with
  | [] => None
  | (k', v) :: d' => if String.eqb k' k then Some v else dict_get d' k
  end.

Definition dict_keys {V} (d : dict V) : list label := map fst d.
Definition dict_values {V} (d : dict V) : list V := map snd d.

(** [key in d.keys()] *)
Definition dict_mem {V} (d : dict V) (k : label) : bool :=
  existsb (String.eqb k) (dict_keys d).

(** [d[k] = v]: an existing key keeps its position, a new one goes last. *)
Fixpoint dict_set {V} (d : dict V) (k : label) (v : V) : dict V :=
  match d with
  | [] => [(k, v)]
  | (k', v') :: d' =>
      if String.eqb k' k then (k', v) :: d' else (k', v') :: dict_set d' k v
  end.

(** [d[k]] *)
Definition dict_getitem {V} (d : dict V) (k : label) : result V :=
  match dict_get d k with
  | Some v => Ok v
  | None => Raise (KeyError k)
  end.

(** [functools.reduce(f, xs)] with no initial value. *)
Definition reduce {A} (f : A -> A -> result A) (xs : list A) : result A :=
  match xs with
  | [] => Raise (TypeError ReduceEmpty)
  | x :: xs' => fold_left (fun acc y => let? a := acc in f a y) xs' (Ok x)
  end.

(** *** numpy arrays and scalars as Python objects *)

(** A one-dimensional [numpy.ndarray]: of dtype float64, or of a string
    dtype, as [np.array(['a', 'b'])] is. *)
Inductive pyarray : Type :=
| Float64 (a : Np.ndarray)
| Unicode (a : list string).

(** [a.shape[0]] *)
Definition size (a : pyarray) : nat :=
  match a with
  | Float64 d => List.length d
  | Unicode d => List.length d
  end.

(** An element of such an array: a [np.float64] or a [np.str_]. *)
Inductive npscalar : Type :=
| NpFloat64 (x : Np.float64)
| NpStr (s : string).

(** [xs[i]] on a sequence, for [i >= 0]. *)
Definition getitem {A} (xs : list A) (i : nat) : result A :=
  match nth_error xs i with
  | Some x => Ok x
  | None => Raise IndexError
  end.

(** [a[i]] on an array. *)
Definition array_getitem (a : pyarray) (i : nat) : result npscalar :=
  match a with
  | Float64 d => let? x := getitem d i in Ok (NpFloat64 x)
  | Unicode d => let? s := getitem d i in Ok (NpStr s)
  end.

(** [x * y] on two scalars.  numpy has no product of a string with a
    number or with a string. *)
Definition py_mul (x y : npscalar) : result npscalar :=
  match x, y with
  | NpFloat64 a, NpFloat64 b => Ok (NpFloat64 (Np.mul a b))
  | _, _ => Raise (TypeError StrOperand)
  end.

(** [np.multiply(a, b)] and [np.divide(a, b)] on two arrays of dtype
    float64. *)
Definition multiply (a b : Np.ndarray) : result Np.ndarray :=
  match Np.broadcast Np.mul a b with
  | Some c => Ok c
  | None => Raise (ValueError CannotBroadcast)
  end.

Definition divide (a b : Np.ndarray) : result Np.ndarray :=
  match Np.broadcast Np.div a b with
  | Some c => Ok c
  | None => Raise (ValueError CannotBroadcast)
  end.

(** [np.multiply(a, b)] on two arrays the node holds: the ufunc has no loop
    for an array of strings, which is found before the shapes are
    compared. *)
Definition np_multiply (a b : pyarray) : result pyarray :=
  match a, b with
  | Float64 x, Float64 y => let? c := multiply x y in Ok (Float64 c)
  | _, _ => Raise (TypeError StrOperand)
  end.

(** The shape of a [numpy.ndarray] whose number of dimensions is not one:
    [()], or [(d1, d2, ...)] with two entries and more. *)
Inductive dims : Type :=
| Dim0
| DimN (d1 d2 : nat) (more : list nat).

Definition dims_shape (s : dims) : list nat :=
  match s with
  | Dim0 => []
  | DimN d1 d2 more => d1 :: d2 :: more
  end.

(** A value handed to a message update: a [numpy.ndarray] of one dimension;
    a [numpy.ndarray] of another number of dimensions, of which the update
    reads the shape and nothing else; or an object of another type (a
    [list] of numbers, [None]). *)
Inductive pyobject : Type :=
| PyNdarray (a : pyarray)
| PyNdarrayNd (s : dims)
| PyList (items : list Np.float64)
| PyNone.

(** [isinstance(v, np.ndarray)] *)
Definition is_ndarray (v : pyobject) : bool :=
  match v with
  | PyNdarray _ | PyNdarrayNd _ => true
  | PyList _ | PyNone => false
  end.

(** [v.shape] of an ndarray. *)
Definition shape (v : pyobject) : list nat :=
  match v with
  | PyNdarray a => [size a]
  | PyNdarrayNd s => dims_shape s
  | PyList _ | PyNone => []
  end.

(** ** [class Node] and [class BernoulliOrNode(Node)] *)

(** What the node consumes of its conditional probability distribution:
    the dense table [cpd.values]. *)
Record CPD : Type := { values : Np.ndarray }.

(** The class of an instance, which decides the method an overridden name
    resolves to. *)
Inductive node_class : Type :=
| NodeClass
| BernoulliOrNodeClass.

Definition mailbox : Type := dict (option pyarray).

(** [pi_agg] is assigned the table of the CPD or an array of two products
    of numbers, and is of dtype float64 when present; [lambda_agg] can be
    assigned a message as it was received. *)
Record Node : Type := mkNode {
  class_of : node_class;
  label_id : label;
  children : list label;
  parents : list label;
  cardinality : nat;
  cpd : CPD;
  pi_agg : option Np.ndarray;
  lambda_agg : option pyarray;
  pi_received_msgs : mailbox;
  lambda_received_msgs : mailbox
}.

Definition set_pi_agg (v : option Np.ndarray) (self : Node) : Node :=
  mkNode (class_of self) (label_id self) (children self) (parents self)
         (cardinality self) (cpd self) v (lambda_agg self)
         (pi_received_msgs self) (lambda_received_msgs self).

Definition set_lambda_agg (v : option pyarray) (self : Node) : Node :=
  mkNode (class_of self) (label_id self) (children self) (parents self)
         (cardinality self) (cpd self) (pi_agg self) v
         (pi_received_msgs self) (lambda_received_msgs self).

Definition set_pi_received_msgs (d : mailbox) (self : Node) : Node :=
  mkNode (class_of self) (label_id self) (children self) (parents self)
         (cardinality self) (cpd self) (pi_agg self) (lambda_agg self)
         d (lambda_received_msgs self).

Definition set_lambda_received_msgs (d : mailbox) (self : Node) : Node :=
  mkNode (class_of self) (label_id self) (children self) (parents self)
         (cardinality self) (cpd self) (pi_agg self) (lambda_agg self)
         (pi_received_msgs self) d.

(** [{k: None for k in keys}] *)
Definition _init_received_msgs (keys : list label) : mailbox :=
  fold_left (fun d k => dict_set d k None) keys [].

(** [Node.__init__] *)
Definition Node_init (label_id : label) (children parents : list label)
    (cardinality : nat) (cpd : CPD) : Node :=
  mkNode NodeClass label_id children parents cardinality cpd None None
         (_init_received_msgs parents) (_init_received_msgs children).

(** [BernoulliOrNode.__init__].  The table of [BernoulliOrCPD(label_id,
    parents)] is computed outside this module and is taken as given. *)
Definition BernoulliOrNode_init (label_id : label)
    (children parents : list label) (bernoulli_or_cpd : CPD) : Node :=
  mkNode BernoulliOrNodeClass label_id children parents 2 bernoulli_or_cpd
         None None
         (_init_received_msgs parents) (_init_received_msgs children).

(** [not xs] on a list *)
Definition is_empty {A} (xs : list A) : bool :=
  match xs with [] => true | _ => false end.

Definition is_None {A} (o : option A) : bool :=
  match o with None => true | Some _ => false end.

(** The messages of a list none of which is [None]. *)
Definition received {A} (msgs : list (option A)) : list A :=
  flat_map (fun o => match o with Some a => [a] | None => [] end) msgs.

(** [Node._normalize], which the module calls on arrays of dtype float64
    only: a product, the result of [nan_to_num], an array of two numbers. *)
Definition _normalize (value : Np.ndarray) : Np.ndarray :=
  Np.div_scalar value (Np.sum value).

(** [Node.belief].  The condition is [self.pi_agg.any() and
    self.lambda_agg.any()]: the second test runs only when the first is
    true, and numpy does not reduce an array of strings. *)
Definition belief (self : Node) : result (option Np.ndarray) :=
  match pi_agg self with
  | None => Raise AttributeError
  | Some p =>
      if Np.any p then
        match lambda_agg self with
        | None => Raise AttributeError
        | Some (Unicode _) => Raise (TypeError StrOperand)
        | Some (Float64 l) =>
            if Np.any l then
              let? belief := multiply p l in
              Ok (Some (_normalize belief))
            else Ok None
        end
      else Ok None
  end.

(** [Node._return_msgs_received_for_msg_type] *)
Definition _return_msgs_received_for_msg_type (self : Node)
    (message_type : MessageType) : list (option pyarray) :=
  match message_type with
  | LAMBDA => dict_values (lambda_received_msgs self)
  | PI => dict_values (pi_received_msgs self)
  end.

(** [Node.validate_and_return_msgs_received_for_msg_type] *)
Definition validate_and_return_msgs_received_for_msg_type (self : Node)
    (message_type : MessageType) : result (list pyarray) :=
  let msg_values := _return_msgs_received_for_msg_type self message_type in
  if existsb is_None msg_values
  then Raise (ValueError (MissingMsg message_type))
  else Ok (received msg_values).

Open Scope py_scope.

(** [Node.compute_lambda_agg] *)
Definition compute_lambda_agg : M Node (option pyarray) :=
  no_children <- read (fun self => is_empty (children self)) ;;
  if no_children then read lambda_agg
  else
    lambda_msg_values <-
      query (fun self =>
               validate_and_return_msgs_received_for_msg_type self LAMBDA) ;;
    v <- lift (reduce np_multiply lambda_msg_values) ;;
    assign (set_lambda_agg (Some v)) ;;;
    read lambda_agg.

(** [Node._update_received_msg_by_key], on the dictionary it is handed;
    [cardinality] is [self.cardinality].  The shape of an array whose
    number of dimensions is not one differs from [(cardinality,)]. *)
Definition _update_received_msg_by_key (cardinality : nat) (key : label)
    (new_value : pyobject) : M mailbox unit :=
  known <- read (fun received_msg_dict => dict_mem received_msg_dict key) ;;
  if negb known then raise (ValueError (KeyNotAllowed key))
  else
    match new_value with
    | PyNdarray a =>
        if negb (Nat.eqb (size a) cardinality)
        then raise (ValueError (BadDimensions cardinality (shape new_value)))
        else assign (fun received_msg_dict =>
                       dict_set received_msg_dict key (Some a))
    | PyNdarrayNd _ =>
        raise (ValueError (BadDimensions cardinality (shape new_value)))
    | PyList _ | PyNone => raise (TypeError NotNdarray)
    end.

(** Running a method of an attribute on that attribute of the receiver. *)
Definition on_attr {S T A} (get : S -> T) (set : T -> S -> S) (c : M T A)
  : M S A :=
  fun self => let (r, t) := c (get self) in (r, set t self).

(** [Node.update_pi_msg_from_parent] *)
Definition update_pi_msg_from_parent (parent : label) (new_value : pyobject)
  : M Node unit :=
  fun self =>
    on_attr pi_received_msgs set_pi_received_msgs
      (_update_received_msg_by_key (cardinality self) parent new_value) self.

(** [Node.update_lambda_msg_from_child] *)
Definition update_lambda_msg_from_child (child : label)
    (new_value : pyobject) : M Node unit :=
  fun self =>
    on_attr lambda_received_msgs set_lambda_received_msgs
      (_update_received_msg_by_key (cardinality self) child new_value) self.

(** [np.divide(b, m)] where [b] is the belief, which may be [None], and [m]
    a message, which may be an array of strings. *)
Definition np_divide_opt (b : option Np.ndarray) (m : pyarray)
  : result Np.ndarray :=
  match b with
  | Some v =>
      match m with
      | Float64 m => divide v m
      | Unicode _ => Raise (TypeError StrOperand)
      end
  | None => Raise (TypeError NoneOperand)
  end.

(** [Node.compute_pi_msg_to_child] *)
Definition compute_pi_msg_to_child (self : Node) (child_k : label)
  : result Np.ndarray :=
  let? lambda_msg_from_child :=
    dict_getitem (lambda_received_msgs self) child_k in
  match lambda_msg_from_child with
  | Some m =>
      let? b := belief self in
      let? q := np_divide_opt b m in
      Ok (_normalize (Np.nan_to_num q))
  | None => Raise (ValueError NoLambdaMsgFromChild)
  end.

(** [Node.is_fully_initialized] *)
Definition is_fully_initialized (self : Node) : bool :=
  if existsb is_None (_return_msgs_received_for_msg_type self LAMBDA)
  then false
  else if existsb is_None (_return_msgs_received_for_msg_type self PI)
  then false
  else if is_None (pi_agg self) || is_None (lambda_agg self) then false
  else true.

(** [Node.compute_pi_agg] and [Node.compute_lambda_msg_to_parent]: left to
    the subclasses. *)
Definition Node_compute_pi_agg : M Node (option Np.ndarray) :=
  raise NotImplementedError.

Definition Node_compute_lambda_msg_to_parent (self : Node) (parent_k : label)
  : result Np.ndarray :=
  Raise NotImplementedError.

(** [reduce(lambda x, y: x*y, xs)] and [reduce(lambda x, y: x*y, xs, 1)] *)
Definition reduce_mul (xs : list npscalar) : result npscalar :=
  reduce py_mul xs.

Definition reduce_mul_from_1 (xs : list npscalar) : result npscalar :=
  fold_left (fun acc y => let? a := acc in py_mul a y) xs
            (Ok (NpFloat64 Np.one)).

(** [[f(x) for x in xs]] where [f] may raise. *)
Fixpoint list_comprehension {A B} (f : A -> result B) (xs : list A)
  : result (list B) :=
  match xs with
  | [] => Ok []
  | x :: xs' =>
      let? y := f x in
      let? ys := list_comprehension f xs' in
      Ok (y :: ys)
  end.

(** [BernoulliOrNode.compute_pi_agg].  [1 - p_0] needs a number. *)
Definition BernoulliOrNode_compute_pi_agg : M Node (option Np.ndarray) :=
  no_parents <- read (fun self => is_empty (parents self)) ;;
  (if no_parents then
     assign (fun self => set_pi_agg (Some (values (cpd self))) self)
   else
     pi_msg_values <-
       query (fun self =>
                validate_and_return_msgs_received_for_msg_type self PI) ;;
     parents_p0 <-
       lift (list_comprehension (fun p => array_getitem p 0)
                                pi_msg_values) ;;
     p_0 <- lift (reduce_mul parents_p0) ;;
     match p_0 with
     | NpFloat64 p_0 =>
         let p_1 := Np.sub Np.one p_0 in
         assign (set_pi_agg (Some [p_0; p_1]))
     | NpStr _ => raise (TypeError StrOperand)
     end) ;;;
  read pi_agg.

(** [np.array_equal(a, b)] where [a] may be [None] or an array of strings,
    which equal no array of numbers. *)
Definition array_equal_opt (a : option pyarray) (b : Np.ndarray) : bool :=
  match a with
  | Some (Float64 v) => Np.array_equal v b
  | Some (Unicode _) | None => false
  end.

(** [a[i]] where [a] may be [None], which cannot be subscripted. *)
Definition getitem_opt (a : option pyarray) (i : nat) : result npscalar :=
  match a with
  | Some v => array_getitem v i
  | None => Raise (TypeError NoneOperand)
  end.

(** [[msg[0] for par_id, msg in items if par_id != parent_k]], after the
    validation has found no [None] among the messages. *)
Definition p0_excluding (items : mailbox) (parent_k : label)
  : result (list npscalar) :=
  list_comprehension
    (fun item => getitem_opt (snd item) 0)
    (filter (fun item => negb (String.eqb (fst item) parent_k)) items).

(** [any(lambda_msg)], the builtin, on an array. *)
Definition builtin_any (a : Np.ndarray) : bool := existsb Np.truthy a.

(** [l1 + (l0 - l1') * p0_product] on scalars: the difference is formed
    first, then the product, then the sum, and each needs numbers. *)
Definition lambda_0_of (l1 l0 l1' p0_product : npscalar)
  : result Np.float64 :=
  match l0, l1', p0_product, l1 with
  | NpFloat64 l0, NpFloat64 l1', NpFloat64 p0_product, NpFloat64 l1 =>
      Ok (Np.add l1 (Np.mul (Np.sub l0 l1') p0_product))
  | _, _, _, _ => Raise (TypeError StrOperand)
  end.

(** [BernoulliOrNode.compute_lambda_msg_to_parent].  Once [lambda_0] has
    been computed, [lambda_agg[1]] is a number. *)
Definition BernoulliOrNode_compute_lambda_msg_to_parent (self : Node)
    (parent_k : label) : result Np.ndarray :=
  if array_equal_opt (lambda_agg self) (Np.ones (cardinality self))
  then Ok (Np.ones (cardinality self))
  else
    let? _ := validate_and_return_msgs_received_for_msg_type self PI in
    let? p0_excluding_k := p0_excluding (pi_received_msgs self) parent_k in
    let? p0_product := reduce_mul_from_1 p0_excluding_k in
    let? l1 := getitem_opt (lambda_agg self) 1 in
    let? l0 := getitem_opt (lambda_agg self) 0 in
    let? l1' := getitem_opt (lambda_agg self) 1 in
    let? lambda_0 := lambda_0_of l1 l0 l1' p0_product in
    let? lambda_1 := getitem_opt (lambda_agg self) 1 in
    match lambda_1 with
    | NpFloat64 lambda_1 =>
        let lambda_msg := [lambda_0; lambda_1] in
        if negb (builtin_any lambda_msg) then Raise InvalidLambdaMsgToParent
        else Ok (_normalize lambda_msg)
    | NpStr _ => Raise (TypeError StrOperand)
    end.

(** Method resolution by the class of the receiver. *)
Definition compute_pi_agg : M Node (option Np.ndarray) :=
  fun self =>
    match class_of self with
    | NodeClass =>
        Node_compute_pi_agg self
    | BernoulliOrNodeClass => BernoulliOrNode_compute_pi_agg self
    end.

Definition compute_lambda_msg_to_parent (self : Node) (parent_k : label)
  : result Np.ndarray :=
  match class_of self with
  | NodeClass => Node_compute_lambda_msg_to_parent self parent_k
  | BernoulliOrNodeClass =>
      BernoulliOrNode_compute_lambda_msg_to_parent self parent_k
  end.

(** ** [class BeliefUpdateNodeModel(BayesianModel)] *)

Definition edge : Type := (label * label)%type.

Definition edge_eqb (e1 e2 : edge) : bool :=
  String.eqb (fst e1) (fst e2) && String.eqb (snd e1) (snd e2).

(** [s.add(x)] on a set kept as a list without repetition. *)
Definition set_add {A} (eqb : A -> A -> bool) (s : list A) (x : A) : list A :=
  if existsb (eqb x) s then s else s ++ [x].

(** [s.update(xs)] *)
Definition set_update {A} (eqb : A -> A -> bool) (s xs : list A) : list A :=
  fold_left (set_add eqb) xs s.

(** [BeliefUpdateNodeModel._get_edges_from_nodes] *)
Definition _get_edges_from_nodes (nodes : list Node) : list edge :=
  fold_left
    (fun edges node =>
       if negb (is_empty (parents node)) then
         let edge_tuples :=
           combine (parents node)
                   (repeat (label_id node) (List.length (parents node))) in
         set_update edge_eqb edges edge_tuples
       else edges)
    nodes [].

(** The model: the graph the base class builds at construction, and the
    nodes. *)
Record BeliefUpdateNodeModel : Type := mkModel {
  graph_edges : list edge;
  graph_variables : list label;
  nodes_dict : dict Node
}.

(** [BeliefUpdateNodeModel.__init__] *)
Definition BeliefUpdateNodeModel_init (nodes_dict : dict Node)
  : BeliefUpdateNodeModel :=
  mkModel (_get_edges_from_nodes (dict_values nodes_dict))
          (dict_keys nodes_dict)
          nodes_dict.

(** Modelled from the spec: the graph of the base class [BayesianModel]
    (module [beliefs.models.base_models], outside this file), whose vertices
    are the end points of the edges and the variables given at
    construction. *)
Definition graph_vertices (self : BeliefUpdateNodeModel) : list label :=
  set_update String.eqb
    (set_update String.eqb []
       (flat_map (fun e : edge => [fst e; snd e]) (graph_edges self)))
    (graph_variables self).

(** Modelled from the spec: [BayesianModel.get_roots], the vertices with no
    incoming edge. *)
Definition get_roots (self : BeliefUpdateNodeModel) : list label :=
  filter (fun v => negb (existsb (fun e : edge => String.eqb (snd e) v)
                                 (graph_edges self)))
         (graph_vertices self).

(** Modelled from the spec: [BayesianModel.get_leaves], the vertices with
    no outgoing edge. *)
Definition get_leaves (self : BeliefUpdateNodeModel) : list label :=
  filter (fun v => negb (existsb (fun e : edge => String.eqb (fst e) v)
                                 (graph_edges self)))
         (graph_vertices self).

(** [for x in xs: body(x)] *)
Fixpoint for_each {S A} (xs : list A) (body : A -> M S unit) : M S unit :=
  match xs with
  | [] => ret tt
  | x :: xs' => body x ;;; for_each xs' body
  end.

Definition set_nodes_dict (d : dict Node) (self : BeliefUpdateNodeModel)
  : BeliefUpdateNodeModel :=
  mkModel (graph_edges self) (graph_variables self) d.

(** [self.nodes_dict[key].attr = rhs(self.nodes_dict[key])]: the node under
    [key] is looked up and one of its attributes assigned. *)
Definition assign_node_attr (key : label) (update : Node -> Node)
  : M BeliefUpdateNodeModel unit :=
  node <- query (fun self => dict_getitem (nodes_dict self) key) ;;
  assign (fun self =>
            set_nodes_dict (dict_set (nodes_dict self) key (update node))
                           self).

(** [BeliefUpdateNodeModel.set_boundary_conditions] *)
Definition set_boundary_conditions : M BeliefUpdateNodeModel unit :=
  roots <- read get_roots ;;
  for_each roots
    (fun root =>
       assign_node_attr root
         (fun node => set_pi_agg (Some (values (cpd node))) node)) ;;;
  leaves <- read get_leaves ;;
  for_each leaves
    (fun leaf =>
       assign_node_attr leaf
         (fun node =>
            set_lambda_agg (Some (Float64 (Np.ones (cardinality node))))
                           node)).

(** [BeliefUpdateNodeModel.all_nodes_are_fully_initialized] *)
Definition all_nodes_are_fully_initialized (self : BeliefUpdateNodeModel)
  : bool :=
  forallb is_fully_initialized (dict_values (nodes_dict self)).

(** ** [BeliefUpdateNodeModel.init_from_edges] *)

(** [list(g.successors(label))] and [list(g.predecessors(label))] for
    [g = nx.DiGraph(edges)]: the distinct heads of the edges out of [label],
    and the distinct tails of the edges into it, in the order the edges were
    given. *)
Definition successors (edges : list edge) (v : label) : list label :=
  set_update String.eqb []
    (map snd (filter (fun e : edge => String.eqb (fst e) v) edges)).

Definition predecessors (edges : list edge) (v : label) : list label :=
  set_update String.eqb []
    (map fst (filter (fun e : edge => String.eqb (snd e) v) edges)).

(** The set of the end points of the edges, which the source builds by
    chaining the edge tuples into a [set].
    Python leaves the order of a set open; the order of first occurrence
    stands for it here. *)
Definition edge_labels (edges : list edge) : list label :=
  set_update String.eqb [] (flat_map (fun e : edge => [fst e; snd e]) edges).

(** [{node.label_id: node for node in nodes}] *)
Definition dict_by_label_id (nodes : list Node) : dict Node :=
  fold_left (fun d node => dict_set d (label_id node) node) nodes [].

(** [BeliefUpdateNodeModel.init_from_edges].  [node_class] is called with
    [label_id], [children] and [parents], as the source calls it.  The
    source collects the nodes in a second [set] before it builds the dict;
    one node is built for each label, so the dict holds the same entries
    whatever order that set is read in. *)
Definition init_from_edges (edges : list edge)
    (node_class : label -> list label -> list label -> Node)
  : BeliefUpdateNodeModel :=
  let nodes :=
    map (fun label =>
           node_class label (successors edges label)
                      (predecessors edges label))
        (edge_labels edges) in
  BeliefUpdateNodeModel_init (dict_by_label_id nodes).

(** The class [BernoulliOrNode] as a callable.  [bernoulli_or_cpd] stands
    for the constructor of [BernoulliOrCPD], which is outside this file. *)
Definition BernoulliOrNode_class (bernoulli_or_cpd : label -> list label -> CPD)
    (label_id : label) (children parents : list label) : Node :=
  BernoulliOrNode_init label_id children parents
                       (bernoulli_or_cpd label_id parents).

(** ** The operations a driver applies to a node, and the reachable nodes *)

Inductive node_op : Type :=
| OpUpdatePiMsgFromParent (parent : label) (new_value : pyobject)
| OpUpdateLambdaMsgFromChild (child : label) (new_value : pyobject)
| OpComputeLambdaAgg
| OpComputePiAgg
| OpComputeLambdaMsgToParent (parent_k : label)
| OpComputePiMsgToChild (child_k : label).

(** What an operation hands back to its caller. *)
Inductive returned : Type :=
| RNone
| RArray (a : option pyarray).

Definition run (op : node_op) : M Node returned :=
  match op with
  | OpUpdatePiMsgFromParent parent v =>
      update_pi_msg_from_parent parent v ;;; ret RNone
  | OpUpdateLambdaMsgFromChild child v =>
      update_lambda_msg_from_child child v ;;; ret RNone
  | OpComputeLambdaAgg => a <- compute_lambda_agg ;; ret (RArray a)
  | OpComputePiAgg =>
      a <- compute_pi_agg ;; ret (RArray (option_map Float64 a))
  | OpComputeLambdaMsgToParent parent_k =>
      a <- query (fun self => compute_lambda_msg_to_parent self parent_k) ;;
      ret (RArray (Some (Float64 a)))
  | OpComputePiMsgToChild child_k =>
      a <- query (fun self => compute_pi_msg_to_child self child_k) ;;
      ret (RArray (Some (Float64 a)))
  end.

(** The receiver after a sequence of operations, whatever each returned or
    raised. *)
Definition run_all (ops : list node_op) (self : Node) : Node :=
  fold_left (fun s op => snd (run op s)) ops self.

(** The keys of the mailbox the constructor builds for a neighbour list:
    the distinct neighbours, in the order of their first occurrence. *)
Definition neighbours (keys : list label) : list label :=
  dict_keys (_init_received_msgs keys).

Fixpoint labels_eqb (xs ys : list label) : bool :=
  match xs, ys with
  | [], [] => true
  | x :: xs', y :: ys' => String.eqb x y && labels_eqb xs' ys'
  | _, _ => false
  end.

(** A slot is unset or holds an array of the node's cardinality, of
    whatever dtype. *)
Definition shape_ok (cardinality : nat) (slot : option pyarray) : bool :=
  match slot with
  | None => true
  | Some a => Nat.eqb (size a) cardinality
  end.

(** A slot is unset or holds an array of numbers of the node's
    cardinality. *)
Definition slot_ok (cardinality : nat) (slot : option pyarray) : bool :=
  match slot with
  | None => true
  | Some (Float64 a) => Nat.eqb (List.length a) cardinality
  | Some (Unicode _) => false
  end.

(** [pi_agg] is absent or of the node's cardinality. *)
Definition pi_agg_ok (cardinality : nat) (a : option Np.ndarray) : bool :=
  match a with
  | None => true
  | Some v => Nat.eqb (List.length v) cardinality
  end.

(** A mailbox has the keys the constructor gave it, and every slot
    satisfies [ok]. *)
Definition mailbox_ok (ok : option pyarray -> bool) (keys : list label)
    (d : mailbox) : bool :=
  labels_eqb (dict_keys d) (neighbours keys) && forallb ok (dict_values d).

Definition wf_mailbox (cardinality : nat) (keys : list label) (d : mailbox)
  : bool :=
  mailbox_ok (slot_ok cardinality) keys d.

(** The invariant of a node, for the slots that satisfy [ok]: the mailboxes
    have the keys the constructor gave them, every array held is as [ok]
    requires, [pi_agg] has the node's cardinality, a [BernoulliOrNode] has
    cardinality 2, and the table of a parentless node is a vector of that
    cardinality. *)
Definition node_ok (ok : nat -> option pyarray -> bool) (self : Node)
  : bool :=
  mailbox_ok (ok (cardinality self)) (parents self) (pi_received_msgs self)
  && mailbox_ok (ok (cardinality self)) (children self)
                (lambda_received_msgs self)
  && pi_agg_ok (cardinality self) (pi_agg self)
  && ok (cardinality self) (lambda_agg self)
  && match class_of self with
     | BernoulliOrNodeClass => Nat.eqb (cardinality self) 2
     | NodeClass => true
     end
  && (negb (is_empty (parents self))
      || Nat.eqb (List.length (values (cpd self))) (cardinality self)).

(** The invariant of the shapes, which every operation keeps: each array
    held, whatever its dtype, has the node's cardinality. *)
Definition wf_shapes (self : Node) : bool := node_ok shape_ok self.

(** The invariant of a node that has been sent arrays of numbers only: each
    array held is of dtype float64 and has the node's cardinality. *)
Definition wf_node (self : Node) : bool := node_ok slot_ok self.

(** ** Vocabulary of the statements *)

(** An array of length [n]. *)
Definition has_length (n : nat) (a : Np.ndarray) : Prop := List.length a = n.

(** Every neighbour in [keys] has a message of numbers in the mailbox. *)
Definition all_received (d : mailbox) (keys : list label) : Prop :=
  forall k, In k keys -> exists a, dict_get d k = Some (Some (Float64 a)).

(** Some neighbour in [keys] has its slot still unset. *)
Definition some_unset (d : mailbox) (keys : list label) : Prop :=
  exists k, In k keys /\ dict_get d k = Some None.

(** The message of numbers held for [k], when there is one. *)
Definition msg_of (d : mailbox) (k : label) : Np.ndarray :=
  match dict_get d k with
  | Some (Some (Float64 a)) => a
  | _ => []
  end.

(** The arrays of numbers among some arrays. *)
Definition numbers (msgs : list pyarray) : list Np.ndarray :=
  flat_map (fun a => match a with Float64 d => [d] | Unicode _ => [] end)
           msgs.

(** Component 0 of an array ([nan] stands for a missing one). *)
Definition component0 (a : Np.ndarray) : Np.float64 := nth 0 a Np.NaN.

(** The product of a list of scalars, from left to right. *)
Definition product (xs : list Np.float64) : Np.float64 :=
  fold_left Np.mul xs Np.one.

(** The elementwise product of a list of arrays of length [n], from left
    to right. *)
Definition elementwise_product (n : nat) (msgs : list Np.ndarray)
  : Np.ndarray :=
  fold_left (Np.zip_with Np.mul) msgs (Np.ones n).




(** The boundary condition of one node: the prior for a node without
    parents, the unit vector for a node without children. *)
Definition boundary (node : Node) : Node :=
  let node1 :=
    if is_empty (parents node)
    then set_pi_agg (Some (values (cpd node))) node else node in
  if is_empty (children node)
  then set_lambda_agg (Some (Float64 (Np.ones (cardinality node)))) node1
  else node1.

(** The nodes under the keys [ks] changed by [g], the others kept. *)
Definition update_at (ks : list label) (g : Node -> Node)
    (nodes : dict Node) : dict Node :=
  map (fun item : label * Node =>
         (fst item,
          if existsb (String.eqb (fst item)) ks then g (snd item)
          else snd item))
      nodes.

Fixpoint no_dup (xs : list label) : bool :=
  match xs with
  | [] => true
  | x :: xs' => negb (existsb (String.eqb x) xs') && no_dup xs'
  end.

(** The declarations of the nodes of a model agree: every node is stored
    under its own label, every neighbour named is a node of the model, and
    [c] is a child of [p] exactly when [p] is a parent of [c]. *)
Definition consistent (nodes : dict Node) : bool :=
  no_dup (dict_keys nodes)
  && forallb
       (fun item : label * Node =>
          let (k, node) := item in
          String.eqb k (label_id node)
          && forallb
               (fun p => match dict_get nodes p with
                         | Some pn => existsb (String.eqb k) (children pn)
                         | None => false
                         end)
               (parents node)
          && forallb
               (fun c => match dict_get nodes c with
                         | Some cn => existsb (String.eqb k) (parents cn)
                         | None => false
                         end)
               (children node))
       nodes.

(** Two states of a node that differ at most in the aggregates and in the
    values held in the mailboxes: the identity, the class, the neighbours,
    the cardinality, the CPD and the keys of both mailboxes agree. *)
Definition same_frame (s s' : Node) : Prop :=
  class_of s' = class_of s
  /\ label_id s' = label_id s
  /\ children s' = children s
  /\ parents s' = parents s
  /\ cardinality s' = cardinality s
  /\ cpd s' = cpd s
  /\ dict_keys (pi_received_msgs s') = dict_keys (pi_received_msgs s)
  /\ dict_keys (lambda_received_msgs s') = dict_keys (lambda_received_msgs s).

(** An operation that does not hand over an array of strings. *)
Definition numeric_op (op : node_op) : bool :=
  match op with
  | OpUpdatePiMsgFromParent _ (PyNdarray (Unicode _))
  | OpUpdateLambdaMsgFromChild _ (PyNdarray (Unicode _)) => false
  | _ => true
  end.

(** The deposits of the message [msg c] from every child [c] of a list, and
    of [msg p] from every parent [p]. *)
Definition lambda_deposits (msg : label -> Np.ndarray) (cs : list label)
  : list node_op :=
  map (fun c => OpUpdateLambdaMsgFromChild c (PyNdarray (Float64 (msg c))))
      cs.

Definition pi_deposits (msg : label -> Np.ndarray) (ps : list label)
  : list node_op :=
  map (fun p => OpUpdatePiMsgFromParent p (PyNdarray (Float64 (msg p)))) ps.

(** ** Concrete nodes *)

Module Fixtures.
Open Scope string_scope.
Open Scope float_scope.

(** The table of a [BernoulliOrCPD] without parents, and a stand-in for
    the table of one with parents, which no method modelled here reads. *)
Definition cpd_root : CPD := {| values := [0.5; 0.5] |}.
Definition cpd_with_parents : CPD := {| values := [] |}.

(** A message of numbers, as a value handed to an update. *)
Definition vector (a : Np.ndarray) : pyobject := PyNdarray (Float64 a).

(** A Bernoulli-OR node with parents [a] and [b], freshly built, and after
    both have reported [[0.4, 0.6]] and [[0.5, 0.5]]. *)
Definition two_parents : Node :=
  BernoulliOrNode_init "y" [] ["a"; "b"] cpd_with_parents.

Definition scenario_B : Node :=
  run_all [OpUpdatePiMsgFromParent "a" (vector [0.4; 0.6]);
           OpUpdatePiMsgFromParent "b" (vector [0.5; 0.5])]
          two_parents.

(** That node once a child-free boundary [[1, 1]] is set, and with the
    evidence [[0, 1]] instead. *)
Definition scenario_C : Node :=
  set_lambda_agg (Some (Float64 (Np.ones 2))) two_parents.

Definition with_evidence : Node :=
  set_lambda_agg (Some (Float64 [0; 1])) scenario_B.

(** A generic node of cardinality 2 with children [c1], [c2], [c3], and
    the same node built with the children in another order; each child has
    sent the same message to both. *)
Definition three_msgs : list node_op :=
  [OpUpdateLambdaMsgFromChild "c1" (vector [0.1; 0.5]);
   OpUpdateLambdaMsgFromChild "c2" (vector [0.2; 0.25]);
   OpUpdateLambdaMsgFromChild "c3" (vector [0.3; 0])].

Definition three_children : Node :=
  run_all three_msgs (Node_init "x" ["c1"; "c2"; "c3"] [] 2 cpd_root).

Definition three_children_permuted : Node :=
  run_all three_msgs (Node_init "x" ["c3"; "c1"; "c2"] [] 2 cpd_root).


(** A node whose parent reports state 0 for certain and whose child reports
    state 1 for certain, after both aggregations. *)
Definition contradictory : Node :=
  run_all [OpUpdatePiMsgFromParent "p" (vector [1; 0]);
           OpComputePiAgg;
           OpUpdateLambdaMsgFromChild "c" (vector [0; 1]);
           OpComputeLambdaAgg]
          (BernoulliOrNode_init "x" ["c"] ["p"] cpd_with_parents).






(** A Bernoulli-OR node with one parent and one child, freshly built, and
    three values that are not vectors of numbers: an array of two strings,
    an array of three strings, and the matrix of numbers of shape (2, 1). *)
Definition between : Node :=
  BernoulliOrNode_init "x" ["c"] ["p"] cpd_with_parents.

Definition two_strings : pyobject := PyNdarray (Unicode ["a"; "b"]).
Definition three_strings : pyobject := PyNdarray (Unicode ["a"; "b"; "c"]).
Definition column : pyobject := PyNdarrayNd (DimN 2 1 []).

(** Scenario A: the chain [X -> Y] of two Bernoulli-OR nodes, [X] with
    prior [[0.7, 0.3]]. *)
Definition chain : dict Node :=
  [("X", BernoulliOrNode_init "X" ["Y"] []
           {| values := [0.7; 0.3] |});
   ("Y", BernoulliOrNode_init "Y" [] ["X"] cpd_with_parents)].

(** Two nodes whose declarations disagree: [X] names [Y] as a child, and
    [Y] names no parent. *)
Definition disagreeing : dict Node :=
  [("X", BernoulliOrNode_init "X" ["Y"] [] {| values := [0.7; 0.3] |});
   ("Y", BernoulliOrNode_init "Y" [] [] {| values := [0.5; 0.5] |})].

(** The generic node with three children, freshly built, and the message
    each child sends. *)
Definition fresh_three : Node :=
  Node_init "x" ["c1"; "c2"; "c3"] [] 2 cpd_root.

Definition three_msg (c : label) : Np.ndarray :=
  if String.eqb c "c1" then [0.1; 0.5]
  else if String.eqb c "c2" then [0.2; 0.25]
  else [0.3; 0].

(** The messages of the parents of scenario B. *)
Definition two_msg (p : label) : Np.ndarray :=
  if String.eqb p "a" then [0.4; 0.6] else [0.5; 0.5].

(** A stand-in for the constructor of [BernoulliOrCPD]: the uniform prior
    for a variable without parents. *)
Definition cpd_of (label_id : label) (parents : list label) : CPD :=
  if is_empty parents then cpd_root else cpd_with_parents.

(** The edges of the graph [X -> Y], [X -> Z], [Y -> Z], and the model
    built from them. *)
Definition triangle : list edge := [("X", "Y"); ("X", "Z"); ("Y", "Z")].

Definition triangle_model : BeliefUpdateNodeModel :=
  init_from_edges triangle (BernoulliOrNode_class cpd_of).

(** A model whose only node names a parent that is not a node of the
    model. *)
Definition dangling : dict Node :=
  [("Y", BernoulliOrNode_init "Y" [] ["ghost"] cpd_with_parents)].

End Fixtures.

(** * Properties *)

(** ** Scalars *)

Module NpFacts.
Import Np.

(** Floats with the same binary representation are equal. *)
Lemma mul_comm (x y : float64) : mul x y = mul y x.
Proof.
  unfold mul. apply Prim2SF_inj. rewrite !mul_spec.
  destruct (Prim2SF x) as [sx|sx| |sx mx ex],
           (Prim2SF y) as [sy|sy| |sy my ey];
    cbn [SF64mul SFmul]; rewrite ?(xorb_comm sx sy); try reflexivity.
  now rewrite Pos.mul_comm, Z.add_comm.
Qed.

Lemma digits2_pos_shift (m : positive) (n : nat) :
  (Z.pos (digits2_pos (Nat.iter n xO m))
   = Z.pos (digits2_pos m) + Z.of_nat n)%Z.
Proof.
  induction n as [|n IH]; [simpl; lia|].
  rewrite Nat2Z.inj_succ.
  change (Nat.iter (S n) xO m) with (xO (Nat.iter n xO m)).
  cbn [digits2_pos]. rewrite Pos2Z.inj_succ. lia.
Qed.

(** The product of [1] and a float is that float, exactly: the mantissa is
    shifted by the 52 binary places of the mantissa of [1] and nothing is
    rounded away. *)
Lemma mul_one_l (x : float64) : mul one x = x.
Proof.
  unfold mul, one. apply Prim2SF_inj. rewrite mul_spec.
  pose proof (Prim2SF_valid x) as V.
  change (Prim2SF 1%float) with (S754_finite false 4503599627370496 (-52)).
  destruct (Prim2SF x) as [s|s| |s m e]; try reflexivity.
  cbn [SF64mul SFmul xorb].
  unfold valid_binary, SpecFloat.valid_binary, bounded, canonical_mantissa
    in V.
  apply andb_true_iff in V. destruct V as [C B].
  apply Z.eqb_eq in C.
  change (4503599627370496 * m)%positive with (Nat.iter 52 xO m).
  unfold binary_round_aux, shr_fexp.
  unfold Zdigits2. rewrite digits2_pos_shift.
  replace (Z.pos (digits2_pos m) + Z.of_nat 52 + (-52 + e))%Z
    with (Z.pos (digits2_pos m) + e)%Z by lia.
  rewrite C. replace (e - (-52 + e))%Z with 52%Z by lia.
  cbv [shr shr_record_of_loc SpecFloat.iter_pos Pos.iter Nat.iter nat_rect
       shr_1 orb shr_m shr_r shr_s loc_of_shr_record round_nearest_even
       Zdigits2].
  replace (-52 + e + 52)%Z with e by lia.
  rewrite C, Z.sub_diag. now rewrite B.
Qed.

Lemma mul_one_r (x : float64) : mul x one = x.
Proof. rewrite mul_comm. apply mul_one_l. Qed.



Lemma eqb_one_iff (x : float64) : eqb x one = true <-> x = one.
Proof.
  unfold eqb, one. split; [|intros ->; reflexivity].
  intros H. apply Prim2SF_inj. rewrite eqb_spec in H.
  change (Prim2SF 1%float) with (S754_finite false 4503599627370496 (-52))
    in *.
  unfold SFeqb, SFcompare in H.
  destruct (Prim2SF x) as [s|s| |s m e]; try discriminate.
  - destruct s; discriminate.
  - destruct s; try discriminate.
    destruct (Z.compare_spec e (-52)) as [E| |]; try discriminate.
    subst e.
    destruct (Pos.compare_cont Eq m 4503599627370496) eqn:C;
      try discriminate.
    apply (Pos.compare_eq m) in C. now subst.
Qed.

Lemma array_equal_ones_iff (a : ndarray) (n : nat) :
  array_equal a (ones n) = true <-> a = ones n.
Proof.
  revert n. induction a as [|x a IH]; intros [|n]; cbn -[eqb one];
    try (split; [discriminate | discriminate || reflexivity]);
    try (split; reflexivity).
  rewrite andb_true_iff, eqb_one_iff, IH. unfold ones. split.
  - intros [-> ->]. reflexivity.
  - intros E. inversion E; subst. split; reflexivity.
Qed.

Lemma length_ones (n : nat) : List.length (ones n) = n.
Proof. apply repeat_length. Qed.

Lemma length_zip_with f (a b : ndarray) :
  List.length a = List.length b ->
  List.length (zip_with f a b) = List.length a.
Proof.
  revert b. induction a as [|x a IH]; intros [|y b]; simpl; intros H;
    try reflexivity; try discriminate.
  f_equal. apply IH. now inversion H.
Qed.

Lemma zip_with_mul_comm (a b : ndarray) :
  zip_with mul a b = zip_with mul b a.
Proof.
  revert b. induction a as [|x a IH]; intros [|y b]; simpl; try reflexivity.
  now rewrite mul_comm, IH.
Qed.

Lemma zip_with_mul_ones_l (a : ndarray) :
  zip_with mul (ones (List.length a)) a = a.
Proof.
  unfold ones. induction a as [|x a IH]; cbn -[mul one]; [reflexivity|].
  now rewrite mul_one_l, IH.
Qed.

Lemma broadcast_same_length f (a b : ndarray) :
  List.length a = List.length b -> broadcast f a b = Some (zip_with f a b).
Proof.
  intros H. unfold broadcast. now rewrite H, Nat.eqb_refl.
Qed.

Lemma length_div_scalar (a : ndarray) (s : float64) :
  List.length (div_scalar a s) = List.length a.
Proof. apply length_map. Qed.

End NpFacts.

(** ** Dictionaries *)

(** ** Dictionaries *)

Section DictFacts.
Context {V : Type}.
Implicit Types (d : dict V) (k : label) (v : V).

Lemma dict_mem_In d k : dict_mem d k = true <-> In k (dict_keys d).
Proof.
  unfold dict_mem. rewrite existsb_exists. split.
  - intros (x & Hx & E). apply String.eqb_eq in E. now subst.
  - intros H. exists k. split; [assumption | apply String.eqb_refl].
Qed.

Lemma dict_mem_false d k : dict_mem d k = false <-> ~ In k (dict_keys d).
Proof.
  rewrite <- dict_mem_In. destruct (dict_mem d k); split; congruence.
Qed.

Lemma dict_get_None d k : dict_get d k = None <-> ~ In k (dict_keys d).
Proof.
  induction d as [|[k' v'] d IH]; simpl.
  - tauto.
  - destruct (String.eqb k' k) eqn:E.
    + apply String.eqb_eq in E. split; [discriminate | tauto].
    + apply String.eqb_neq in E. rewrite IH. tauto.
Qed.

Lemma dict_get_Some_In d k v :
  dict_get d k = Some v -> In (k, v) d.
Proof.
  induction d as [|[k' v'] d IH]; simpl; [discriminate|].
  destruct (String.eqb k' k) eqn:E.
  - apply String.eqb_eq in E. intros [= ->]. left. now subst.
  - auto.
Qed.

Lemma dict_get_In_keys d k v :
  dict_get d k = Some v -> In k (dict_keys d).
Proof.
  intros H. apply dict_get_Some_In in H.
  unfold dict_keys. apply in_map_iff. now exists (k, v).
Qed.

Lemma In_dict_get d k v :
  NoDup (dict_keys d) -> In (k, v) d -> dict_get d k = Some v.
Proof.
  induction d as [|[k' v'] d IH]; simpl; [tauto|].
  intros ND [E | H].
  - injection E as -> ->. now rewrite String.eqb_refl.
  - inversion ND as [|? ? Hn ND']; subst.
    destruct (String.eqb k' k) eqn:E.
    + apply String.eqb_eq in E. subst. exfalso. apply Hn.
      unfold dict_keys. apply in_map_iff. now exists (k, v).
    + now apply IH.
Qed.

Lemma In_keys_dict_get d k :
  In k (dict_keys d) -> exists v, dict_get d k = Some v.
Proof.
  intros H. destruct (dict_get d k) eqn:E; [eauto|].
  now apply dict_get_None in E.
Qed.

Lemma dict_get_set_same d k v : dict_get (dict_set d k v) k = Some v.
Proof.
  induction d as [|[k' v'] d IH]; simpl.
  - now rewrite String.eqb_refl.
  - destruct (String.eqb k' k) eqn:E; simpl; now rewrite E.
Qed.

Lemma dict_get_set_other d k k' v :
  k' <> k -> dict_get (dict_set d k v) k' = dict_get d k'.
Proof.
  intros N. induction d as [|[k0 v0] d IH]; simpl.
  - apply String.eqb_neq in N. rewrite String.eqb_sym in N. now rewrite N.
  - destruct (String.eqb k0 k) eqn:E; simpl.
    + apply String.eqb_eq in E. subst k0.
      apply String.eqb_neq in N. rewrite String.eqb_sym in N.
      now rewrite N.
    + now rewrite IH.
Qed.

Lemma dict_keys_set_mem d k v :
  In k (dict_keys d) -> dict_keys (dict_set d k v) = dict_keys d.
Proof.
  induction d as [|[k' v'] d IH]; simpl; [tauto|].
  intros H. destruct (String.eqb k' k) eqn:E; simpl; [reflexivity|].
  f_equal. apply IH. destruct H as [H|H]; [|assumption].
  apply String.eqb_neq in E. congruence.
Qed.

Lemma dict_keys_set_new d k v :
  ~ In k (dict_keys d) -> dict_keys (dict_set d k v) = dict_keys d ++ [k].
Proof.
  induction d as [|[k' v'] d IH]; simpl; [reflexivity|].
  intros H. destruct (String.eqb k' k) eqn:E; simpl.
  - apply String.eqb_eq in E. tauto.
  - f_equal. apply IH. tauto.
Qed.

Lemma dict_values_set_forallb (P : V -> bool) d k v :
  forallb P (dict_values d) = true -> P v = true ->
  forallb P (dict_values (dict_set d k v)) = true.
Proof.
  intros Hd Hv. induction d as [|[k' v'] d IH]; simpl in *.
  - now rewrite Hv.
  - apply andb_true_iff in Hd as [H1 H2].
    destruct (String.eqb k' k); simpl.
    + now rewrite Hv, H2.
    + now rewrite H1, IH.
Qed.
End DictFacts.

Lemma labels_eqb_eq (xs ys : list label) : labels_eqb xs ys = true <-> xs = ys.
Proof.
  revert ys. induction xs as [|x xs IH]; intros [|y ys]; simpl;
    try (split; [discriminate | discriminate || reflexivity]);
    try (split; reflexivity).
  rewrite andb_true_iff, String.eqb_eq, IH. split.
  - intros [-> ->]. reflexivity.
  - intros [= -> ->]. split; reflexivity.
Qed.

Lemma no_dup_NoDup (xs : list label) : no_dup xs = true <-> NoDup xs.
Proof.
  induction xs as [|x xs IH]; simpl.
  - split; [constructor | reflexivity].
  - rewrite andb_true_iff, negb_true_iff, IH. split.
    + intros [H1 H2]. constructor; [|assumption].
      intros Hin. assert (E : existsb (String.eqb x) xs = true).
      { apply existsb_exists. exists x. split; [assumption|].
        apply String.eqb_refl. }
      congruence.
    + intros H. inversion H as [|? ? Hn ND]; subst. split; [|assumption].
      destruct (existsb (String.eqb x) xs) eqn:E; [|reflexivity].
      apply existsb_exists in E as (y & Hy & E).
      apply String.eqb_eq in E. now subst.
Qed.

(** The keys of the mailbox a constructor builds. *)
Lemma init_received_msgs_keys (keys : list label) (d : mailbox) :
  NoDup (dict_keys d) ->
  let d' := fold_left (fun d k => dict_set d k None) keys d in
  NoDup (dict_keys d')
  /\ (forall k, In k (dict_keys d') <-> In k (dict_keys d) \/ In k keys)
  /\ (NoDup keys -> (forall k, In k keys -> ~ In k (dict_keys d)) ->
      dict_keys d' = dict_keys d ++ keys).
Proof.
  revert d. induction keys as [|k keys IH]; intros d ND; simpl.
  - repeat split; try tauto. intros _ _. now rewrite app_nil_r.
  - destruct (in_dec string_dec k (dict_keys d)) as [Hin | Hnin].
    + pose proof (dict_keys_set_mem d k None Hin) as E.
      destruct (IH (dict_set d k None)) as (H1 & H2 & H3).
      { now rewrite E. }
      repeat split; [assumption | | | ].
      * intros H. apply H2 in H. rewrite E in H. tauto.
      * intros H. apply H2. rewrite E.
        destruct H as [H | [<- | H]]; tauto.
      * intros _ Hd. exfalso. apply (Hd k); [now left | assumption].
    + pose proof (dict_keys_set_new d k None Hnin) as E.
      destruct (IH (dict_set d k None)) as (H1 & H2 & H3).
      { rewrite E. apply NoDup_app; [assumption | repeat constructor; tauto |].
        intros x Hx [<- | []]. tauto. }
      repeat split; [assumption | | | ].
      * intros H. apply H2 in H. rewrite E, in_app_iff in H. simpl in H.
        tauto.
      * intros H. apply H2. rewrite E, in_app_iff. simpl. tauto.
      * intros NDk Hd. inversion NDk as [|? ? Hk NDk']; subst.
        rewrite H3; [| assumption |].
        -- rewrite E, <- app_assoc. reflexivity.
        -- intros x Hx. rewrite E, in_app_iff. simpl.
           intros [Hxd | [<- | []]]; [|tauto].
           apply (Hd x); [now right | assumption].
Qed.

Lemma neighbours_NoDup (keys : list label) : NoDup (neighbours keys).
Proof.
  unfold neighbours, _init_received_msgs.
  apply (init_received_msgs_keys keys [] (NoDup_nil _)).
Qed.

Lemma neighbours_In (keys : list label) (k : label) :
  In k (neighbours keys) <-> In k keys.
Proof.
  unfold neighbours, _init_received_msgs.
  destruct (init_received_msgs_keys keys [] (NoDup_nil _)) as (_ & H & _).
  rewrite H. simpl. tauto.
Qed.

Lemma neighbours_of_set (keys : list label) :
  NoDup keys -> neighbours keys = keys.
Proof.
  intros ND. unfold neighbours, _init_received_msgs.
  destruct (init_received_msgs_keys keys [] (NoDup_nil _)) as (_ & _ & H).
  now apply H.
Qed.

Lemma neighbours_nil_iff (keys : list label) : neighbours keys = [] <-> keys = [].
Proof.
  split.
  - intros E. destruct keys as [|k keys]; [reflexivity|].
    assert (H : In k (neighbours (k :: keys))) by (apply neighbours_In; now left).
    rewrite E in H. destruct H.
  - intros ->. reflexivity.
Qed.

(** ** Mailboxes *)

Lemma slot_ok_Some (n : nat) (a : Np.ndarray) :
  slot_ok n (Some (Float64 a)) = true <-> List.length a = n.
Proof. simpl. apply Nat.eqb_eq. Qed.

(** A slot that holds numbers of the right length has the right shape. *)
Lemma slot_ok_shape_ok (n : nat) (o : option pyarray) :
  slot_ok n o = true -> shape_ok n o = true.
Proof. destruct o as [[a|a]|]; simpl; congruence. Qed.

Lemma mailbox_ok_spec ok (keys : list label) (d : mailbox) :
  mailbox_ok ok keys d = true <->
  dict_keys d = neighbours keys /\ forallb ok (dict_values d) = true.
Proof.
  unfold mailbox_ok. now rewrite andb_true_iff, labels_eqb_eq.
Qed.

Lemma mailbox_ok_NoDup ok (keys : list label) (d : mailbox) :
  mailbox_ok ok keys d = true -> NoDup (dict_keys d).
Proof.
  intros H. apply mailbox_ok_spec in H as [-> _]. apply neighbours_NoDup.
Qed.

Lemma mailbox_ok_In ok (keys : list label) (d : mailbox) (k : label) :
  mailbox_ok ok keys d = true -> (In k (dict_keys d) <-> In k keys).
Proof.
  intros H. apply mailbox_ok_spec in H as [-> _]. apply neighbours_In.
Qed.

Lemma mailbox_ok_slot ok (keys : list label) (d : mailbox) (k : label)
    (o : option pyarray) :
  mailbox_ok ok keys d = true -> dict_get d k = Some o -> ok o = true.
Proof.
  intros H G. apply mailbox_ok_spec in H as [_ H].
  rewrite forallb_forall in H. apply H.
  apply dict_get_Some_In in G. unfold dict_values.
  apply in_map_iff. now exists (k, o).
Qed.

Lemma mailbox_ok_init ok (keys : list label) :
  ok None = true -> mailbox_ok ok keys (_init_received_msgs keys) = true.
Proof.
  intros O. apply mailbox_ok_spec. split; [reflexivity|].
  unfold _init_received_msgs.
  assert (G : forall d : mailbox,
             forallb ok (dict_values d) = true ->
             forallb ok
               (dict_values (fold_left (fun d k => dict_set d k None) keys d))
             = true).
  { induction keys as [|k keys IH]; intros d Hd; simpl; [assumption|].
    apply IH. now apply dict_values_set_forallb. }
  now apply G.
Qed.

Lemma mailbox_ok_set ok (keys : list label) (d : mailbox) (k : label)
    (o : option pyarray) :
  mailbox_ok ok keys d = true -> dict_mem d k = true -> ok o = true ->
  mailbox_ok ok keys (dict_set d k o) = true.
Proof.
  intros W Hk Ho. apply mailbox_ok_spec in W as [K V].
  apply mailbox_ok_spec. split.
  - rewrite dict_keys_set_mem; [assumption | now apply dict_mem_In].
  - now apply dict_values_set_forallb.
Qed.

Lemma mailbox_ok_weaken (ok ok' : option pyarray -> bool)
    (keys : list label) (d : mailbox) :
  (forall o, ok o = true -> ok' o = true) ->
  mailbox_ok ok keys d = true -> mailbox_ok ok' keys d = true.
Proof.
  intros I W. apply mailbox_ok_spec in W as [K V].
  apply mailbox_ok_spec. split; [assumption|].
  rewrite forallb_forall in *. auto.
Qed.

(** A mailbox of a node with a neighbour has a slot. *)
Lemma mailbox_ok_nonempty ok (keys : list label) (d : mailbox) :
  mailbox_ok ok keys d = true -> keys <> [] ->
  received (dict_values d) <> [] \/ existsb is_None (dict_values d) = true.
Proof.
  intros W N. apply mailbox_ok_spec in W as [K _].
  destruct d as [|[k [a|]] d]; simpl.
  - exfalso. apply N. apply neighbours_nil_iff. now rewrite <- K.
  - left. discriminate.
  - now right.
Qed.

Lemma wf_mailbox_spec (n : nat) (keys : list label) (d : mailbox) :
  wf_mailbox n keys d = true <->
  dict_keys d = neighbours keys
  /\ forallb (slot_ok n) (dict_values d) = true.
Proof. apply mailbox_ok_spec. Qed.

Lemma wf_mailbox_NoDup (n : nat) (keys : list label) (d : mailbox) :
  wf_mailbox n keys d = true -> NoDup (dict_keys d).
Proof. apply mailbox_ok_NoDup. Qed.

Lemma wf_mailbox_In (n : nat) (keys : list label) (d : mailbox) (k : label) :
  wf_mailbox n keys d = true -> (In k (dict_keys d) <-> In k keys).
Proof. apply mailbox_ok_In. Qed.

(** What a mailbox of numbers holds for a key is an array of numbers of the
    node's cardinality. *)
Lemma wf_mailbox_float (n : nat) (keys : list label) (d : mailbox)
    (k : label) (m : pyarray) :
  wf_mailbox n keys d = true -> dict_get d k = Some (Some m) ->
  exists a, m = Float64 a /\ List.length a = n.
Proof.
  intros H G. pose proof (mailbox_ok_slot _ _ _ _ _ H G) as S.
  destruct m as [a|a]; [|discriminate].
  exists a. split; [reflexivity | now apply slot_ok_Some].
Qed.

Lemma wf_mailbox_length (n : nat) (keys : list label) (d : mailbox)
    (k : label) (a : Np.ndarray) :
  wf_mailbox n keys d = true -> dict_get d k = Some (Some (Float64 a)) ->
  List.length a = n.
Proof.
  intros H G. destruct (wf_mailbox_float _ _ _ _ _ H G) as (a' & E & L).
  now inversion E; subst.
Qed.

Lemma wf_mailbox_init (n : nat) (keys : list label) :
  wf_mailbox n keys (_init_received_msgs keys) = true.
Proof. now apply mailbox_ok_init. Qed.

(** A slot holding [None] shows among the values, and conversely. *)
Lemma unset_slot_iff (d : mailbox) :
  NoDup (dict_keys d) ->
  (existsb is_None (dict_values d) = true <->
   exists k, dict_get d k = Some None).
Proof.
  intros ND. rewrite existsb_exists. split.
  - intros (o & Hin & E). destruct o; [discriminate|].
    unfold dict_values in Hin. apply in_map_iff in Hin as ([k v] & Ev & Hin).
    simpl in Ev. subst v. exists k. now apply In_dict_get.
  - intros (k & G). exists None. split; [|reflexivity].
    apply dict_get_Some_In in G. unfold dict_values.
    apply in_map_iff. now exists (k, None).
Qed.

Lemma some_unset_iff ok (keys : list label) (d : mailbox) :
  mailbox_ok ok keys d = true ->
  (some_unset d keys <-> existsb is_None (dict_values d) = true).
Proof.
  intros W. rewrite (unset_slot_iff d (mailbox_ok_NoDup _ _ _ W)).
  unfold some_unset. split.
  - intros (k & _ & G). eauto.
  - intros (k & G). exists k. split; [|assumption].
    apply (mailbox_ok_In _ _ _ k W). eapply dict_get_In_keys; eassumption.
Qed.

Lemma all_received_iff (n : nat) (keys : list label) (d : mailbox) :
  wf_mailbox n keys d = true ->
  (all_received d keys <-> existsb is_None (dict_values d) = false).
Proof.
  intros W. pose proof (some_unset_iff _ _ _ W) as S.
  destruct (existsb is_None (dict_values d)) eqn:E.
  - split; [|discriminate]. intros A.
    destruct (proj2 S eq_refl) as (k & Hk & G).
    destruct (A k Hk) as (a & G'). congruence.
  - split; [reflexivity|]. intros _ k Hk.
    apply (wf_mailbox_In _ _ _ k W) in Hk.
    destruct (In_keys_dict_get _ _ Hk) as ([m|] & G).
    + destruct (wf_mailbox_float _ _ _ _ _ W G) as (a & -> & _). eauto.
    + assert (some_unset d keys).
      { exists k. split; [|assumption]. apply (wf_mailbox_In _ _ _ k W).
        eapply dict_get_In_keys; eassumption. }
      apply S in H. discriminate.
Qed.

Lemma not_all_received_iff (n : nat) (keys : list label) (d : mailbox) :
  wf_mailbox n keys d = true ->
  (~ all_received d keys <-> some_unset d keys).
Proof.
  intros W. rewrite (all_received_iff _ _ _ W), (some_unset_iff _ _ _ W).
  destruct (existsb is_None (dict_values d)); split; congruence.
Qed.

(** A mailbox of numbers with every slot filled, read off its keys. *)
Lemma mailbox_by_keys (n : nat) (d : mailbox) :
  NoDup (dict_keys d) ->
  forallb (slot_ok n) (dict_values d) = true ->
  existsb is_None (dict_values d) = false ->
  d = map (fun k => (k, Some (Float64 (msg_of d k)))) (dict_keys d).
Proof.
  induction d as [|[k o] d IH]; simpl; intros ND S E; [reflexivity|].
  apply orb_false_iff in E as [Eo E].
  apply andb_true_iff in S as [So S].
  inversion ND as [|? ? Hn ND']; subst.
  destruct o as [[a|a]|]; try discriminate.
  unfold msg_of at 1. simpl. rewrite String.eqb_refl. f_equal.
  rewrite IH at 1 by assumption.
  apply map_ext_in. intros k' Hk'. unfold msg_of. simpl.
  destruct (String.eqb k k') eqn:Ek; [|reflexivity].
  apply String.eqb_eq in Ek. subst. contradiction.
Qed.

Lemma received_by_keys (n : nat) (d : mailbox) :
  NoDup (dict_keys d) ->
  forallb (slot_ok n) (dict_values d) = true ->
  existsb is_None (dict_values d) = false ->
  received (dict_values d) = map Float64 (map (msg_of d) (dict_keys d)).
Proof.
  intros ND S E. rewrite (mailbox_by_keys n d ND S E) at 1.
  unfold dict_values, received. rewrite map_map. simpl.
  clear ND S E. induction (dict_keys d) as [|k ks IH]; simpl; [reflexivity|].
  now rewrite IH.
Qed.

Lemma numbers_map_Float64 (msgs : list Np.ndarray) :
  numbers (map Float64 msgs) = msgs.
Proof.
  induction msgs as [|a l IH]; simpl; [reflexivity|]. now rewrite IH.
Qed.

(** The messages of a mailbox of numbers are arrays of numbers of the
    node's cardinality. *)
Lemma received_numbers (n : nat) (keys : list label) (d : mailbox) :
  wf_mailbox n keys d = true ->
  received (dict_values d) = map Float64 (numbers (received (dict_values d)))
  /\ Forall (has_length n) (numbers (received (dict_values d))).
Proof.
  intros W. apply wf_mailbox_spec in W as [_ W].
  induction (dict_values d) as [|o l IH]; simpl in *; [now split|].
  apply andb_true_iff in W as [Ho W]. destruct (IH W) as [E F].
  destruct o as [[a|a]|]; simpl; try discriminate.
  - split; [now rewrite <- E|].
    constructor; [now apply Nat.eqb_eq | assumption].
  - now split.
Qed.

(** ** The methods, unfolded *)

Lemma set_pi_received_msgs_same (self : Node) :
  set_pi_received_msgs (pi_received_msgs self) self = self.
Proof. now destruct self. Qed.

Lemma set_lambda_received_msgs_same (self : Node) :
  set_lambda_received_msgs (lambda_received_msgs self) self = self.
Proof. now destruct self. Qed.

Lemma _update_received_msg_by_key_eq (n : nat) (key : label) (v : pyobject)
    (d : mailbox) :
  _update_received_msg_by_key n key v d =
  if dict_mem d key then
    match v with
    | PyNdarray a =>
        if Nat.eqb (size a) n
        then (Ok tt, dict_set d key (Some a))
        else (Raise (ShapeMismatch n (shape v)), d)
    | PyNdarrayNd _ => (Raise (ShapeMismatch n (shape v)), d)
    | PyList _ | PyNone => (Raise TypeMismatch, d)
    end
  else (Raise (UnknownNeighbor key), d).
Proof.
  unfold _update_received_msg_by_key, bind, read, raise, assign.
  destruct (dict_mem d key); simpl; [|reflexivity].
  destruct v as [a| | |]; try reflexivity.
  now destruct (Nat.eqb (size a) n).
Qed.

Lemma update_pi_msg_from_parent_eq (parent : label) (v : pyobject)
    (self : Node) :
  update_pi_msg_from_parent parent v self =
  if dict_mem (pi_received_msgs self) parent then
    match v with
    | PyNdarray a =>
        if Nat.eqb (size a) (cardinality self)
        then (Ok tt,
              set_pi_received_msgs
                (dict_set (pi_received_msgs self) parent (Some a)) self)
        else (Raise (ShapeMismatch (cardinality self) (shape v)), self)
    | PyNdarrayNd _ =>
        (Raise (ShapeMismatch (cardinality self) (shape v)), self)
    | PyList _ | PyNone => (Raise TypeMismatch, self)
    end
  else (Raise (UnknownNeighbor parent), self).
Proof.
  unfold update_pi_msg_from_parent, on_attr.
  rewrite _update_received_msg_by_key_eq.
  destruct (dict_mem (pi_received_msgs self) parent);
    [destruct v as [a| | |];
     [destruct (Nat.eqb (size a) (cardinality self))| | |]|];
    try reflexivity; now rewrite set_pi_received_msgs_same.
Qed.

Lemma update_lambda_msg_from_child_eq (child : label) (v : pyobject)
    (self : Node) :
  update_lambda_msg_from_child child v self =
  if dict_mem (lambda_received_msgs self) child then
    match v with
    | PyNdarray a =>
        if Nat.eqb (size a) (cardinality self)
        then (Ok tt,
              set_lambda_received_msgs
                (dict_set (lambda_received_msgs self) child (Some a)) self)
        else (Raise (ShapeMismatch (cardinality self) (shape v)), self)
    | PyNdarrayNd _ =>
        (Raise (ShapeMismatch (cardinality self) (shape v)), self)
    | PyList _ | PyNone => (Raise TypeMismatch, self)
    end
  else (Raise (UnknownNeighbor child), self).
Proof.
  unfold update_lambda_msg_from_child, on_attr.
  rewrite _update_received_msg_by_key_eq.
  destruct (dict_mem (lambda_received_msgs self) child);
    [destruct v as [a| | |];
     [destruct (Nat.eqb (size a) (cardinality self))| | |]|];
    try reflexivity; now rewrite set_lambda_received_msgs_same.
Qed.

Lemma compute_lambda_agg_eq (self : Node) :
  compute_lambda_agg self =
  if is_empty (children self) then (Ok (lambda_agg self), self)
  else
    match validate_and_return_msgs_received_for_msg_type self LAMBDA with
    | Raise e => (Raise e, self)
    | Ok msgs =>
        match reduce np_multiply msgs with
        | Raise e => (Raise e, self)
        | Ok v => (Ok (Some v), set_lambda_agg (Some v) self)
        end
    end.
Proof.
  unfold compute_lambda_agg, bind, read, query, lift, assign.
  destruct (is_empty (children self)); [reflexivity|].
  destruct (validate_and_return_msgs_received_for_msg_type self LAMBDA)
    as [msgs|e]; [|reflexivity].
  now destruct (reduce np_multiply msgs).
Qed.

Lemma BernoulliOrNode_compute_pi_agg_eq (self : Node) :
  BernoulliOrNode_compute_pi_agg self =
  if is_empty (parents self)
  then (Ok (Some (values (cpd self))),
        set_pi_agg (Some (values (cpd self))) self)
  else
    match validate_and_return_msgs_received_for_msg_type self PI with
    | Raise e => (Raise e, self)
    | Ok msgs =>
        match list_comprehension (fun p => array_getitem p 0) msgs with
        | Raise e => (Raise e, self)
        | Ok parents_p0 =>
            match reduce_mul parents_p0 with
            | Raise e => (Raise e, self)
            | Ok (NpStr _) => (Raise (TypeError StrOperand), self)
            | Ok (NpFloat64 p_0) =>
                (Ok (Some [p_0; Np.sub Np.one p_0]),
                 set_pi_agg (Some [p_0; Np.sub Np.one p_0]) self)
            end
        end
    end.
Proof.
  unfold BernoulliOrNode_compute_pi_agg, bind, read, query, lift, assign,
    raise.
  destruct (is_empty (parents self)); [reflexivity|].
  destruct (validate_and_return_msgs_received_for_msg_type self PI)
    as [msgs|e]; [|reflexivity].
  destruct (list_comprehension (fun p => array_getitem p 0) msgs) as [ps|e];
    [|reflexivity].
  now destruct (reduce_mul ps) as [[x|s]|e].
Qed.

Lemma validate_eq (self : Node) (mt : MessageType) :
  validate_and_return_msgs_received_for_msg_type self mt =
  let d := match mt with
           | LAMBDA => lambda_received_msgs self
           | PI => pi_received_msgs self
           end in
  if existsb is_None (dict_values d) then Raise (MissingMessage mt)
  else Ok (received (dict_values d)).
Proof. destruct mt; reflexivity. Qed.

(** An operation that raises leaves the receiver as it found it. *)
Lemma run_raise_unchanged (op : node_op) (self : Node) (e : exn) :
  fst (run op self) = Raise e -> snd (run op self) = self.
Proof.
  destruct op as [k v | k v | | | k | k]; unfold run, bind, ret, query.
  - rewrite update_pi_msg_from_parent_eq.
    destruct (dict_mem _ _); [destruct v as [a| | |];
      [destruct (Nat.eqb _ _)| | |]|]; simpl; congruence.
  - rewrite update_lambda_msg_from_child_eq.
    destruct (dict_mem _ _); [destruct v as [a| | |];
      [destruct (Nat.eqb _ _)| | |]|]; simpl; congruence.
  - rewrite compute_lambda_agg_eq.
    destruct (is_empty _); [simpl; congruence|].
    destruct (validate_and_return_msgs_received_for_msg_type _ _);
      [|simpl; congruence].
    destruct (reduce _ _); simpl; congruence.
  - unfold compute_pi_agg.
    destruct (class_of self); [reflexivity|].
    rewrite BernoulliOrNode_compute_pi_agg_eq.
    destruct (is_empty _); [simpl; congruence|].
    destruct (validate_and_return_msgs_received_for_msg_type _ _);
      [|simpl; congruence].
    destruct (list_comprehension _ _); [|simpl; congruence].
    destruct (reduce_mul _) as [[x|s]|e']; simpl; congruence.
  - destruct (compute_lambda_msg_to_parent self k); reflexivity.
  - destruct (compute_pi_msg_to_child self k); reflexivity.
Qed.

(** ** Products of messages *)

Lemma multiply_same_length (a b : Np.ndarray) :
  List.length a = List.length b ->
  multiply a b = Ok (Np.zip_with Np.mul a b).
Proof.
  intros H. unfold multiply.
  now rewrite (NpFacts.broadcast_same_length _ _ _ H).
Qed.

Lemma divide_same_length (a b : Np.ndarray) :
  List.length a = List.length b ->
  divide a b = Ok (Np.zip_with Np.div a b).
Proof.
  intros H. unfold divide.
  now rewrite (NpFacts.broadcast_same_length _ _ _ H).
Qed.

Lemma fold_zip_length (n : nat) (msgs : list Np.ndarray) (acc : Np.ndarray) :
  Forall (has_length n) msgs -> has_length n acc ->
  has_length n (fold_left (Np.zip_with Np.mul) msgs acc).
Proof.
  intros F. revert acc. induction F as [|x l Hx F IH]; intros acc Ha; simpl.
  - assumption.
  - apply IH. unfold has_length in *.
    rewrite NpFacts.length_zip_with; congruence.
Qed.

Lemma elementwise_product_length (n : nat) (msgs : list Np.ndarray) :
  Forall (has_length n) msgs ->
  List.length (elementwise_product n msgs) = n.
Proof.
  intros F. apply fold_zip_length; [assumption|].
  apply NpFacts.length_ones.
Qed.

Lemma fold_np_multiply (n : nat) (msgs : list Np.ndarray) (acc : Np.ndarray) :
  Forall (has_length n) msgs -> has_length n acc ->
  fold_left (fun acc y => let? a := acc in np_multiply a y)
            (map Float64 msgs) (Ok (Float64 acc))
  = Ok (Float64 (fold_left (Np.zip_with Np.mul) msgs acc)).
Proof.
  intros F. revert acc. induction F as [|x l Hx F IH]; intros acc Ha;
    cbn -[Np.mul].
  - reflexivity.
  - unfold has_length in *.
    rewrite multiply_same_length by congruence. cbn -[Np.mul].
    apply IH. unfold has_length.
    rewrite NpFacts.length_zip_with; congruence.
Qed.

(** [reduce(np.multiply, msgs)] on arrays of numbers of one length is their
    elementwise product, taken from left to right. *)
Lemma reduce_np_multiply (n : nat) (msgs : list Np.ndarray) :
  msgs <> [] -> Forall (has_length n) msgs ->
  reduce np_multiply (map Float64 msgs)
  = Ok (Float64 (elementwise_product n msgs)).
Proof.
  destruct msgs as [|x l]; [congruence|]. intros _ F.
  inversion F as [|? ? Hx F']; subst. cbn -[Np.mul].
  rewrite (fold_np_multiply n) by assumption.
  unfold elementwise_product. cbn -[Np.mul]. unfold has_length in Hx.
  now rewrite <- Hx, NpFacts.zip_with_mul_ones_l.
Qed.

Lemma fold_py_mul (xs : list Np.float64) (x : Np.float64) :
  fold_left (fun acc y => let? a := acc in py_mul a y)
            (map NpFloat64 xs) (Ok (NpFloat64 x))
  = Ok (NpFloat64 (fold_left Np.mul xs x)).
Proof.
  revert x. induction xs as [|y l IH]; intros x; cbn -[Np.mul].
  - reflexivity.
  - apply IH.
Qed.

(** [reduce(lambda x, y: x*y, xs)] on a list of numbers that is not empty,
    and [reduce(lambda x, y: x*y, xs, 1)]: the product from left to
    right. *)
Lemma reduce_mul_product (xs : list Np.float64) :
  xs <> [] -> reduce_mul (map NpFloat64 xs) = Ok (NpFloat64 (product xs)).
Proof.
  destruct xs as [|x l]; [congruence|]. intros _.
  unfold reduce_mul, product. cbn -[Np.mul Np.one].
  rewrite NpFacts.mul_one_l. apply fold_py_mul.
Qed.

Lemma reduce_mul_from_1_product (xs : list Np.float64) :
  reduce_mul_from_1 (map NpFloat64 xs) = Ok (NpFloat64 (product xs)).
Proof. apply fold_py_mul. Qed.

Lemma received_has_length (n : nat) (keys : list label) (d : mailbox) :
  wf_mailbox n keys d = true ->
  Forall (has_length n) (numbers (received (dict_values d))).
Proof. intros W. now apply (received_numbers n keys d). Qed.

(** ** The invariant of a node *)

Lemma node_ok_spec ok (self : Node) :
  node_ok ok self = true <->
  mailbox_ok (ok (cardinality self)) (parents self) (pi_received_msgs self)
  = true
  /\ mailbox_ok (ok (cardinality self)) (children self)
                (lambda_received_msgs self) = true
  /\ pi_agg_ok (cardinality self) (pi_agg self) = true
  /\ ok (cardinality self) (lambda_agg self) = true
  /\ (class_of self = BernoulliOrNodeClass -> cardinality self = 2)
  /\ (parents self = [] ->
      List.length (values (cpd self)) = cardinality self).
Proof.
  unfold node_ok. rewrite !andb_true_iff, orb_true_iff, negb_true_iff.
  rewrite Nat.eqb_eq.
  assert (C : match class_of self with
              | NodeClass => true
              | BernoulliOrNodeClass => Nat.eqb (cardinality self) 2
              end = true
              <-> (class_of self = BernoulliOrNodeClass ->
                   cardinality self = 2)).
  { destruct (class_of self).
    - split; [discriminate | reflexivity].
    - rewrite Nat.eqb_eq. tauto. }
  assert (P : is_empty (parents self) = false <-> parents self <> []).
  { destruct (parents self); simpl; split; congruence. }
  rewrite C, P.
  destruct (list_eq_dec string_dec (parents self) []); tauto.
Qed.

Lemma wf_node_spec (self : Node) :
  wf_node self = true <->
  wf_mailbox (cardinality self) (parents self) (pi_received_msgs self) = true
  /\ wf_mailbox (cardinality self) (children self)
                (lambda_received_msgs self) = true
  /\ pi_agg_ok (cardinality self) (pi_agg self) = true
  /\ slot_ok (cardinality self) (lambda_agg self) = true
  /\ (class_of self = BernoulliOrNodeClass -> cardinality self = 2)
  /\ (parents self = [] ->
      List.length (values (cpd self)) = cardinality self).
Proof. apply node_ok_spec. Qed.

(** A node that holds numbers of the right length holds arrays of the
    right shape. *)
Lemma wf_node_shapes (self : Node) :
  wf_node self = true -> wf_shapes self = true.
Proof.
  intros W. apply wf_node_spec in W as (WP & WL & AP & AL & C2 & CV).
  apply node_ok_spec. repeat split; try assumption.
  - eapply mailbox_ok_weaken; [apply slot_ok_shape_ok | exact WP].
  - eapply mailbox_ok_weaken; [apply slot_ok_shape_ok | exact WL].
  - now apply slot_ok_shape_ok.
Qed.

Lemma is_empty_true_iff {A} (xs : list A) : is_empty xs = true <-> xs = [].
Proof. destruct xs; simpl; split; congruence. Qed.

Lemma is_empty_false_iff {A} (xs : list A) : is_empty xs = false <-> xs <> [].
Proof. destruct xs; simpl; split; congruence. Qed.

Lemma wf_mailbox_nonempty (n : nat) (keys : list label) (d : mailbox) :
  wf_mailbox n keys d = true -> keys <> [] ->
  received (dict_values d) <> [] \/ existsb is_None (dict_values d) = true.
Proof. apply mailbox_ok_nonempty. Qed.

Lemma wf_mailbox_set (n : nat) (keys : list label) (d : mailbox) (k : label)
    (a : Np.ndarray) :
  wf_mailbox n keys d = true -> dict_mem d k = true -> List.length a = n ->
  wf_mailbox n keys (dict_set d k (Some (Float64 a))) = true.
Proof.
  intros W Hk Ha. apply mailbox_ok_set; try assumption.
  now apply slot_ok_Some.
Qed.

(** The constructors establish the invariant. *)
Lemma wf_Node_init (l : label) (cs ps : list label) (n : nat) (c : CPD) :
  (ps = [] -> List.length (values c) = n) ->
  wf_node (Node_init l cs ps n c) = true.
Proof.
  intros H. apply wf_node_spec. simpl.
  repeat split; try apply wf_mailbox_init; try assumption. discriminate.
Qed.

Lemma wf_BernoulliOrNode_init (l : label) (cs ps : list label) (c : CPD) :
  (ps = [] -> List.length (values c) = 2) ->
  wf_node (BernoulliOrNode_init l cs ps c) = true.
Proof.
  intros H. apply wf_node_spec. simpl.
  repeat split; try apply wf_mailbox_init; assumption.
Qed.

Lemma numbers_nonempty (msgs : list Np.ndarray) :
  map Float64 msgs <> [] -> msgs <> [].
Proof. destruct msgs; simpl; congruence. Qed.

Lemma compute_lambda_agg_wf (self : Node) :
  wf_node self = true -> children self <> [] ->
  compute_lambda_agg self =
  if existsb is_None (dict_values (lambda_received_msgs self))
  then (Raise (MissingMessage LAMBDA), self)
  else
    let v := Float64
               (elementwise_product (cardinality self)
                  (numbers
                     (received (dict_values (lambda_received_msgs self))))) in
    (Ok (Some v), set_lambda_agg (Some v) self).
Proof.
  intros W N. apply wf_node_spec in W as (_ & WL & _).
  rewrite compute_lambda_agg_eq, validate_eq.
  apply is_empty_false_iff in N. rewrite N. cbn zeta.
  destruct (existsb is_None _) eqn:E; [reflexivity|].
  destruct (received_numbers _ _ _ WL) as [R F].
  rewrite R at 1.
  rewrite (reduce_np_multiply (cardinality self)); [reflexivity | |assumption].
  apply numbers_nonempty. rewrite <- R.
  apply is_empty_false_iff in N.
  destruct (wf_mailbox_nonempty _ _ _ WL N); congruence.
Qed.

Lemma getitem0_has_length (n : nat) (msgs : list Np.ndarray) :
  0 < n -> Forall (has_length n) msgs ->
  list_comprehension (fun p => array_getitem p 0) (map Float64 msgs)
  = Ok (map NpFloat64 (map component0 msgs)).
Proof.
  intros Hn F. induction F as [|a l Ha F IH]; simpl; [reflexivity|].
  rewrite IH. destruct a as [|x a]; [unfold has_length in Ha; simpl in Ha; lia|].
  reflexivity.
Qed.

Lemma BernoulliOrNode_compute_pi_agg_wf (self : Node) :
  wf_node self = true -> class_of self = BernoulliOrNodeClass ->
  parents self <> [] ->
  compute_pi_agg self =
  if existsb is_None (dict_values (pi_received_msgs self))
  then (Raise (MissingMessage PI), self)
  else
    let p_0 :=
      product (map component0
                 (numbers (received (dict_values (pi_received_msgs self)))))
    in
    (Ok (Some [p_0; Np.sub Np.one p_0]),
     set_pi_agg (Some [p_0; Np.sub Np.one p_0]) self).
Proof.
  intros W C N. apply wf_node_spec in W as (WP & _ & _ & _ & W2 & _).
  specialize (W2 C). unfold compute_pi_agg. rewrite C.
  rewrite BernoulliOrNode_compute_pi_agg_eq, validate_eq.
  apply is_empty_false_iff in N. rewrite N. cbn zeta.
  destruct (existsb is_None _) eqn:E; [reflexivity|].
  destruct (received_numbers _ _ _ WP) as [R F].
  rewrite R at 1.
  rewrite (getitem0_has_length (cardinality self)); [|lia|assumption].
  rewrite reduce_mul_product; [reflexivity|].
  apply is_empty_false_iff in N.
  destruct (wf_mailbox_nonempty _ _ _ WP N) as [H|H]; [|congruence].
  rewrite R in H. destruct (numbers _); simpl in *; congruence.
Qed.







(** Every operation that hands over no array of strings keeps the
    invariant of a node that holds numbers. *)
Lemma wf_run (op : node_op) (self : Node) :
  numeric_op op = true ->
  wf_node self = true -> wf_node (snd (run op self)) = true.
Proof.
  intros Nop W. pose proof W as W0.
  apply wf_node_spec in W as (WP & WL & AP & AL & C2 & CV).
  destruct op as [k v | k v | | | k | k]; unfold run, bind, ret, query.
  - rewrite update_pi_msg_from_parent_eq.
    destruct (dict_mem _ _) eqn:Hk; [destruct v as [[a|a]| | |];
      [destruct (Nat.eqb _ _) eqn:Ha|discriminate| | |]|];
      simpl; try assumption.
    apply wf_node_spec. simpl. repeat split; try assumption.
    apply wf_mailbox_set; [assumption | assumption | now apply Nat.eqb_eq].
  - rewrite update_lambda_msg_from_child_eq.
    destruct (dict_mem _ _) eqn:Hk; [destruct v as [[a|a]| | |];
      [destruct (Nat.eqb _ _) eqn:Ha|discriminate| | |]|];
      simpl; try assumption.
    apply wf_node_spec. simpl. repeat split; try assumption.
    apply wf_mailbox_set; [assumption | assumption | now apply Nat.eqb_eq].
  - destruct (is_empty (children self)) eqn:Ec.
    + rewrite compute_lambda_agg_eq, Ec. simpl. assumption.
    + rewrite compute_lambda_agg_wf
        by (assumption || now apply is_empty_false_iff).
      destruct (existsb _ _); simpl; [assumption|].
      apply wf_node_spec. simpl. repeat split; try assumption.
      apply Nat.eqb_eq. apply elementwise_product_length.
      eapply received_has_length; eassumption.
  - destruct (class_of self) eqn:Ecl.
    + unfold compute_pi_agg. rewrite Ecl. simpl. assumption.
    + destruct (is_empty (parents self)) eqn:Ep.
      * unfold compute_pi_agg. rewrite Ecl.
        rewrite BernoulliOrNode_compute_pi_agg_eq, Ep. simpl.
        apply wf_node_spec. simpl.
        repeat split; try assumption; try (intros _; now apply C2).
        apply Nat.eqb_eq. apply CV. now apply is_empty_true_iff.
      * rewrite BernoulliOrNode_compute_pi_agg_wf
          by (assumption || now apply is_empty_false_iff).
        destruct (existsb _ _); simpl; [assumption|].
        apply wf_node_spec. simpl.
        repeat split; try assumption; try (intros _; now apply C2).
        now rewrite (C2 eq_refl).
  - destruct (compute_lambda_msg_to_parent self k); assumption.
  - destruct (compute_pi_msg_to_child self k); assumption.
Qed.

(** So do the boundary conditions. *)
Lemma wf_boundary (self : Node) :
  wf_node self = true -> wf_node (boundary self) = true.
Proof.
  intros W. apply wf_node_spec in W as (WP & WL & AP & AL & C2 & CV).
  apply wf_node_spec. unfold boundary.
  destruct (is_empty (parents self)) eqn:Ep,
           (is_empty (children self)) eqn:Ec; simpl;
    repeat split; try assumption;
    try (apply Nat.eqb_eq, NpFacts.length_ones);
    apply Nat.eqb_eq, CV; now apply is_empty_true_iff.
Qed.

Lemma wf_run_all (ops : list node_op) (self : Node) :
  forallb numeric_op ops = true ->
  wf_node self = true -> wf_node (run_all ops self) = true.
Proof.
  revert self. induction ops as [|op ops IH]; intros self Nops W; simpl.
  - assumption.
  - simpl in Nops. apply andb_true_iff in Nops as [Nop Nops].
    apply IH; [assumption|]. now apply wf_run.
Qed.

(** ** Message deposit *)

Lemma fst_bind_ret {S A B} (c : M S A) (f : A -> B) (s : S) (e : exn) :
  fst (bind c (fun x => ret (f x)) s) = Raise e <-> fst (c s) = Raise e.
Proof.
  unfold bind, ret. destruct (c s) as [[a|e'] s']; simpl; split; congruence.
Qed.

Lemma snd_bind_ret {S A B} (c : M S A) (f : A -> B) (s : S) :
  snd (bind c (fun x => ret (f x)) s) = snd (c s).
Proof. unfold bind, ret. now destruct (c s) as [[a|e'] s']. Qed.

(** An ndarray of shape [(n,)] has one dimension and [n] elements. *)
Lemma shape_one_dimension (v : pyobject) (n : nat) :
  is_ndarray v = true -> shape v = [n] ->
  exists a, v = PyNdarray a /\ size a = n.
Proof.
  destruct v as [a|[|d1 d2 more]| |]; simpl; try discriminate.
  intros _ E. exists a. split; [reflexivity | congruence].
Qed.

Lemma shape_mismatch (a : pyarray) (n : nat) :
  shape (PyNdarray a) <> [n] -> Nat.eqb (size a) n = false.
Proof.
  simpl. intros H. apply Nat.eqb_neq. congruence.
Qed.

(** C6, as the code has it.  A deposit under an id that is not a declared
    parent (child) raises [UnknownNeighbor]; under a declared id, a value
    that is not an ndarray raises [TypeMismatch], and an ndarray, of
    whatever dtype, whose shape is not [(cardinality,)] raises
    [ShapeMismatch]; in each case the node, and so the slot, is as before.
    An ndarray of shape [(cardinality,)] under a declared id has one
    dimension and is stored in the slot, whatever its dtype, replacing what
    was there; the other slots are untouched. *)
Theorem update_msg_validation (self : Node) (key : label) (v : pyobject) :
  wf_shapes self = true ->
  ((~ In key (parents self) ->
    update_pi_msg_from_parent key v self
    = (Raise (UnknownNeighbor key), self))
   /\ (In key (parents self) -> is_ndarray v = false ->
       update_pi_msg_from_parent key v self = (Raise TypeMismatch, self))
   /\ (In key (parents self) -> is_ndarray v = true ->
       shape v <> [cardinality self] ->
       update_pi_msg_from_parent key v self
       = (Raise (ShapeMismatch (cardinality self) (shape v)), self))
   /\ (In key (parents self) -> is_ndarray v = true ->
       shape v = [cardinality self] ->
       exists a,
         v = PyNdarray a
         /\ let self' :=
              set_pi_received_msgs
                (dict_set (pi_received_msgs self) key (Some a)) self in
            update_pi_msg_from_parent key v self = (Ok tt, self')
            /\ dict_get (pi_received_msgs self') key = Some (Some a)
            /\ forall k, k <> key ->
               dict_get (pi_received_msgs self') k
               = dict_get (pi_received_msgs self) k))
  /\
  ((~ In key (children self) ->
    update_lambda_msg_from_child key v self
    = (Raise (UnknownNeighbor key), self))
   /\ (In key (children self) -> is_ndarray v = false ->
       update_lambda_msg_from_child key v self = (Raise TypeMismatch, self))
   /\ (In key (children self) -> is_ndarray v = true ->
       shape v <> [cardinality self] ->
       update_lambda_msg_from_child key v self
       = (Raise (ShapeMismatch (cardinality self) (shape v)), self))
   /\ (In key (children self) -> is_ndarray v = true ->
       shape v = [cardinality self] ->
       exists a,
         v = PyNdarray a
         /\ let self' :=
              set_lambda_received_msgs
                (dict_set (lambda_received_msgs self) key (Some a)) self in
            update_lambda_msg_from_child key v self = (Ok tt, self')
            /\ dict_get (lambda_received_msgs self') key = Some (Some a)
            /\ forall k, k <> key ->
               dict_get (lambda_received_msgs self') k
               = dict_get (lambda_received_msgs self) k)).
Proof.
  intros W. apply node_ok_spec in W as (WP & WL & _).
  split.
  - rewrite update_pi_msg_from_parent_eq.
    pose proof (mailbox_ok_In _ _ _ key WP) as K.
    rewrite <- dict_mem_In in K.
    split; [|split; [|split]].
    + intros N. destruct (dict_mem _ _); [tauto | reflexivity].
    + intros I T. apply K in I. rewrite I. now destruct v.
    + intros I T S. apply K in I. rewrite I.
      destruct v as [a| | |]; try discriminate; [|reflexivity].
      now rewrite (shape_mismatch _ _ S).
    + intros I T S. apply K in I. rewrite I.
      destruct (shape_one_dimension v _ T S) as (a & -> & Ha).
      exists a. split; [reflexivity|]. cbn zeta.
      apply Nat.eqb_eq in Ha. rewrite Ha. split; [reflexivity|]. split.
      * simpl. apply dict_get_set_same.
      * intros k Hk. simpl. now apply dict_get_set_other.
  - rewrite update_lambda_msg_from_child_eq.
    pose proof (mailbox_ok_In _ _ _ key WL) as K.
    rewrite <- dict_mem_In in K.
    split; [|split; [|split]].
    + intros N. destruct (dict_mem _ _); [tauto | reflexivity].
    + intros I T. apply K in I. rewrite I. now destruct v.
    + intros I T S. apply K in I. rewrite I.
      destruct v as [a| | |]; try discriminate; [|reflexivity].
      now rewrite (shape_mismatch _ _ S).
    + intros I T S. apply K in I. rewrite I.
      destruct (shape_one_dimension v _ T S) as (a & -> & Ha).
      exists a. split; [reflexivity|]. cbn zeta.
      apply Nat.eqb_eq in Ha. rewrite Ha. split; [reflexivity|]. split.
      * simpl. apply dict_get_set_same.
      * intros k Hk. simpl. now apply dict_get_set_other.
Qed.

(** An array of three numbers for a cardinality-2 node is refused and the
    message held for [a] stays. *)
Lemma update_msg_validation_witness :
  wf_shapes Fixtures.scenario_B = true
  /\ update_pi_msg_from_parent "a"%string
       (Fixtures.vector [Np.one; Np.one; Np.one]) Fixtures.scenario_B
     = (Raise (ShapeMismatch 2 [3]), Fixtures.scenario_B).
Proof.
  split; [reflexivity|].
  destruct (update_msg_validation Fixtures.scenario_B "a"%string
              (Fixtures.vector [Np.one; Np.one; Np.one]) eq_refl)
    as [(_ & _ & H & _) _].
  apply H.
  - left. reflexivity.
  - reflexivity.
  - discriminate.
Defined.

(** C6, as stated, fails: an array of two strings is not a numeric vector,
    yet a node of cardinality 2 accepts it from its declared parent [p] and
    stores it; no [TypeMismatch] is raised.  And an array of numbers that is
    not a vector, the matrix of shape (2, 1), is refused with
    [ShapeMismatch], not with [TypeMismatch]. *)
Lemma update_msg_validation_counterexample :
  cardinality Fixtures.between = 2
  /\ In "p"%string (parents Fixtures.between)
  /\ Fixtures.two_strings = PyNdarray (Unicode ["a"; "b"]%string)
  /\ fst (update_pi_msg_from_parent "p" Fixtures.two_strings
            Fixtures.between) = Ok tt
  /\ dict_get (pi_received_msgs
                 (snd (update_pi_msg_from_parent "p" Fixtures.two_strings
                         Fixtures.between))) "p"
     = Some (Some (Unicode ["a"; "b"]%string))
  /\ fst (update_pi_msg_from_parent "p" Fixtures.two_strings
            Fixtures.between) <> Raise TypeMismatch
  /\ Fixtures.column = PyNdarrayNd (DimN 2 1 [])
  /\ fst (update_pi_msg_from_parent "p" Fixtures.column Fixtures.between)
     = Raise (ShapeMismatch 2 [2; 1]).
Proof.
  split; [reflexivity|]. split; [left; reflexivity|].
  split; [reflexivity|]. split; [reflexivity|]. split; [reflexivity|].
  split; [|split; reflexivity].
  intros H. vm_compute in H. discriminate.
Qed.

(** C10, as the code has it.  The tests of a deposit run in the order key,
    type, shape: under an id that is not declared the error is
    [UnknownNeighbor] whatever the value is; under a declared id a value that
    is not an ndarray gives [TypeMismatch], whatever its length; and an
    ndarray whose shape is not [(cardinality,)] gives [ShapeMismatch],
    whatever its dtype. *)
Theorem update_msg_validation_order (self : Node) (key : label)
    (v : pyobject) :
  wf_shapes self = true ->
  (~ In key (parents self) ->
   fst (update_pi_msg_from_parent key v self) = Raise (UnknownNeighbor key))
  /\ (~ In key (children self) ->
      fst (update_lambda_msg_from_child key v self)
      = Raise (UnknownNeighbor key))
  /\ (In key (parents self) -> is_ndarray v = false ->
      fst (update_pi_msg_from_parent key v self) = Raise TypeMismatch)
  /\ (In key (children self) -> is_ndarray v = false ->
      fst (update_lambda_msg_from_child key v self) = Raise TypeMismatch)
  /\ (In key (parents self) -> is_ndarray v = true ->
      shape v <> [cardinality self] ->
      fst (update_pi_msg_from_parent key v self)
      = Raise (ShapeMismatch (cardinality self) (shape v)))
  /\ (In key (children self) -> is_ndarray v = true ->
      shape v <> [cardinality self] ->
      fst (update_lambda_msg_from_child key v self)
      = Raise (ShapeMismatch (cardinality self) (shape v))).
Proof.
  intros W. apply node_ok_spec in W as (WP & WL & _).
  pose proof (mailbox_ok_In _ _ _ key WP) as KP.
  pose proof (mailbox_ok_In _ _ _ key WL) as KL.
  rewrite <- dict_mem_In in KP, KL.
  rewrite update_pi_msg_from_parent_eq, update_lambda_msg_from_child_eq.
  repeat split.
  - intros N. destruct (dict_mem (pi_received_msgs self) key);
      [tauto | reflexivity].
  - intros N. destruct (dict_mem (lambda_received_msgs self) key);
      [tauto | reflexivity].
  - intros I T. apply KP in I. rewrite I. now destruct v.
  - intros I T. apply KL in I. rewrite I. now destruct v.
  - intros I T S. apply KP in I. rewrite I.
    destruct v as [a| | |]; try discriminate; [|reflexivity].
    now rewrite (shape_mismatch _ _ S).
  - intros I T S. apply KL in I. rewrite I.
    destruct v as [a| | |]; try discriminate; [|reflexivity].
    now rewrite (shape_mismatch _ _ S).
Qed.

(** A list of three numbers handed to a cardinality-2 node under the declared
    parent [a] is a type error, not a shape error. *)
Lemma update_msg_validation_order_witness :
  wf_shapes Fixtures.two_parents = true
  /\ In "a"%string (parents Fixtures.two_parents)
  /\ fst (update_pi_msg_from_parent "a"%string
            (PyList [Np.one; Np.one; Np.one]) Fixtures.two_parents)
     = Raise TypeMismatch.
Proof.
  split; [reflexivity|].
  split; [left; reflexivity|].
  destruct (update_msg_validation_order Fixtures.two_parents "a"%string
              (PyList [Np.one; Np.one; Np.one]) eq_refl)
    as (_ & _ & H & _).
  apply H; [left|]; reflexivity.
Defined.

(** C10, as stated, fails: an array of three strings is not a numeric
    array and its length differs from the cardinality 2, yet under the
    declared child [c] it raises [ShapeMismatch], not [TypeMismatch]. *)
Lemma update_msg_validation_order_counterexample :
  cardinality Fixtures.between = 2
  /\ In "c"%string (children Fixtures.between)
  /\ Fixtures.three_strings = PyNdarray (Unicode ["a"; "b"; "c"]%string)
  /\ fst (update_lambda_msg_from_child "c" Fixtures.three_strings
            Fixtures.between)
     = Raise (ShapeMismatch 2 [3])
  /\ fst (update_lambda_msg_from_child "c" Fixtures.three_strings
            Fixtures.between)
     <> Raise TypeMismatch.
Proof.
  split; [reflexivity|]. split; [left; reflexivity|].
  split; [reflexivity|]. split; [reflexivity|].
  intros H. vm_compute in H. discriminate.
Qed.

(** C9.  An operation that raises leaves the node as it was: the mailboxes,
    [pi_agg] and [lambda_agg] are those of before.  This holds of a deposit,
    of [compute_lambda_agg], of [compute_pi_agg] and of
    [compute_lambda_msg_to_parent], and for every exception. *)
Theorem failed_operation_keeps_state (self : Node) (e : exn) :
  (forall k v,
      fst (update_pi_msg_from_parent k v self) = Raise e ->
      snd (update_pi_msg_from_parent k v self) = self)
  /\ (forall k v,
         fst (update_lambda_msg_from_child k v self) = Raise e ->
         snd (update_lambda_msg_from_child k v self) = self)
  /\ (fst (compute_lambda_agg self) = Raise e ->
      snd (compute_lambda_agg self) = self)
  /\ (fst (compute_pi_agg self) = Raise e ->
      snd (compute_pi_agg self) = self)
  /\ (forall k,
         fst (run (OpComputeLambdaMsgToParent k) self) = Raise e ->
         snd (run (OpComputeLambdaMsgToParent k) self) = self).
Proof.
  repeat split.
  - intros k v H.
    rewrite <- (snd_bind_ret _ (fun _ => RNone)).
    apply (run_raise_unchanged (OpUpdatePiMsgFromParent k v) self e).
    now apply (fst_bind_ret _ (fun _ => RNone)).
  - intros k v H.
    rewrite <- (snd_bind_ret _ (fun _ => RNone)).
    apply (run_raise_unchanged (OpUpdateLambdaMsgFromChild k v) self e).
    now apply (fst_bind_ret _ (fun _ => RNone)).
  - intros H. rewrite <- (snd_bind_ret _ RArray).
    apply (run_raise_unchanged OpComputeLambdaAgg self e).
    now apply (fst_bind_ret _ RArray).
  - intros H.
    rewrite <- (snd_bind_ret _ (fun a => RArray (option_map Float64 a))).
    apply (run_raise_unchanged OpComputePiAgg self e).
    now apply (fst_bind_ret _ (fun a => RArray (option_map Float64 a))).
  - intros k. apply run_raise_unchanged.
Qed.

(** With one parent message missing, [compute_pi_agg] raises and the node
    is the one before the call. *)
Lemma failed_operation_keeps_state_witness :
  fst (compute_pi_agg Fixtures.two_parents) = Raise (MissingMessage PI)
  /\ snd (compute_pi_agg Fixtures.two_parents) = Fixtures.two_parents.
Proof.
  split; [reflexivity|].
  destruct (failed_operation_keeps_state Fixtures.two_parents
              (MissingMessage PI)) as (_ & _ & _ & H & _).
  apply H. reflexivity.
Defined.

(** ** The lambda message of a Bernoulli-OR node to a parent *)

(** C4.  When [lambda_agg] is the all-ones vector the message to any parent
    is the all-ones vector, whatever the mailbox of pi messages holds: the
    mailbox can be replaced by any other, slots unset included. *)
Theorem lambda_msg_fast_path (self : Node) (parent_k : label) :
  class_of self = BernoulliOrNodeClass ->
  lambda_agg self = Some (Float64 (Np.ones (cardinality self))) ->
  compute_lambda_msg_to_parent self parent_k = Ok (Np.ones (cardinality self))
  /\ forall d : mailbox,
      compute_lambda_msg_to_parent (set_pi_received_msgs d self) parent_k
      = Ok (Np.ones (cardinality self)).
Proof.
  intros C L.
  assert (E : Np.array_equal (Np.ones (cardinality self))
                             (Np.ones (cardinality self)) = true)
    by now apply NpFacts.array_equal_ones_iff.
  split; [|intros d];
    unfold compute_lambda_msg_to_parent,
      BernoulliOrNode_compute_lambda_msg_to_parent; simpl;
    rewrite C, L; simpl; now rewrite E.
Qed.

(** Scenario C: a leaf with [lambda_agg = [1, 1]] and no pi message
    received answers [[1, 1]]. *)
Lemma lambda_msg_fast_path_witness :
  lambda_agg Fixtures.scenario_C = Some (Float64 (Np.ones 2))
  /\ dict_get (pi_received_msgs Fixtures.scenario_C) "a"%string = Some None
  /\ compute_lambda_msg_to_parent Fixtures.scenario_C "a"%string = Ok (Np.ones 2).
Proof.
  split; [reflexivity|]. split; [reflexivity|].
  apply (lambda_msg_fast_path Fixtures.scenario_C "a"%string); reflexivity.
Defined.

(** ** Aggregation of the lambda messages *)

Lemma same_slots_permutation (d1 d2 : mailbox) :
  NoDup (dict_keys d1) -> NoDup (dict_keys d2) ->
  (forall k, dict_get d1 k = dict_get d2 k) ->
  Permutation d1 d2.
Proof.
  intros N1 N2 G. apply NoDup_Permutation.
  - eapply NoDup_map_inv. exact N1.
  - eapply NoDup_map_inv. exact N2.
  - intros [k v]. split; intros H.
    + apply dict_get_Some_In. rewrite <- G. now apply In_dict_get.
    + apply dict_get_Some_In. rewrite G. now apply In_dict_get.
Qed.

Lemma existsb_permutation {A} (f : A -> bool) (l l' : list A) :
  Permutation l l' -> existsb f l = existsb f l'.
Proof.
  intros P. destruct (existsb f l') eqn:E.
  - apply existsb_exists in E as (x & Hx & Fx). apply existsb_exists.
    exists x. split; [|assumption].
    eapply Permutation_in; [apply Permutation_sym|]; eassumption.
  - destruct (existsb f l) eqn:E'; [|reflexivity].
    apply existsb_exists in E' as (x & Hx & Fx).
    assert (existsb f l' = true).
    { apply existsb_exists. exists x. split; [|assumption].
      eapply Permutation_in; eassumption. }
    congruence.
Qed.

Lemma received_permutation {A} (l l' : list (option A)) :
  Permutation l l' -> Permutation (received l) (received l').
Proof. apply Permutation_flat_map. Qed.

Lemma numbers_permutation (l l' : list pyarray) :
  Permutation l l' -> Permutation (numbers l) (numbers l').
Proof. apply Permutation_flat_map. Qed.

Lemma length_received {A} (l : list (option A)) :
  List.length (received l) <= List.length l.
Proof.
  induction l as [|[a|] l IH]; simpl; lia.
Qed.

Lemma length_numbers (l : list pyarray) :
  List.length (numbers l) <= List.length l.
Proof.
  induction l as [|[a|a] l IH]; simpl; lia.
Qed.

(** Two factors can be exchanged: the product of two floats does not depend
    on their order. *)
Lemma zip_with_mul_ones_swap (n : nat) (x y : Np.ndarray) :
  Np.zip_with Np.mul (Np.zip_with Np.mul (Np.ones n) x) y
  = Np.zip_with Np.mul (Np.zip_with Np.mul (Np.ones n) y) x.
Proof.
  revert x y. unfold Np.ones.
  induction n as [|n IH]; intros [|a x] [|b y]; cbn -[Np.mul Np.one];
    try reflexivity.
  rewrite !NpFacts.mul_one_l, (NpFacts.mul_comm a b). f_equal. apply IH.
Qed.

Lemma elementwise_product_permutation_2 (n : nat)
    (msgs msgs' : list Np.ndarray) :
  Permutation msgs msgs' -> List.length msgs <= 2 ->
  elementwise_product n msgs = elementwise_product n msgs'.
Proof.
  intros P L. destruct msgs as [|a [|b [|c l]]].
  - apply Permutation_nil in P. now subst.
  - apply Permutation_length_1_inv in P. now subst.
  - apply Permutation_length_2_inv in P as [-> | ->]; [reflexivity|].
    unfold elementwise_product. cbn -[Np.mul].
    apply zip_with_mul_ones_swap.
  - simpl in L. lia.
Qed.

(** C5, as the code has it.  A node with no children gets its current
    [lambda_agg] back and is not changed.  A node with children raises
    [MissingMessage] exactly when the slot of some child is unset; when
    every child has sent a message, the elementwise product of the messages,
    multiplied from left to right in the order of the mailbox, is stored in
    [lambda_agg] and returned.  Two nodes with the same one or two children,
    in whatever order, which hold the same message for each child, compute
    the same result. *)
Theorem compute_lambda_agg_spec :
  (forall self, children self = [] ->
                compute_lambda_agg self = (Ok (lambda_agg self), self))
  /\ (forall self,
         wf_node self = true -> children self <> [] ->
         (some_unset (lambda_received_msgs self) (children self) <->
          fst (compute_lambda_agg self) = Raise (MissingMessage LAMBDA))
         /\ (all_received (lambda_received_msgs self) (children self) ->
             let v :=
               Float64
                 (elementwise_product (cardinality self)
                    (map (msg_of (lambda_received_msgs self))
                         (neighbours (children self)))) in
             compute_lambda_agg self
             = (Ok (Some v), set_lambda_agg (Some v) self)))
  /\ (forall self1 self2,
         wf_node self1 = true -> wf_node self2 = true ->
         children self1 <> [] ->
         cardinality self1 = cardinality self2 ->
         Permutation (children self1) (children self2) ->
         List.length (neighbours (children self1)) <= 2 ->
         (forall c, dict_get (lambda_received_msgs self1) c
                    = dict_get (lambda_received_msgs self2) c) ->
         fst (compute_lambda_agg self1) = fst (compute_lambda_agg self2)).
Proof.
  split; [|split].
  - intros self E. now rewrite compute_lambda_agg_eq, E.
  - intros self W N. rewrite (compute_lambda_agg_wf self W N).
    apply wf_node_spec in W as (_ & WL & _).
    pose proof (wf_mailbox_NoDup _ _ _ WL) as ND.
    split.
    + rewrite (some_unset_iff _ _ _ WL).
      destruct (existsb is_None _); simpl; split; congruence.
    + intros A. apply (all_received_iff _ _ _ WL) in A. rewrite A.
      pose proof WL as WL'. apply wf_mailbox_spec in WL' as [K S].
      rewrite (received_by_keys _ _ ND S A), numbers_map_Float64.
      rewrite K. reflexivity.
  - intros self1 self2 W1 W2 N1 C P L2 G.
    assert (N2 : children self2 <> []).
    { intros E. rewrite E in P. apply Permutation_sym in P.
      now apply Permutation_nil in P. }
    rewrite (compute_lambda_agg_wf self1 W1 N1).
    rewrite (compute_lambda_agg_wf self2 W2 N2).
    apply wf_node_spec in W1 as (_ & WL1 & _).
    apply wf_node_spec in W2 as (_ & WL2 & _).
    assert (PV : Permutation (dict_values (lambda_received_msgs self1))
                             (dict_values (lambda_received_msgs self2))).
    { apply Permutation_map. apply same_slots_permutation; try assumption.
      - eapply wf_mailbox_NoDup; eassumption.
      - eapply wf_mailbox_NoDup; eassumption. }
    rewrite (existsb_permutation _ _ _ PV).
    destruct (existsb is_None _); [reflexivity|]. simpl.
    rewrite C.
    rewrite (elementwise_product_permutation_2 _ _ _
               (numbers_permutation _ _ (received_permutation _ _ PV)));
      [reflexivity|].
    apply wf_mailbox_spec in WL1 as [K1 _].
    pose proof (length_numbers
                  (received (dict_values (lambda_received_msgs self1)))).
    pose proof (length_received (dict_values (lambda_received_msgs self1))).
    assert (List.length (dict_values (lambda_received_msgs self1))
            = List.length (neighbours (children self1))).
    { rewrite <- K1. unfold dict_values, dict_keys. now rewrite !length_map. }
    lia.
Qed.

(** The children [c1], [c2] and [c3] have sent [[0.1, 0.5]], [[0.2, 0.25]]
    and [[0.3, 0]]: the aggregate is the product from left to right. *)
Lemma compute_lambda_agg_spec_witness :
  wf_node Fixtures.three_children = true
  /\ dict_keys (lambda_received_msgs Fixtures.three_children)
     = ["c1"; "c2"; "c3"]%string
  /\ fst (compute_lambda_agg Fixtures.three_children)
     = Ok (Some (Float64 [Np.mul (Np.mul 0.1 0.2) 0.3;
                          Np.mul (Np.mul 0.5 0.25) 0]%float)).
Proof.
  split; [reflexivity|]. split; [reflexivity|].
  destruct compute_lambda_agg_spec as (_ & H & _).
  destruct (H Fixtures.three_children eq_refl) as [_ H2]; [discriminate|].
  rewrite H2.
  - reflexivity.
  - intros k [<- | [<- | [<- | []]]]; eexists; reflexivity.
Defined.

(** C5, as stated, fails: the result depends on the order of three
    children.  The children [c1, c2, c3] and [c3, c1, c2] have sent the same
    three messages, and the aggregates differ in component 0, which is
    [(0.1 * 0.2) * 0.3] for the one and [(0.3 * 0.1) * 0.2] for the
    other. *)
Lemma compute_lambda_agg_counterexample :
  children Fixtures.three_children = ["c1"; "c2"; "c3"]%string
  /\ children Fixtures.three_children_permuted = ["c3"; "c1"; "c2"]%string
  /\ lambda_received_msgs Fixtures.three_children
     = [("c1", Some (Float64 [0.1; 0.5]));
        ("c2", Some (Float64 [0.2; 0.25]));
        ("c3", Some (Float64 [0.3; 0]))]%string%float
  /\ lambda_received_msgs Fixtures.three_children_permuted
     = [("c3", Some (Float64 [0.3; 0]));
        ("c1", Some (Float64 [0.1; 0.5]));
        ("c2", Some (Float64 [0.2; 0.25]))]%string%float
  /\ fst (compute_lambda_agg Fixtures.three_children)
     = Ok (Some (Float64 [0.006000000000000001; 0]%float))
  /\ fst (compute_lambda_agg Fixtures.three_children_permuted)
     = Ok (Some (Float64 [0.006; 0]%float))
  /\ fst (compute_lambda_agg Fixtures.three_children)
     <> fst (compute_lambda_agg Fixtures.three_children_permuted).
Proof.
  repeat (split; [reflexivity|]).
  intros H. vm_compute in H. discriminate.
Qed.

(** ** The Bernoulli-OR node *)

Lemma msg_of_length (n : nat) (keys : list label) (d : mailbox) (k : label) :
  wf_mailbox n keys d = true ->
  existsb is_None (dict_values d) = false ->
  In k (dict_keys d) -> List.length (msg_of d k) = n.
Proof.
  intros W E Hk. destruct (In_keys_dict_get _ _ Hk) as ([m|] & G).
  - destruct (wf_mailbox_float _ _ _ _ _ W G) as (a & -> & L).
    unfold msg_of. now rewrite G.
  - exfalso. assert (X : existsb is_None (dict_values d) = true).
    { apply (unset_slot_iff d (wf_mailbox_NoDup _ _ _ W)). eauto. }
    congruence.
Qed.

Lemma p0_excluding_by_keys (msg : label -> Np.ndarray) (ks : list label)
    (parent_k : label) :
  (forall k, In k ks -> 0 < List.length (msg k)) ->
  p0_excluding (map (fun k => (k, Some (Float64 (msg k)))) ks) parent_k
  = Ok (map NpFloat64
          (map (fun k => component0 (msg k))
               (filter (fun k => negb (String.eqb k parent_k)) ks))).
Proof.
  unfold p0_excluding. induction ks as [|k ks IH]; intros L; simpl.
  - reflexivity.
  - destruct (String.eqb k parent_k); simpl.
    + apply IH. intros k' Hk'. apply L. now right.
    + rewrite IH by (intros k' Hk'; apply L; now right).
      assert (Lk : 0 < List.length (msg k)) by (apply L; now left).
      destruct (msg k) as [|x a]; [simpl in Lk; lia | reflexivity].
Qed.

Lemma p0_excluding_wf (n : nat) (keys : list label) (d : mailbox)
    (parent_k : label) :
  wf_mailbox n keys d = true -> 0 < n ->
  existsb is_None (dict_values d) = false ->
  p0_excluding d parent_k
  = Ok (map NpFloat64
          (map (fun k => component0 (msg_of d k))
               (filter (fun k => negb (String.eqb k parent_k))
                       (neighbours keys)))).
Proof.
  intros W Hn E. pose proof (wf_mailbox_NoDup _ _ _ W) as ND.
  pose proof W as W'. apply wf_mailbox_spec in W' as [K S].
  rewrite (mailbox_by_keys n d ND S E) at 1.
  rewrite p0_excluding_by_keys.
  - rewrite K. reflexivity.
  - intros k Hk. rewrite (msg_of_length _ _ _ _ W E Hk). assumption.
Qed.


(** C2.  [compute_pi_agg] of a Bernoulli-OR node without parents stores and
    returns the table of its CPD.  With parents it raises [MissingMessage]
    unless every parent has a pi message in the mailbox, and otherwise stores
    and returns [[p0, 1 - p0]], where [p0] is the product over the parents of
    component 0 of the message of each. *)
Theorem compute_pi_agg_bernoulli_or (self : Node) :
  wf_node self = true -> class_of self = BernoulliOrNodeClass ->
  (parents self = [] ->
   compute_pi_agg self
   = (Ok (Some (values (cpd self))),
      set_pi_agg (Some (values (cpd self))) self))
  /\ (parents self <> [] ->
      (~ all_received (pi_received_msgs self) (parents self) ->
       compute_pi_agg self = (Raise (MissingMessage PI), self))
      /\ (all_received (pi_received_msgs self) (parents self) ->
          let p0 :=
            product (map (fun k => component0
                                     (msg_of (pi_received_msgs self) k))
                         (neighbours (parents self))) in
          let v := [p0; Np.sub Np.one p0] in
          compute_pi_agg self = (Ok (Some v), set_pi_agg (Some v) self)
          /\ pi_agg (snd (compute_pi_agg self)) = Some v)).
Proof.
  intros W C. split.
  - intros E. unfold compute_pi_agg.
    now rewrite C, BernoulliOrNode_compute_pi_agg_eq, E.
  - intros N. rewrite (BernoulliOrNode_compute_pi_agg_wf self W C N).
    apply wf_node_spec in W as (WP & _).
    pose proof (wf_mailbox_NoDup _ _ _ WP) as ND.
    split.
    + intros A. apply (not_all_received_iff _ _ _ WP) in A.
      apply (some_unset_iff _ _ _ WP) in A. now rewrite A.
    + intros A. apply (all_received_iff _ _ _ WP) in A. rewrite A.
      pose proof WP as WP'. apply wf_mailbox_spec in WP' as [K S].
      rewrite (received_by_keys _ _ ND S A), numbers_map_Float64, map_map.
      rewrite K. cbn zeta. split; reflexivity.
Qed.

(** Scenario B: the parents report [[0.4, 0.6]] and [[0.5, 0.5]], and
    [pi_agg] becomes [[0.2, 0.8]]. *)
Lemma compute_pi_agg_bernoulli_or_witness :
  wf_node Fixtures.scenario_B = true
  /\ class_of Fixtures.scenario_B = BernoulliOrNodeClass
  /\ msg_of (pi_received_msgs Fixtures.scenario_B) "a" = [0.4; 0.6]%float
  /\ msg_of (pi_received_msgs Fixtures.scenario_B) "b" = [0.5; 0.5]%float
  /\ pi_agg (snd (compute_pi_agg Fixtures.scenario_B))
     = Some [0.2; 0.8]%float.
Proof.
  split; [reflexivity|]. split; [reflexivity|].
  split; [reflexivity|]. split; [reflexivity|].
  destruct (compute_pi_agg_bernoulli_or Fixtures.scenario_B
              eq_refl eq_refl) as (_ & H).
  destruct H as (_ & H); [discriminate|].
  destruct H as (_ & ->).
  - intros k [<- | [<- | []]]; eexists; reflexivity.
  - reflexivity.
Defined.

Lemma compute_lambda_msg_to_parent_wf (self : Node) (parent_k : label)
    (la : Np.ndarray) :
  wf_node self = true -> class_of self = BernoulliOrNodeClass ->
  lambda_agg self = Some (Float64 la) -> la <> Np.ones (cardinality self) ->
  compute_lambda_msg_to_parent self parent_k =
  if existsb is_None (dict_values (pi_received_msgs self))
  then Raise (MissingMessage PI)
  else
    let p0_product :=
      product (map (fun k => component0 (msg_of (pi_received_msgs self) k))
                   (filter (fun k => negb (String.eqb k parent_k))
                           (neighbours (parents self)))) in
    let lambda_1 := nth 1 la Np.NaN in
    let lambda_0 :=
      Np.add (nth 1 la Np.NaN)
             (Np.mul (Np.sub (nth 0 la Np.NaN) (nth 1 la Np.NaN))
                     p0_product) in
    if negb (Np.truthy lambda_0 || Np.truthy lambda_1)
    then Raise InvalidLambdaMsgToParent
    else Ok (_normalize [lambda_0; lambda_1]).
Proof.
  intros W C L N. apply wf_node_spec in W as (WP & _ & _ & AL & W2 & _).
  specialize (W2 C). rewrite L in AL. apply slot_ok_Some in AL.
  unfold compute_lambda_msg_to_parent,
    BernoulliOrNode_compute_lambda_msg_to_parent.
  rewrite C, L. cbn [array_equal_opt].
  destruct (Np.array_equal la (Np.ones (cardinality self))) eqn:E.
  { apply NpFacts.array_equal_ones_iff in E. contradiction. }
  rewrite validate_eq. cbn zeta.
  destruct (existsb is_None _) eqn:V; [reflexivity|].
  cbn [rbind].
  rewrite (p0_excluding_wf _ _ _ parent_k WP) by (assumption || lia).
  cbn [rbind]. rewrite reduce_mul_from_1_product. cbn [rbind].
  rewrite W2 in AL.
  destruct la as [|x [|y [|z la]]]; try discriminate AL.
  cbn [getitem_opt array_getitem getitem nth_error rbind lambda_0_of
       builtin_any existsb nth].
  rewrite orb_false_r. reflexivity.
Qed.



(** ** The belief of a node *)







(** ** The pi message to a child *)









(** ** The graph of a model *)

Lemma edge_eqb_eq (e1 e2 : edge) : edge_eqb e1 e2 = true <-> e1 = e2.
Proof.
  destruct e1 as [a b], e2 as [c d]. unfold edge_eqb. simpl.
  rewrite andb_true_iff, !String.eqb_eq. split.
  - intros [-> ->]. reflexivity.
  - intros [= -> ->]. split; reflexivity.
Qed.

Section SetFacts.
Context {A : Type} (eqb : A -> A -> bool).
Hypothesis eqb_eq : forall x y, eqb x y = true <-> x = y.

Lemma set_add_In (s : list A) (x y : A) :
  In y (set_add eqb s x) <-> In y s \/ y = x.
Proof.
  unfold set_add. destruct (existsb (eqb x) s) eqn:E.
  - apply existsb_exists in E as (z & Hz & Ez). apply eqb_eq in Ez. subst z.
    split; [tauto|]. intros [H | ->]; assumption.
  - rewrite in_app_iff. simpl. split; intros [H | H]; auto;
      try (destruct H as [<- | []]; now right).
Qed.

Lemma set_update_In (xs s : list A) (y : A) :
  In y (set_update eqb s xs) <-> In y s \/ In y xs.
Proof.
  unfold set_update. revert s. induction xs as [|x xs IH]; intros s; simpl.
  - tauto.
  - rewrite IH, set_add_In. split.
    + intros [[H | ->] | H]; auto.
    + intros [H | [<- | H]]; auto.
Qed.
End SetFacts.

Lemma In_combine_repeat (ps : list label) (l p c : label) :
  In (p, c) (combine ps (repeat l (List.length ps))) <-> In p ps /\ c = l.
Proof.
  induction ps as [|x ps IH]; simpl.
  - tauto.
  - rewrite IH. split.
    + intros [[= -> ->] | [H ->]]; auto.
    + intros [[-> | H] ->]; auto.
Qed.

(** The edges of a model: [(p, c)] for every node [c] and parent [p] of
    it. *)
Lemma _get_edges_from_nodes_In (nodes : list Node) (p c : label) :
  In (p, c) (_get_edges_from_nodes nodes) <->
  exists node, In node nodes /\ label_id node = c /\ In p (parents node).
Proof.
  unfold _get_edges_from_nodes.
  assert (G : forall acc,
             In (p, c)
                (fold_left
                   (fun edges node =>
                      if negb (is_empty (parents node)) then
                        set_update edge_eqb edges
                          (combine (parents node)
                             (repeat (label_id node)
                                     (List.length (parents node))))
                      else edges) nodes acc)
             <-> In (p, c) acc
                 \/ exists node, In node nodes /\ label_id node = c
                                 /\ In p (parents node)).
  { induction nodes as [|n nodes IH]; intros acc; simpl.
    - split; [tauto|]. intros [H | (node & [] & _)]. assumption.
    - rewrite IH. destruct (parents n) as [|p0 ps] eqn:Ep; cbn [is_empty negb].
      + split.
        * intros [H | (node & Hn & Hl & Hp)]; [tauto|]. right. eauto.
        * intros [H | (node & [<- | Hn] & Hl & Hp)]; [tauto | |].
          -- rewrite Ep in Hp. destruct Hp.
          -- right. eauto.
      + rewrite (set_update_In edge_eqb edge_eqb_eq).
        rewrite <- Ep. rewrite (In_combine_repeat (parents n) (label_id n) p c). split.
        * intros [[H | [Hp ->]] | (node & Hn & Hl & Hp)]; [tauto | |].
          -- right. exists n. auto.
          -- right. exists node. auto.
        * intros [H | (node & [<- | Hn] & Hl & Hp)]; [tauto | |].
          -- left. right. auto.
          -- right. eauto. }
  rewrite G. simpl. tauto.
Qed.

Lemma graph_vertices_In (self : BeliefUpdateNodeModel) (v : label) :
  In v (graph_vertices self) <->
  (exists e, In e (graph_edges self) /\ (v = fst e \/ v = snd e))
  \/ In v (graph_variables self).
Proof.
  unfold graph_vertices.
  rewrite !(set_update_In String.eqb String.eqb_eq), in_flat_map. simpl.
  split.
  - intros [[[] | (e & He & [<- | [<- | []]])] | H]; eauto.
  - intros [(e & He & [-> | ->]) | H]; [left; right; exists e | left; right; exists e | right]; auto.
Qed.

Lemma existsb_eqb_In (k : label) (ks : list label) :
  existsb (String.eqb k) ks = true <-> In k ks.
Proof.
  rewrite existsb_exists. split.
  - intros (x & Hx & E). apply String.eqb_eq in E. now subst.
  - intros H. exists k. split; [assumption | apply String.eqb_refl].
Qed.

Lemma consistent_spec (nodes : dict Node) :
  consistent nodes = true ->
  NoDup (dict_keys nodes)
  /\ forall k node,
      dict_get nodes k = Some node ->
      label_id node = k
      /\ (forall p, In p (parents node) ->
            exists pn, dict_get nodes p = Some pn /\ In k (children pn))
      /\ (forall c, In c (children node) ->
            exists cn, dict_get nodes c = Some cn /\ In k (parents cn)).
Proof.
  unfold consistent. rewrite andb_true_iff, no_dup_NoDup, forallb_forall.
  intros [ND F]. split; [assumption|].
  intros k node G. apply dict_get_Some_In in G. specialize (F _ G).
  cbn beta iota in F. rewrite !andb_true_iff, !forallb_forall in F.
  destruct F as [[E FP] FC]. apply String.eqb_eq in E.
  split; [now symmetry|]. split.
  - intros p Hp. specialize (FP p Hp).
    destruct (dict_get nodes p) as [pn|]; [|discriminate].
    exists pn. split; [reflexivity | now apply existsb_eqb_In].
  - intros c Hc. specialize (FC c Hc).
    destruct (dict_get nodes c) as [cn|]; [|discriminate].
    exists cn. split; [reflexivity | now apply existsb_eqb_In].
Qed.

Lemma In_dict_values {V} (d : dict V) (v : V) :
  In v (dict_values d) <-> exists k, In (k, v) d.
Proof.
  unfold dict_values. rewrite in_map_iff. split.
  - intros ([k v'] & E & H). simpl in E. subst. eauto.
  - intros (k & H). now exists (k, v).
Qed.

(** In a consistent model the roots of the graph are the nodes without
    parents and its leaves the nodes without children. *)
Lemma get_roots_consistent (nodes : dict Node) (k : label) (node : Node) :
  consistent nodes = true -> dict_get nodes k = Some node ->
  (In k (get_roots (BeliefUpdateNodeModel_init nodes)) <->
   parents node = []).
Proof.
  intros C G. destruct (consistent_spec nodes C) as (ND & F).
  unfold get_roots. rewrite filter_In, negb_true_iff, graph_vertices_In.
  cbn [graph_edges graph_variables BeliefUpdateNodeModel_init].
  split.
  - intros [_ E]. destruct (parents node) as [|p ps] eqn:Ep; [reflexivity|].
    exfalso. assert (X : existsb (fun e : edge => String.eqb (snd e) k)
                           (_get_edges_from_nodes (dict_values nodes)) = true).
    { apply existsb_exists. exists (p, k). split; [|apply String.eqb_refl].
      apply _get_edges_from_nodes_In. exists node. repeat split.
      - apply In_dict_values. exists k. now apply dict_get_Some_In.
      - now apply (F k node G).
      - rewrite Ep. now left. }
    congruence.
  - intros Ep. split.
    + right. eapply dict_get_In_keys. eassumption.
    + destruct (existsb _ _) eqn:E; [|reflexivity]. exfalso.
      apply existsb_exists in E as ([p c] & He & Ec). simpl in Ec.
      apply String.eqb_eq in Ec. subst c.
      apply _get_edges_from_nodes_In in He as (n & Hn & Hl & Hp).
      apply In_dict_values in Hn as (k' & Hn).
      pose proof (In_dict_get _ _ _ ND Hn) as G'.
      destruct (F k' n G') as (El & _). rewrite El in Hl. subst k'.
      rewrite G in G'. injection G' as <-. rewrite Ep in Hp. destruct Hp.
Qed.

Lemma get_leaves_consistent (nodes : dict Node) (k : label) (node : Node) :
  consistent nodes = true -> dict_get nodes k = Some node ->
  (In k (get_leaves (BeliefUpdateNodeModel_init nodes)) <->
   children node = []).
Proof.
  intros C G. destruct (consistent_spec nodes C) as (ND & F).
  unfold get_leaves. rewrite filter_In, negb_true_iff, graph_vertices_In.
  cbn [graph_edges graph_variables BeliefUpdateNodeModel_init].
  split.
  - intros [_ E]. destruct (children node) as [|c cs] eqn:Ec; [reflexivity|].
    exfalso.
    destruct (F k node G) as (_ & _ & FC).
    destruct (FC c) as (cn & Gc & Hk); [rewrite Ec; now left|].
    assert (X : existsb (fun e : edge => String.eqb (fst e) k)
                           (_get_edges_from_nodes (dict_values nodes)) = true).
    { apply existsb_exists. exists (k, c). split; [|apply String.eqb_refl].
      apply _get_edges_from_nodes_In. exists cn. repeat split.
      - apply In_dict_values. exists c. now apply dict_get_Some_In.
      - now apply (F c cn Gc).
      - assumption. }
    congruence.
  - intros Ec. split.
    + right. eapply dict_get_In_keys. eassumption.
    + destruct (existsb _ _) eqn:E; [|reflexivity]. exfalso.
      apply existsb_exists in E as ([p c] & He & Ep). simpl in Ep.
      apply String.eqb_eq in Ep. subst p.
      apply _get_edges_from_nodes_In in He as (n & Hn & Hl & Hp).
      apply In_dict_values in Hn as (k' & Hn).
      pose proof (In_dict_get _ _ _ ND Hn) as G'.
      destruct (F k' n G') as (_ & FP & _).
      destruct (FP k Hp) as (pn & Gp & Hc).
      rewrite G in Gp. injection Gp as <-. rewrite Ec in Hc. destruct Hc.
Qed.

Lemma graph_vertices_are_nodes (nodes : dict Node) (k : label) :
  consistent nodes = true ->
  In k (graph_vertices (BeliefUpdateNodeModel_init nodes)) ->
  In k (dict_keys nodes).
Proof.
  intros C H. destruct (consistent_spec nodes C) as (ND & F).
  apply graph_vertices_In in H.
  cbn [graph_edges graph_variables BeliefUpdateNodeModel_init] in H.
  destruct H as [([p c] & He & Hv) | H]; [|assumption].
  apply _get_edges_from_nodes_In in He as (n & Hn & Hl & Hp).
  apply In_dict_values in Hn as (k' & Hn).
  pose proof (In_dict_get _ _ _ ND Hn) as G'.
  destruct (F k' n G') as (El & FP & _). simpl in Hv.
  destruct Hv as [-> | ->].
  - destruct (FP p Hp) as (pn & Gp & _). eapply dict_get_In_keys; eassumption.
  - rewrite <- Hl, El. eapply dict_get_In_keys; eassumption.
Qed.

(** ** Boundary conditions *)

Lemma set_nodes_dict_same (self : BeliefUpdateNodeModel) :
  set_nodes_dict (nodes_dict self) self = self.
Proof. now destruct self. Qed.

Lemma update_at_nil (g : Node -> Node) (nodes : dict Node) :
  update_at [] g nodes = nodes.
Proof.
  unfold update_at. rewrite <- (map_id nodes) at 2.
  apply map_ext. now intros [k n].
Qed.

Lemma dict_keys_update_at (ks : list label) (g : Node -> Node)
    (nodes : dict Node) :
  dict_keys (update_at ks g nodes) = dict_keys nodes.
Proof. unfold dict_keys, update_at. rewrite map_map. reflexivity. Qed.

Lemma dict_get_update_at (ks : list label) (g : Node -> Node)
    (nodes : dict Node) (k : label) :
  dict_get (update_at ks g nodes) k =
  option_map (fun n => if existsb (String.eqb k) ks then g n else n)
             (dict_get nodes k).
Proof.
  induction nodes as [|[k' n] nodes IH]; simpl; [reflexivity|].
  destruct (String.eqb k' k) eqn:E; [|assumption].
  apply String.eqb_eq in E. now subst.
Qed.

(** Assigning to the node under an existing key is an update in place. *)
Lemma dict_set_update_at (g : Node -> Node) (nodes : dict Node) (k : label)
    (node : Node) :
  NoDup (dict_keys nodes) -> dict_get nodes k = Some node ->
  dict_set nodes k (g node) = update_at [k] g nodes.
Proof.
  induction nodes as [|[k' n] nodes IH]; simpl; [discriminate|].
  intros ND G. inversion ND as [|? ? Hn ND']; subst.
  unfold update_at. simpl. rewrite orb_false_r.
  destruct (String.eqb k' k) eqn:E.
  - apply String.eqb_eq in E. subst k'. injection G as ->.
    f_equal. rewrite <- (map_id nodes) at 1. apply map_ext_in.
    intros [k2 n2] H2. simpl. rewrite orb_false_r.
    destruct (String.eqb k2 k) eqn:E2; [|reflexivity].
    apply String.eqb_eq in E2. subst k2. exfalso. apply Hn.
    unfold dict_keys. apply in_map_iff. now exists (k, n2).
  - f_equal. now apply IH.
Qed.

Lemma update_at_cons (g : Node -> Node) (nodes : dict Node) (k : label)
    (ks : list label) :
  (forall n, g (g n) = g n) ->
  update_at ks g (update_at [k] g nodes) = update_at (k :: ks) g nodes.
Proof.
  intros I. unfold update_at. rewrite map_map. apply map_ext.
  intros [k' n]. simpl. rewrite orb_false_r.
  destruct (String.eqb k' k); simpl; [|reflexivity].
  destruct (existsb (String.eqb k') ks); [apply f_equal, I | reflexivity].
Qed.

(** A loop that assigns an attribute of the nodes under [ks]. *)
Lemma for_each_assign_node_attr (g : Node -> Node) (ks : list label)
    (self : BeliefUpdateNodeModel) :
  (forall n, g (g n) = g n) ->
  NoDup (dict_keys (nodes_dict self)) ->
  (forall k, In k ks -> In k (dict_keys (nodes_dict self))) ->
  for_each ks (fun k => assign_node_attr k g) self
  = (Ok tt, set_nodes_dict (update_at ks g (nodes_dict self)) self).
Proof.
  intros I. revert self. induction ks as [|k ks IH]; intros self ND K.
  - simpl. unfold ret. now rewrite update_at_nil, set_nodes_dict_same.
  - cbn [for_each]. unfold bind at 1.
    destruct (In_keys_dict_get _ _ (K k (or_introl eq_refl))) as (node & G).
    unfold assign_node_attr at 1, bind, query, assign, dict_getitem.
    rewrite G. rewrite (dict_set_update_at g _ _ _ ND G).
    rewrite IH.
    + cbn [nodes_dict set_nodes_dict graph_edges graph_variables].
      now rewrite update_at_cons.
    + cbn [nodes_dict set_nodes_dict]. now rewrite dict_keys_update_at.
    + cbn [nodes_dict set_nodes_dict]. intros k' Hk'.
      rewrite dict_keys_update_at. apply K. now right.
Qed.

Lemma is_empty_reflect (k : label) (ks : list label) (xs : list label) :
  (In k ks <-> xs = []) -> existsb (String.eqb k) ks = is_empty xs.
Proof.
  intros H. destruct (existsb (String.eqb k) ks) eqn:E.
  - apply existsb_eqb_In, H in E. now subst.
  - destruct xs; [|reflexivity].
    assert (X : existsb (String.eqb k) ks = true)
      by (apply existsb_eqb_In, H; reflexivity).
    congruence.
Qed.

Lemma set_boundary_conditions_consistent (nodes : dict Node) :
  consistent nodes = true ->
  let self := BeliefUpdateNodeModel_init nodes in
  let nodes' :=
    update_at (get_leaves self)
      (fun node =>
         set_lambda_agg (Some (Float64 (Np.ones (cardinality node)))) node)
      (update_at (get_roots self)
         (fun node => set_pi_agg (Some (values (cpd node))) node) nodes) in
  set_boundary_conditions self = (Ok tt, set_nodes_dict nodes' self)
  /\ forall k node, dict_get nodes k = Some node ->
                    dict_get nodes' k = Some (boundary node).
Proof.
  intros C self nodes'. destruct (consistent_spec nodes C) as (ND & F).
  split.
  - unfold set_boundary_conditions. unfold bind at 1, read at 1.
    unfold bind at 1.
    rewrite for_each_assign_node_attr; [| reflexivity | assumption |].
    + unfold bind, read.
      rewrite for_each_assign_node_attr; [reflexivity | reflexivity | |].
      * cbn [nodes_dict set_nodes_dict self BeliefUpdateNodeModel_init].
        now rewrite dict_keys_update_at.
      * intros k Hk.
        cbn [nodes_dict set_nodes_dict self BeliefUpdateNodeModel_init].
        rewrite dict_keys_update_at.
        apply (graph_vertices_are_nodes nodes k C).
        unfold get_leaves in Hk. now apply filter_In in Hk.
    + intros k Hk. apply (graph_vertices_are_nodes nodes k C).
      unfold get_roots in Hk. now apply filter_In in Hk.
  - intros k node G. unfold nodes', self.
    rewrite !dict_get_update_at, G. cbn [option_map].
    rewrite (is_empty_reflect k _ (parents node)
               (get_roots_consistent nodes k node C G)).
    rewrite (is_empty_reflect k _ (children node)
               (get_leaves_consistent nodes k node C G)).
    unfold boundary.
    destruct (is_empty (parents node)), (is_empty (children node));
      reflexivity.
Qed.

Lemma same_frame_refl (s : Node) : same_frame s s.
Proof. unfold same_frame. repeat split. Qed.

Lemma same_frame_trans (s1 s2 s3 : Node) :
  same_frame s1 s2 -> same_frame s2 s3 -> same_frame s1 s3.
Proof.
  unfold same_frame.
  intros (A1 & A2 & A3 & A4 & A5 & A6 & A7 & A8)
         (B1 & B2 & B3 & B4 & B5 & B6 & B7 & B8).
  repeat split; congruence.
Qed.

Lemma same_frame_boundary (node : Node) : same_frame node (boundary node).
Proof.
  unfold boundary, same_frame.
  destruct (is_empty (parents node)), (is_empty (children node));
    repeat split.
Qed.

(** C8, for a model whose declarations agree.  [set_boundary_conditions]
    returns; the graph and the keys of the model are as before; and in the
    model it leaves, every node without parents has the table of its CPD as
    [pi_agg], every node without children has the vector of ones of its
    cardinality as [lambda_agg], the [pi_agg] of a node with parents and the
    [lambda_agg] of a node with children are those of before, and so are
    all mailboxes and all else of every node. *)
Theorem set_boundary_conditions_spec (nodes : dict Node) :
  consistent nodes = true ->
  let model := BeliefUpdateNodeModel_init nodes in
  let after := snd (set_boundary_conditions model) in
  fst (set_boundary_conditions model) = Ok tt
  /\ graph_edges after = graph_edges model
  /\ graph_variables after = graph_variables model
  /\ dict_keys (nodes_dict after) = dict_keys nodes
  /\ forall k node,
      dict_get nodes k = Some node ->
      exists node',
        dict_get (nodes_dict after) k = Some node'
        /\ (parents node = [] -> pi_agg node' = Some (values (cpd node)))
        /\ (children node = [] ->
            lambda_agg node'
            = Some (Float64 (Np.ones (cardinality node))))
        /\ (parents node <> [] -> pi_agg node' = pi_agg node)
        /\ (children node <> [] -> lambda_agg node' = lambda_agg node)
        /\ pi_received_msgs node' = pi_received_msgs node
        /\ lambda_received_msgs node' = lambda_received_msgs node
        /\ same_frame node node'.
Proof.
  intros C model after.
  destruct (set_boundary_conditions_consistent nodes C) as (E & H).
  unfold after, model. rewrite E.
  cbn [fst snd set_nodes_dict graph_edges graph_variables nodes_dict].
  split; [reflexivity|]. split; [reflexivity|]. split; [reflexivity|].
  split.
  - now rewrite !dict_keys_update_at.
  - intros k node G. exists (boundary node). split; [now apply H|].
    split; [|split; [|split; [|split; [|split; [|split]]]]];
      try apply same_frame_boundary;
      unfold boundary;
      destruct (parents node) as [|p ps], (children node) as [|c cs];
      cbn [is_empty]; intros; try reflexivity; congruence.
Qed.

(** Scenario A: after the boundary conditions [X.pi_agg] is the prior
    [[0.7, 0.3]] and [Y.lambda_agg] is [[1, 1]]. *)
Lemma set_boundary_conditions_spec_witness :
  consistent Fixtures.chain = true
  /\ (exists x,
        dict_get (nodes_dict
                    (snd (set_boundary_conditions
                            (BeliefUpdateNodeModel_init Fixtures.chain))))
                 "X" = Some x
        /\ pi_agg x = Some [0.7; 0.3]%float)
  /\ (exists y,
        dict_get (nodes_dict
                    (snd (set_boundary_conditions
                            (BeliefUpdateNodeModel_init Fixtures.chain))))
                 "Y" = Some y
        /\ lambda_agg y = Some (Float64 (Np.ones 2))).
Proof.
  split; [reflexivity|].
  destruct (set_boundary_conditions_spec Fixtures.chain eq_refl)
    as (_ & _ & _ & _ & H).
  split.
  - destruct (H "X"%string _ eq_refl) as (x & G & P & _).
    exists x. split; [exact G | now apply P].
  - destruct (H "Y"%string _ eq_refl) as (y & G & _ & L & _).
    exists y. split; [exact G | now apply L].
Defined.

(** C8, as stated, fails for a model whose declarations disagree.  The node
    [X] names [Y] as a child while [Y] names no parent: the graph, which is
    built from the parents alone, has no edge, [X] is one of its leaves, and
    the [lambda_agg] of [X], a node with a child, is set to ones.  And in a
    model whose only node names a parent that is no node of the model the
    call raises [KeyError]. *)
Lemma set_boundary_conditions_counterexample :
  (exists x,
     dict_get Fixtures.disagreeing "X" = Some x
     /\ children x = ["Y"]%string
     /\ lambda_agg x = None)
  /\ graph_edges (BeliefUpdateNodeModel_init Fixtures.disagreeing) = []
  /\ fst (set_boundary_conditions
            (BeliefUpdateNodeModel_init Fixtures.disagreeing)) = Ok tt
  /\ (exists x',
        dict_get (nodes_dict
                    (snd (set_boundary_conditions
                            (BeliefUpdateNodeModel_init
                               Fixtures.disagreeing)))) "X" = Some x'
        /\ children x' = ["Y"]%string
        /\ lambda_agg x' = Some (Float64 (Np.ones 2)))
  /\ fst (set_boundary_conditions
            (BeliefUpdateNodeModel_init Fixtures.dangling))
     = Raise (KeyError "ghost").
Proof.
  split; [eexists; repeat split; reflexivity|].
  split; [reflexivity|]. split; [reflexivity|].
  split; [eexists; repeat split; reflexivity|].
  reflexivity.
Qed.

(** * Further properties of the node operations *)

(** ** What no operation changes *)

Lemma run_same_frame (op : node_op) (self : Node) :
  same_frame self (snd (run op self)).
Proof.
  destruct op as [k v | k v | | | k | k]; unfold run, bind, ret, query.
  - rewrite update_pi_msg_from_parent_eq.
    destruct (dict_mem _ _) eqn:Hk; [destruct v as [a| | |];
      [destruct (Nat.eqb _ _)| | |]|]; simpl; try apply same_frame_refl.
    unfold same_frame. simpl. repeat split.
    apply dict_keys_set_mem. now apply dict_mem_In.
  - rewrite update_lambda_msg_from_child_eq.
    destruct (dict_mem _ _) eqn:Hk; [destruct v as [a| | |];
      [destruct (Nat.eqb _ _)| | |]|]; simpl; try apply same_frame_refl.
    unfold same_frame. simpl. repeat split.
    apply dict_keys_set_mem. now apply dict_mem_In.
  - rewrite compute_lambda_agg_eq.
    destruct (is_empty _); [apply same_frame_refl|].
    destruct (validate_and_return_msgs_received_for_msg_type _ _);
      [|apply same_frame_refl].
    destruct (reduce _ _); simpl; [|apply same_frame_refl].
    unfold same_frame. simpl. repeat split.
  - unfold compute_pi_agg.
    destruct (class_of self); [apply same_frame_refl|].
    rewrite BernoulliOrNode_compute_pi_agg_eq.
    destruct (is_empty _); [unfold same_frame; simpl; repeat split|].
    destruct (validate_and_return_msgs_received_for_msg_type _ _);
      [|apply same_frame_refl].
    destruct (list_comprehension _ _); [|apply same_frame_refl].
    destruct (reduce_mul _) as [[x|s]|e']; simpl;
      try apply same_frame_refl.
    unfold same_frame. simpl. repeat split.
  - destruct (compute_lambda_msg_to_parent self k); apply same_frame_refl.
  - destruct (compute_pi_msg_to_child self k); apply same_frame_refl.
Qed.


(** X1.  Whatever sequence of deposits and computations is applied to a
    node, and whichever of them raise, the node keeps its class, label,
    children, parents, cardinality and CPD, and both mailboxes keep exactly
    their keys: no slot is ever added or removed. *)
Theorem operations_keep_topology_and_keys (ops : list node_op) (self : Node) :
  class_of (run_all ops self) = class_of self
  /\ label_id (run_all ops self) = label_id self
  /\ children (run_all ops self) = children self
  /\ parents (run_all ops self) = parents self
  /\ cardinality (run_all ops self) = cardinality self
  /\ cpd (run_all ops self) = cpd self
  /\ dict_keys (pi_received_msgs (run_all ops self))
     = dict_keys (pi_received_msgs self)
  /\ dict_keys (lambda_received_msgs (run_all ops self))
     = dict_keys (lambda_received_msgs self).
Proof.
  change (same_frame self (run_all ops self)).
  revert self. induction ops as [|op ops IH]; intros self.
  - apply same_frame_refl.
  - simpl. eapply same_frame_trans; [apply run_same_frame | apply IH].
Qed.



(** ** Revised messages *)

Lemma dict_set_set_same {V} (d : dict V) (k : label) (v1 v2 : V) :
  dict_set (dict_set d k v1) k v2 = dict_set d k v2.
Proof.
  induction d as [|[k' v'] d IH]; simpl.
  - now rewrite String.eqb_refl.
  - destruct (String.eqb k' k) eqn:E; simpl; rewrite E; [reflexivity|].
    now rewrite IH.
Qed.

Lemma dict_set_comm {V} (d : dict V) (k1 k2 : label) (v1 v2 : V) :
  k1 <> k2 -> In k1 (dict_keys d) -> In k2 (dict_keys d) ->
  dict_set (dict_set d k1 v1) k2 v2 = dict_set (dict_set d k2 v2) k1 v1.
Proof.
  intros N. induction d as [|[k v] d IH]; simpl; [tauto|].
  intros H1 H2.
  destruct (String.eqb k k1) eqn:E1, (String.eqb k k2) eqn:E2; simpl;
    rewrite ?E1, ?E2; try reflexivity.
  - apply String.eqb_eq in E1, E2. congruence.
  - apply String.eqb_neq in E1, E2. f_equal. apply IH; tauto.
Qed.

Lemma dict_mem_set {V} (d : dict V) (k k' : label) (v : V) :
  dict_mem d k = true -> dict_mem (dict_set d k v) k' = dict_mem d k'.
Proof.
  intros H. unfold dict_mem. rewrite dict_keys_set_mem; [reflexivity|].
  now apply dict_mem_In.
Qed.

Lemma update_by_key_overwrites (n : nat) (k : label) (v1 v2 : pyobject)
    (d : mailbox) :
  fst (_update_received_msg_by_key n k v2 d) = Ok tt ->
  _update_received_msg_by_key n k v2
    (snd (_update_received_msg_by_key n k v1 d))
  = _update_received_msg_by_key n k v2 d.
Proof.
  rewrite !_update_received_msg_by_key_eq.
  destruct (dict_mem d k) eqn:M; [|discriminate].
  destruct v2 as [a2| | |]; try discriminate.
  destruct (Nat.eqb (size a2) n) eqn:L2; [|discriminate]. intros _.
  destruct v1 as [a1| | |]; simpl; rewrite ?M, ?L2; try reflexivity.
  destruct (Nat.eqb (size a1) n); simpl.
  - rewrite (dict_mem_set d k k _ M), ?M, ?L2. now rewrite dict_set_set_same.
  - now rewrite ?M, ?L2.
Qed.

Lemma update_by_key_commutes (n : nat) (k1 k2 : label) (v1 v2 : pyobject)
    (d : mailbox) :
  k1 <> k2 ->
  snd (_update_received_msg_by_key n k2 v2
         (snd (_update_received_msg_by_key n k1 v1 d)))
  = snd (_update_received_msg_by_key n k1 v1
           (snd (_update_received_msg_by_key n k2 v2 d))).
Proof.
  intros N. rewrite !_update_received_msg_by_key_eq.
  destruct (dict_mem d k1) eqn:M1, (dict_mem d k2) eqn:M2;
    destruct v1 as [a1| | |], v2 as [a2| | |];
    try destruct (Nat.eqb (size a1) n) eqn:L1;
    try destruct (Nat.eqb (size a2) n) eqn:L2;
    cbn [fst snd];
    rewrite ?_update_received_msg_by_key_eq, ?dict_mem_set, ?M1, ?M2,
      ?L1, ?L2 by assumption;
    cbn [fst snd]; try reflexivity.
  apply dict_set_comm; [assumption | |]; now apply dict_mem_In.
Qed.

Lemma update_pi_as_by_key (k : label) (v : pyobject) (self : Node) :
  update_pi_msg_from_parent k v self
  = (fst (_update_received_msg_by_key (cardinality self) k v
            (pi_received_msgs self)),
     set_pi_received_msgs
       (snd (_update_received_msg_by_key (cardinality self) k v
               (pi_received_msgs self))) self).
Proof.
  unfold update_pi_msg_from_parent, on_attr.
  now destruct (_update_received_msg_by_key _ _ _ _).
Qed.

Lemma update_lambda_as_by_key (k : label) (v : pyobject) (self : Node) :
  update_lambda_msg_from_child k v self
  = (fst (_update_received_msg_by_key (cardinality self) k v
            (lambda_received_msgs self)),
     set_lambda_received_msgs
       (snd (_update_received_msg_by_key (cardinality self) k v
               (lambda_received_msgs self))) self).
Proof.
  unfold update_lambda_msg_from_child, on_attr.
  now destruct (_update_received_msg_by_key _ _ _ _).
Qed.

(** X3.  Messages can be revised and the order of deposits under different
    ids does not matter.  When a deposit is accepted, making it after any
    other deposit under the same id, accepted or refused, leaves the node
    exactly as making it alone; deposits under two different ids, and a pi
    deposit and a lambda deposit, leave the same node in either order,
    whatever the values are. *)
Theorem deposits_overwrite_and_commute (self : Node) :
  (forall k v1 v2,
      fst (update_pi_msg_from_parent k v2 self) = Ok tt ->
      update_pi_msg_from_parent k v2
        (snd (update_pi_msg_from_parent k v1 self))
      = update_pi_msg_from_parent k v2 self)
  /\ (forall k v1 v2,
         fst (update_lambda_msg_from_child k v2 self) = Ok tt ->
         update_lambda_msg_from_child k v2
           (snd (update_lambda_msg_from_child k v1 self))
         = update_lambda_msg_from_child k v2 self)
  /\ (forall k1 k2 v1 v2,
         k1 <> k2 ->
         snd (update_pi_msg_from_parent k2 v2
                (snd (update_pi_msg_from_parent k1 v1 self)))
         = snd (update_pi_msg_from_parent k1 v1
                  (snd (update_pi_msg_from_parent k2 v2 self))))
  /\ (forall k1 k2 v1 v2,
         k1 <> k2 ->
         snd (update_lambda_msg_from_child k2 v2
                (snd (update_lambda_msg_from_child k1 v1 self)))
         = snd (update_lambda_msg_from_child k1 v1
                  (snd (update_lambda_msg_from_child k2 v2 self))))
  /\ (forall kp kc v1 v2,
         snd (update_lambda_msg_from_child kc v2
                (snd (update_pi_msg_from_parent kp v1 self)))
         = snd (update_pi_msg_from_parent kp v1
                  (snd (update_lambda_msg_from_child kc v2 self)))).
Proof.
  repeat split.
  - intros k v1 v2. rewrite !update_pi_as_by_key. cbn [fst snd].
    intros H. cbn [cardinality pi_received_msgs set_pi_received_msgs].
    now rewrite (update_by_key_overwrites _ _ v1 v2 _ H).
  - intros k v1 v2. rewrite !update_lambda_as_by_key. cbn [fst snd].
    intros H.
    cbn [cardinality lambda_received_msgs set_lambda_received_msgs].
    now rewrite (update_by_key_overwrites _ _ v1 v2 _ H).
  - intros k1 k2 v1 v2 N. rewrite !update_pi_as_by_key. cbn [fst snd].
    cbn [cardinality pi_received_msgs set_pi_received_msgs].
    unfold set_pi_received_msgs.
    cbn [class_of label_id children parents cardinality cpd pi_agg
         lambda_agg pi_received_msgs lambda_received_msgs].
    f_equal. now apply update_by_key_commutes.
  - intros k1 k2 v1 v2 N. rewrite !update_lambda_as_by_key. cbn [fst snd].
    cbn [cardinality lambda_received_msgs set_lambda_received_msgs].
    unfold set_lambda_received_msgs.
    cbn [class_of label_id children parents cardinality cpd pi_agg
         lambda_agg pi_received_msgs lambda_received_msgs].
    f_equal. now apply update_by_key_commutes.
  - intros kp kc v1 v2.
    rewrite !update_pi_as_by_key, !update_lambda_as_by_key. reflexivity.
Qed.

(** The parent [a] of scenario B revises [[0.4, 0.6]] to [[1, 1]]: the node
    is the one that would have received [[1, 1]] in the first place. *)
Lemma deposits_overwrite_and_commute_witness :
  fst (update_pi_msg_from_parent "a" (Fixtures.vector (Np.ones 2))
         Fixtures.two_parents) = Ok tt
  /\ update_pi_msg_from_parent "a" (Fixtures.vector (Np.ones 2))
       (snd (update_pi_msg_from_parent "a"
               (Fixtures.vector [0.4; 0.6]%float)
               Fixtures.two_parents))
     = update_pi_msg_from_parent "a" (Fixtures.vector (Np.ones 2))
         Fixtures.two_parents.
Proof.
  split; [reflexivity|].
  apply (proj1 (deposits_overwrite_and_commute Fixtures.two_parents)).
  reflexivity.
Defined.

(** ** Aggregating twice *)

Lemma compute_lambda_agg_cases (self : Node) :
  compute_lambda_agg self =
  if is_empty (children self) then (Ok (lambda_agg self), self)
  else if existsb is_None (dict_values (lambda_received_msgs self))
  then (Raise (MissingMessage LAMBDA), self)
  else match reduce np_multiply
               (received (dict_values (lambda_received_msgs self))) with
       | Raise e => (Raise e, self)
       | Ok v => (Ok (Some v), set_lambda_agg (Some v) self)
       end.
Proof.
  rewrite compute_lambda_agg_eq, validate_eq. cbn zeta.
  destruct (is_empty _); [reflexivity|]. now destruct (existsb _ _).
Qed.

Lemma compute_pi_agg_cases (self : Node) :
  compute_pi_agg self =
  match class_of self with
  | NodeClass => (Raise NotImplementedError, self)
  | BernoulliOrNodeClass =>
      if is_empty (parents self)
      then (Ok (Some (values (cpd self))),
            set_pi_agg (Some (values (cpd self))) self)
      else if existsb is_None (dict_values (pi_received_msgs self))
      then (Raise (MissingMessage PI), self)
      else match list_comprehension (fun p => array_getitem p 0)
                   (received (dict_values (pi_received_msgs self))) with
           | Raise e => (Raise e, self)
           | Ok parents_p0 =>
               match reduce_mul parents_p0 with
               | Raise e => (Raise e, self)
               | Ok (NpStr _) => (Raise (TypeError StrOperand), self)
               | Ok (NpFloat64 p_0) =>
                   (Ok (Some [p_0; Np.sub Np.one p_0]),
                    set_pi_agg (Some [p_0; Np.sub Np.one p_0]) self)
               end
           end
  end.
Proof.
  unfold compute_pi_agg. destruct (class_of self); [reflexivity|].
  rewrite BernoulliOrNode_compute_pi_agg_eq, validate_eq. cbn zeta.
  destruct (is_empty _); [reflexivity|]. now destruct (existsb _ _).
Qed.

(** X4.  Both aggregations are idempotent: called again with no deposit in
    between, [compute_lambda_agg] and [compute_pi_agg] return (or raise)
    what they did the first time and leave the node as the first call left
    it. *)
Theorem aggregation_is_idempotent (self : Node) :
  compute_lambda_agg (snd (compute_lambda_agg self))
  = compute_lambda_agg self
  /\ compute_pi_agg (snd (compute_pi_agg self)) = compute_pi_agg self.
Proof.
  split.
  - rewrite (compute_lambda_agg_cases self).
    destruct (is_empty (children self)) eqn:Ec;
      [|destruct (existsb is_None _) eqn:V;
        [|destruct (reduce np_multiply _) as [v|e] eqn:R]];
      cbn [snd]; rewrite compute_lambda_agg_cases;
      cbn [children set_lambda_agg lambda_received_msgs];
      now rewrite ?Ec, ?V, ?R.
  - rewrite (compute_pi_agg_cases self).
    destruct (class_of self) eqn:C;
      [|destruct (is_empty (parents self)) eqn:Ep;
        [|destruct (existsb is_None _) eqn:V;
          [|destruct (list_comprehension _ _) as [ps|e] eqn:L;
            [destruct (reduce_mul ps) as [[p0|s]|e] eqn:R|]]]];
      cbn [snd]; rewrite compute_pi_agg_cases;
      cbn [class_of parents cpd set_pi_agg pi_received_msgs];
      now rewrite ?C, ?Ep, ?V, ?L, ?R.
Qed.


(** ** Fully initialised nodes *)

Lemma is_fully_initialized_spec (self : Node) :
  is_fully_initialized self = true <->
  existsb is_None (dict_values (lambda_received_msgs self)) = false
  /\ existsb is_None (dict_values (pi_received_msgs self)) = false
  /\ (exists p, pi_agg self = Some p)
  /\ (exists l, lambda_agg self = Some l).
Proof.
  unfold is_fully_initialized, _return_msgs_received_for_msg_type.
  destruct (existsb is_None (dict_values (lambda_received_msgs self))),
           (existsb is_None (dict_values (pi_received_msgs self))),
           (pi_agg self) as [p|], (lambda_agg self) as [l|];
    simpl; split; intros H; try discriminate;
    try (destruct H as (A & B & (p' & Hp) & (l' & Hl)); discriminate);
    repeat split; eauto.
Qed.

Lemma dict_set_keeps_received (d : mailbox) (k : label) (a : pyarray) :
  existsb is_None (dict_values d) = false ->
  existsb is_None (dict_values (dict_set d k (Some a))) = false.
Proof.
  induction d as [|[k' o] d IH]; simpl; [reflexivity|].
  intros H. apply orb_false_iff in H as [Ho H].
  destruct (String.eqb k' k); simpl.
  - assumption.
  - now rewrite Ho, IH.
Qed.

Lemma run_keeps_fully_initialized (op : node_op) (self : Node) :
  is_fully_initialized self = true ->
  is_fully_initialized (snd (run op self)) = true.
Proof.
  intros F. pose proof F as F0.
  apply is_fully_initialized_spec in F as (HL & HP & (p & Ep) & (l & El)).
  destruct op as [k v | k v | | | k | k]; unfold run, bind, ret, query.
  - rewrite update_pi_msg_from_parent_eq.
    destruct (dict_mem (pi_received_msgs self) k); [destruct v as [a| | |];
      [destruct (Nat.eqb (size a) (cardinality self))| | |]|];
      simpl; try assumption.
    apply is_fully_initialized_spec. simpl.
    repeat split; eauto using dict_set_keeps_received.
  - rewrite update_lambda_msg_from_child_eq.
    destruct (dict_mem (lambda_received_msgs self) k); [destruct v as [a| | |];
      [destruct (Nat.eqb (size a) (cardinality self))| | |]|];
      simpl; try assumption.
    apply is_fully_initialized_spec. simpl.
    repeat split; eauto using dict_set_keeps_received.
  - rewrite compute_lambda_agg_cases, HL.
    destruct (is_empty (children self)); [assumption|].
    destruct (reduce np_multiply _); simpl; [|assumption].
    apply is_fully_initialized_spec. simpl. repeat split; eauto.
  - rewrite compute_pi_agg_cases, HP.
    destruct (class_of self); [assumption|].
    destruct (is_empty (parents self));
      [simpl; apply is_fully_initialized_spec; simpl; repeat split; eauto|].
    destruct (list_comprehension _ _) as [ps|e]; [|assumption].
    destruct (reduce_mul ps) as [[x|s]|e]; simpl; try assumption.
    apply is_fully_initialized_spec. simpl. repeat split; eauto.
  - destruct (compute_lambda_msg_to_parent self k); assumption.
  - destruct (compute_pi_msg_to_child self k); assumption.
Qed.

(** X5.  No operation un-initialises a node: once [is_fully_initialized]
    is true it stays true after any sequence of deposits and computations,
    whichever of them raise. *)
Theorem fully_initialized_is_stable (ops : list node_op) (self : Node) :
  is_fully_initialized self = true ->
  is_fully_initialized (run_all ops self) = true.
Proof.
  revert self. induction ops as [|op ops IH]; intros self F; simpl.
  - assumption.
  - apply IH. now apply run_keeps_fully_initialized.
Qed.

(** A node with one parent and one child, both heard and both aggregates
    computed, stays fully initialised through a refused deposit, a revised
    message and a new aggregation. *)
Lemma fully_initialized_is_stable_witness :
  is_fully_initialized Fixtures.contradictory = true
  /\ is_fully_initialized
       (run_all [OpUpdatePiMsgFromParent "p" PyNone;
                 OpUpdateLambdaMsgFromChild "c" (Fixtures.vector (Np.ones 2));
                 OpComputeLambdaAgg]
                Fixtures.contradictory) = true.
Proof.
  split; [reflexivity|].
  apply (fully_initialized_is_stable
           [OpUpdatePiMsgFromParent "p" PyNone;
            OpUpdateLambdaMsgFromChild "c" (Fixtures.vector (Np.ones 2));
            OpComputeLambdaAgg]
           Fixtures.contradictory).
  reflexivity.
Defined.

Lemma belief_wf (self : Node) (p l : Np.ndarray) :
  wf_node self = true -> pi_agg self = Some p ->
  lambda_agg self = Some (Float64 l) ->
  belief self =
  if Np.any p && Np.any l
  then Ok (Some (_normalize (Np.zip_with Np.mul p l)))
  else Ok None.
Proof.
  intros W Ep El. apply wf_node_spec in W as (_ & _ & AP & AL & _).
  rewrite Ep in AP. rewrite El in AL. apply slot_ok_Some in AP, AL.
  unfold belief. rewrite Ep, El.
  rewrite multiply_same_length by congruence.
  now destruct (Np.any p), (Np.any l).
Qed.

(** X6.  A fully initialised node that satisfies the shape invariant can
    compute: [compute_lambda_agg] returns an array, [belief] returns
    without raising, the pi message to a declared child is an array unless
    the belief is [None] (then the division raises a [TypeError]), and for
    a Bernoulli-OR node [compute_pi_agg] returns an array and the lambda
    message to a parent is an array or the call raises
    [InvalidLambdaMsgToParent]; no [MissingMessage] is possible. *)
Theorem fully_initialized_node_computes (self : Node) :
  wf_node self = true -> is_fully_initialized self = true ->
  (exists v, fst (compute_lambda_agg self) = Ok (Some v))
  /\ (exists b, belief self = Ok b)
  /\ (forall c, In c (children self) ->
        (exists m, compute_pi_msg_to_child self c = Ok m)
        \/ (belief self = Ok None
            /\ compute_pi_msg_to_child self c = Raise (TypeError NoneOperand)))
  /\ (class_of self = BernoulliOrNodeClass ->
      (exists v, fst (compute_pi_agg self) = Ok (Some v))
      /\ forall k,
          (exists m, compute_lambda_msg_to_parent self k = Ok m)
          \/ compute_lambda_msg_to_parent self k
             = Raise InvalidLambdaMsgToParent).
Proof.
  intros W F.
  apply is_fully_initialized_spec in F as (HL & HP & (p & Ep) & (l0 & El)).
  pose proof W as W0.
  apply wf_node_spec in W0 as (WP & WL & AP & AL & C2 & CV).
  rewrite Ep in AP. rewrite El in AL.
  destruct l0 as [l|l]; [|discriminate].
  pose proof (belief_wf self p l W Ep El) as B.
  apply slot_ok_Some in AL. apply Nat.eqb_eq in AP.
  split; [|split; [|split]].
  - destruct (is_empty (children self)) eqn:Ec.
    + rewrite compute_lambda_agg_cases, Ec, El. simpl. eauto.
    + rewrite (compute_lambda_agg_wf self W)
        by now apply is_empty_false_iff.
      rewrite HL. simpl. eauto.
  - rewrite B. destruct (Np.any p && Np.any l); eauto.
  - intros c Hc. apply (wf_mailbox_In _ _ _ c WL) in Hc.
    destruct (In_keys_dict_get _ _ Hc) as ([m|] & G).
    2:{ exfalso.
        assert (X : existsb is_None (dict_values (lambda_received_msgs self))
                    = true).
        { apply (unset_slot_iff _ (wf_mailbox_NoDup _ _ _ WL)). eauto. }
        congruence. }
    destruct (wf_mailbox_float _ _ _ c m WL G) as (a & -> & Lm).
    unfold compute_pi_msg_to_child, dict_getitem. rewrite G, B.
    destruct (Np.any p && Np.any l); cbn [rbind np_divide_opt].
    + left. rewrite divide_same_length.
      * cbn [rbind]. eauto.
      * unfold _normalize. rewrite NpFacts.length_div_scalar.
        rewrite NpFacts.length_zip_with; congruence.
    + right. split; reflexivity.
  - intros C. specialize (C2 C). split.
    + destruct (is_empty (parents self)) eqn:Ep'.
      * rewrite compute_pi_agg_cases, C, Ep'. simpl. eauto.
      * rewrite (BernoulliOrNode_compute_pi_agg_wf self W C)
          by now apply is_empty_false_iff.
        rewrite HP. simpl. eauto.
    + intros k.
      destruct (Np.array_equal l (Np.ones (cardinality self))) eqn:E.
      * left. unfold compute_lambda_msg_to_parent,
          BernoulliOrNode_compute_lambda_msg_to_parent.
        rewrite C, El. cbn [array_equal_opt]. rewrite E. eauto.
      * assert (N : l <> Np.ones (cardinality self)).
        { intros X. apply NpFacts.array_equal_ones_iff in X. congruence. }
        rewrite (compute_lambda_msg_to_parent_wf self k l W C El N), HP.
        cbn zeta. destruct (negb _); eauto.
Qed.

(** The node in which the evidence contradicts the prior is fully
    initialised, and its lambda aggregation returns an array. *)
Lemma fully_initialized_node_computes_witness :
  wf_node Fixtures.contradictory = true
  /\ is_fully_initialized Fixtures.contradictory = true
  /\ exists v, fst (compute_lambda_agg Fixtures.contradictory) = Ok (Some v).
Proof.
  split; [reflexivity|]. split; [reflexivity|].
  exact (proj1 (fully_initialized_node_computes Fixtures.contradictory
                  eq_refl eq_refl)).
Defined.

(** ** From deposits to aggregates *)

(** The mailbox after the messages [msg k] have been stored under the keys
    [ks]. *)
Lemma dict_get_fold_set (msg : label -> pyarray) (ks : list label)
    (d : mailbox) (k : label) :
  dict_get (fold_left (fun d k => dict_set d k (Some (msg k))) ks d) k
  = if existsb (String.eqb k) ks then Some (Some (msg k)) else dict_get d k.
Proof.
  revert d. induction ks as [|k' ks IH]; intros d; simpl; [reflexivity|].
  rewrite IH. destruct (existsb (String.eqb k) ks); [now rewrite orb_true_r|].
  rewrite orb_false_r. destruct (String.eqb k k') eqn:E.
  - apply String.eqb_eq in E. subst. apply dict_get_set_same.
  - apply String.eqb_neq in E. now apply dict_get_set_other.
Qed.

Lemma dict_keys_fold_set (msg : label -> pyarray) (ks : list label)
    (d : mailbox) :
  (forall k, In k ks -> In k (dict_keys d)) ->
  dict_keys (fold_left (fun d k => dict_set d k (Some (msg k))) ks d)
  = dict_keys d.
Proof.
  revert d. induction ks as [|k' ks IH]; intros d H; simpl; [reflexivity|].
  assert (E : dict_keys (dict_set d k' (Some (msg k'))) = dict_keys d)
    by (apply dict_keys_set_mem, H; now left).
  rewrite IH, E; [reflexivity|].
  intros k Hk. rewrite E. apply H. now right.
Qed.

Lemma run_lambda_deposits (msg : label -> Np.ndarray) (cs : list label)
    (self : Node) :
  (forall c, In c cs -> In c (dict_keys (lambda_received_msgs self))) ->
  (forall c, In c cs -> List.length (msg c) = cardinality self) ->
  run_all (lambda_deposits msg cs) self
  = set_lambda_received_msgs
      (fold_left (fun d k => dict_set d k (Some (Float64 (msg k)))) cs
                 (lambda_received_msgs self)) self.
Proof.
  revert self. induction cs as [|c cs IH]; intros self K L.
  - simpl. now rewrite set_lambda_received_msgs_same.
  - change (run_all (lambda_deposits msg (c :: cs)) self)
      with (run_all (lambda_deposits msg cs)
              (snd (run (OpUpdateLambdaMsgFromChild c (PyNdarray (Float64 (msg c))))
                        self))).
    cbn [fold_left]. unfold run. rewrite snd_bind_ret.
    rewrite update_lambda_msg_from_child_eq.
    assert (M : dict_mem (lambda_received_msgs self) c = true)
      by (apply dict_mem_In, K; now left).
    assert (Lc : Nat.eqb (size (Float64 (msg c))) (cardinality self) = true)
      by (apply Nat.eqb_eq, L; now left).
    rewrite M, Lc. cbn [snd]. rewrite IH.
    + reflexivity.
    + intros c' Hc'. cbn [lambda_received_msgs set_lambda_received_msgs].
      rewrite dict_keys_set_mem by now apply dict_mem_In.
      apply K. now right.
    + intros c' Hc'. cbn [cardinality set_lambda_received_msgs].
      apply L. now right.
Qed.

Lemma run_pi_deposits (msg : label -> Np.ndarray) (ps : list label)
    (self : Node) :
  (forall p, In p ps -> In p (dict_keys (pi_received_msgs self))) ->
  (forall p, In p ps -> List.length (msg p) = cardinality self) ->
  run_all (pi_deposits msg ps) self
  = set_pi_received_msgs
      (fold_left (fun d k => dict_set d k (Some (Float64 (msg k)))) ps
                 (pi_received_msgs self)) self.
Proof.
  revert self. induction ps as [|p ps IH]; intros self K L.
  - simpl. now rewrite set_pi_received_msgs_same.
  - change (run_all (pi_deposits msg (p :: ps)) self)
      with (run_all (pi_deposits msg ps)
              (snd (run (OpUpdatePiMsgFromParent p (PyNdarray (Float64 (msg p))))
                        self))).
    cbn [fold_left]. unfold run. rewrite snd_bind_ret.
    rewrite update_pi_msg_from_parent_eq.
    assert (M : dict_mem (pi_received_msgs self) p = true)
      by (apply dict_mem_In, K; now left).
    assert (Lp : Nat.eqb (size (Float64 (msg p))) (cardinality self) = true)
      by (apply Nat.eqb_eq, L; now left).
    rewrite M, Lp. cbn [snd]. rewrite IH.
    + reflexivity.
    + intros p' Hp'. cbn [pi_received_msgs set_pi_received_msgs].
      rewrite dict_keys_set_mem by now apply dict_mem_In.
      apply K. now right.
    + intros p' Hp'. cbn [cardinality set_pi_received_msgs].
      apply L. now right.
Qed.

Lemma lambda_deposits_numeric (msg : label -> Np.ndarray) (cs : list label) :
  forallb numeric_op (lambda_deposits msg cs) = true.
Proof. induction cs as [|c cs IH]; [reflexivity | exact IH]. Qed.

Lemma pi_deposits_numeric (msg : label -> Np.ndarray) (ps : list label) :
  forallb numeric_op (pi_deposits msg ps) = true.
Proof. induction ps as [|p ps IH]; [reflexivity | exact IH]. Qed.

(** A mailbox all of whose declared neighbours have had [msg] stored. *)
Lemma received_after_deposits (n : nat) (msg : label -> Np.ndarray)
    (keys : list label) (d : mailbox) :
  wf_mailbox n keys d = true ->
  (forall k, In k keys -> List.length (msg k) = n) ->
  let d' :=
    fold_left (fun d k => dict_set d k (Some (Float64 (msg k)))) keys d in
  wf_mailbox n keys d' = true
  /\ existsb is_None (dict_values d') = false
  /\ received (dict_values d')
     = map Float64 (map msg (neighbours keys)).
Proof.
  intros W L d'.
  assert (K : dict_keys d' = dict_keys d).
  { apply (dict_keys_fold_set (fun k => Float64 (msg k))). intros k Hk.
    now apply (wf_mailbox_In _ _ _ k W). }
  assert (G : forall k, In k keys ->
                        dict_get d' k = Some (Some (Float64 (msg k)))).
  { intros k Hk. unfold d'.
    rewrite (dict_get_fold_set (fun k => Float64 (msg k))).
    apply existsb_eqb_In in Hk. now rewrite Hk. }
  assert (ND : NoDup (dict_keys d')).
  { rewrite K. eapply wf_mailbox_NoDup; eassumption. }
  assert (E : existsb is_None (dict_values d') = false).
  { destruct (existsb is_None (dict_values d')) eqn:E; [|reflexivity].
    apply (unset_slot_iff d' ND) in E as (k & Gk).
    assert (Hk : In k keys).
    { apply (wf_mailbox_In _ _ _ k W). rewrite <- K.
      eapply dict_get_In_keys; eassumption. }
    rewrite (G k Hk) in Gk. discriminate. }
  pose proof W as W0. apply wf_mailbox_spec in W0 as [Kd _].
  assert (WV : forallb (slot_ok n) (dict_values d') = true).
  { apply forallb_forall. intros o Ho.
    apply In_dict_values in Ho as (k & Ho).
    pose proof (In_dict_get _ _ _ ND Ho) as Gk.
    assert (Hk : In k keys).
    { apply (wf_mailbox_In _ _ _ k W). rewrite <- K.
      eapply dict_get_In_keys; eassumption. }
    rewrite (G k Hk) in Gk. inversion Gk; subst o.
    apply Nat.eqb_eq. now apply L. }
  split; [|split; [assumption|]].
  - apply wf_mailbox_spec. split; [congruence | assumption].
  - rewrite (received_by_keys n d' ND WV E), K, Kd. f_equal.
    apply map_ext_in. intros k Hk.
    apply (proj1 (neighbours_In keys k)) in Hk.
    unfold msg_of. now rewrite (G k Hk).
Qed.

(** X7.  Once every declared child of a node has deposited a message of
    the node's cardinality, in the order of [children] and with repeated
    names allowed, [compute_lambda_agg] returns the elementwise product of
    the messages of the distinct children and stores it in [lambda_agg]. *)
Theorem deposits_then_compute_lambda_agg (self : Node)
    (msg : label -> Np.ndarray) :
  wf_node self = true -> children self <> [] ->
  (forall c, In c (children self) -> List.length (msg c) = cardinality self) ->
  let self' := run_all (lambda_deposits msg (children self)) self in
  let v := elementwise_product (cardinality self)
             (map msg (neighbours (children self))) in
  fst (compute_lambda_agg self') = Ok (Some (Float64 v))
  /\ lambda_agg (snd (compute_lambda_agg self')) = Some (Float64 v).
Proof.
  intros W N L. cbn zeta.
  pose proof W as W0. apply wf_node_spec in W0 as (_ & WL & _).
  assert (K : forall c, In c (children self) ->
                        In c (dict_keys (lambda_received_msgs self))).
  { intros c Hc. now apply (wf_mailbox_In _ _ _ c WL). }
  destruct (received_after_deposits _ msg _ _ WL L) as (WL' & E & R).
  pose proof (wf_run_all (lambda_deposits msg (children self)) self
                (lambda_deposits_numeric msg _) W) as W'.
  rewrite (run_lambda_deposits msg (children self) self K L) in *.
  rewrite (compute_lambda_agg_wf _ W') by exact N.
  cbn [lambda_received_msgs set_lambda_received_msgs cardinality].
  rewrite E, R, numbers_map_Float64. split; reflexivity.
Qed.

(** The three children of the generic node deposit their messages and the
    aggregate is the product [[0.006000000000000001, 0]]. *)
Lemma deposits_then_compute_lambda_agg_witness :
  wf_node Fixtures.fresh_three = true
  /\ fst (compute_lambda_agg
            (run_all
               (lambda_deposits Fixtures.three_msg
                                (children Fixtures.fresh_three))
               Fixtures.fresh_three))
     = Ok (Some (Float64 [0.006000000000000001; 0]%float)).
Proof.
  split; [reflexivity|].
  rewrite (proj1 (deposits_then_compute_lambda_agg Fixtures.fresh_three
                    Fixtures.three_msg eq_refl
                    ltac:(discriminate)
                    ltac:(intros c _; unfold Fixtures.three_msg;
                          destruct (String.eqb c "c1");
                          [|destruct (String.eqb c "c2")]; reflexivity))).
  reflexivity.
Defined.

(** X8.  Once every declared parent of a Bernoulli-OR node has deposited a
    message of two components, [compute_pi_agg] returns and stores
    [[p0, 1 - p0]] with [p0] the product of component 0 of the messages of
    the distinct parents. *)
Theorem deposits_then_compute_pi_agg (self : Node)
    (msg : label -> Np.ndarray) :
  wf_node self = true -> class_of self = BernoulliOrNodeClass ->
  parents self <> [] ->
  (forall p, In p (parents self) -> List.length (msg p) = 2) ->
  let self' := run_all (pi_deposits msg (parents self)) self in
  let p0 := product (map (fun p => component0 (msg p))
                         (neighbours (parents self))) in
  fst (compute_pi_agg self') = Ok (Some [p0; Np.sub Np.one p0])
  /\ pi_agg (snd (compute_pi_agg self')) = Some [p0; Np.sub Np.one p0].
Proof.
  intros W C N L. cbn zeta.
  pose proof W as W0. apply wf_node_spec in W0 as (WP & _ & _ & _ & C2 & _).
  specialize (C2 C). rewrite <- C2 in L.
  assert (K : forall p, In p (parents self) ->
                        In p (dict_keys (pi_received_msgs self))).
  { intros p Hp. now apply (wf_mailbox_In _ _ _ p WP). }
  destruct (received_after_deposits _ msg _ _ WP L) as (WP' & E & R).
  pose proof (wf_run_all (pi_deposits msg (parents self)) self
                (pi_deposits_numeric msg _) W) as W'.
  rewrite (run_pi_deposits msg (parents self) self K L) in *.
  rewrite (BernoulliOrNode_compute_pi_agg_wf _ W') by assumption.
  cbn [pi_received_msgs set_pi_received_msgs].
  rewrite E, R, numbers_map_Float64, map_map. split; reflexivity.
Qed.

(** Scenario B again, from a fresh node: the two parents deposit
    [[0.4, 0.6]] and [[0.5, 0.5]] and [pi_agg] is [[0.2, 0.8]]. *)
Lemma deposits_then_compute_pi_agg_witness :
  wf_node Fixtures.two_parents = true
  /\ fst (compute_pi_agg
            (run_all
               (pi_deposits Fixtures.two_msg
                            (parents Fixtures.two_parents))
               Fixtures.two_parents))
     = Ok (Some [0.2; 0.8]%float).
Proof.
  split; [reflexivity|].
  rewrite (proj1 (deposits_then_compute_pi_agg Fixtures.two_parents
                    Fixtures.two_msg eq_refl eq_refl
                    ltac:(discriminate)
                    ltac:(intros p _; unfold Fixtures.two_msg;
                          destruct (String.eqb p "a"); reflexivity))).
  reflexivity.
Defined.

(** * Further properties of the Bernoulli-OR node *)

(** ** The message to a parent and that parent's own message *)

Lemma msg_of_set_other (d : mailbox) (k k' : label) (o : option pyarray) :
  k' <> k -> msg_of (dict_set d k o) k' = msg_of d k'.
Proof. intros N. unfold msg_of. now rewrite dict_get_set_other. Qed.

(** X12.  The lambda message to a parent does not depend on what that
    parent sent.  In a Bernoulli-OR node that holds a pi message from every
    parent, replacing the message of [parent_k] by any other array of two
    components leaves [compute_lambda_msg_to_parent parent_k] as it was. *)
Theorem lambda_msg_ignores_target_parent (self : Node) (parent_k : label)
    (a la : Np.ndarray) :
  wf_node self = true -> class_of self = BernoulliOrNodeClass ->
  lambda_agg self = Some (Float64 la) ->
  all_received (pi_received_msgs self) (parents self) ->
  In parent_k (parents self) -> List.length a = 2 ->
  compute_lambda_msg_to_parent
    (snd (update_pi_msg_from_parent parent_k (PyNdarray (Float64 a)) self))
    parent_k
  = compute_lambda_msg_to_parent self parent_k.
Proof.
  intros W C L A Hk La.
  pose proof (wf_run (OpUpdatePiMsgFromParent parent_k
                        (PyNdarray (Float64 a))) self eq_refl W)
    as W'.
  unfold run in W'. rewrite snd_bind_ret in W'.
  pose proof W as W0. apply wf_node_spec in W0 as (WP & _ & _ & _ & C2 & _).
  specialize (C2 C).
  apply (all_received_iff _ _ _ WP) in A.
  assert (M : dict_mem (pi_received_msgs self) parent_k = true).
  { apply dict_mem_In. now apply (wf_mailbox_In _ _ _ parent_k WP). }
  rewrite update_pi_msg_from_parent_eq in *. rewrite M in *.
  cbn [size] in *.
  rewrite C2 in *. apply Nat.eqb_eq in La. rewrite La in *. cbn [snd] in *.
  destruct (Np.array_equal la (Np.ones 2)) eqn:E.
  - unfold compute_lambda_msg_to_parent,
      BernoulliOrNode_compute_lambda_msg_to_parent.
    cbn [class_of lambda_agg cardinality set_pi_received_msgs].
    rewrite C, L, C2. cbn [array_equal_opt]. now rewrite E.
  - assert (N : la <> Np.ones 2).
    { intros X. apply NpFacts.array_equal_ones_iff in X. congruence. }
    rewrite (compute_lambda_msg_to_parent_wf _ parent_k la W');
      [| exact C | exact L | cbn [cardinality set_pi_received_msgs];
                             now rewrite C2].
    rewrite (compute_lambda_msg_to_parent_wf self parent_k la W C L)
      by now rewrite C2.
    cbn [pi_received_msgs parents set_pi_received_msgs].
    rewrite A, (dict_set_keeps_received _ parent_k (Float64 a) A). cbn zeta.
    assert (P : map (fun k => component0
                                (msg_of (dict_set (pi_received_msgs self)
                                                  parent_k
                                                  (Some (Float64 a))) k))
                    (filter (fun k => negb (String.eqb k parent_k))
                            (neighbours (parents self)))
                = map (fun k => component0 (msg_of (pi_received_msgs self) k))
                      (filter (fun k => negb (String.eqb k parent_k))
                              (neighbours (parents self)))).
    { apply map_ext_in. intros k Hk'. apply filter_In in Hk' as [_ Hk'].
      apply negb_true_iff, String.eqb_neq in Hk'.
      now rewrite msg_of_set_other. }
    now rewrite P.
Qed.

(** With the evidence [[0, 1]], the message to [a] is the same whether [a]
    sent [[0.4, 0.6]] or [[1, 0]]. *)
Lemma lambda_msg_ignores_target_parent_witness :
  wf_node Fixtures.with_evidence = true
  /\ compute_lambda_msg_to_parent
       (snd (update_pi_msg_from_parent "a"
               (Fixtures.vector [1; 0]%float)
               Fixtures.with_evidence)) "a"
     = compute_lambda_msg_to_parent Fixtures.with_evidence "a".
Proof.
  split; [reflexivity|].
  apply (lambda_msg_ignores_target_parent Fixtures.with_evidence "a"
           [1; 0]%float [0; 1]%float);
    try reflexivity.
  - intros k [<- | [<- | []]]; eexists; reflexivity.
  - left. reflexivity.
Defined.


(** * Further properties of the model *)

(** ** Fresh mailboxes and fresh nodes *)

Lemma dict_get_fold_set_None (keys : list label) (d : mailbox) (k : label) :
  dict_get (fold_left (fun d k => dict_set d k None) keys d) k
  = if existsb (String.eqb k) keys then Some None else dict_get d k.
Proof.
  revert d. induction keys as [|k' ks IH]; intros d; simpl; [reflexivity|].
  rewrite IH. destruct (existsb (String.eqb k) ks); [now rewrite orb_true_r|].
  rewrite orb_false_r. destruct (String.eqb k k') eqn:E.
  - apply String.eqb_eq in E. subst. apply dict_get_set_same.
  - apply String.eqb_neq in E. now apply dict_get_set_other.
Qed.

Lemma _init_received_msgs_get (keys : list label) (k : label) :
  dict_get (_init_received_msgs keys) k
  = if existsb (String.eqb k) keys then Some None else None.
Proof. unfold _init_received_msgs. apply dict_get_fold_set_None. Qed.

Lemma _init_received_msgs_unset (keys : list label) :
  keys <> [] ->
  existsb is_None (dict_values (_init_received_msgs keys)) = true.
Proof.
  intros N. destruct keys as [|k keys]; [congruence|].
  apply (unset_slot_iff _ (neighbours_NoDup (k :: keys))).
  exists k. rewrite _init_received_msgs_get. simpl.
  now rewrite String.eqb_refl.
Qed.

(** X16.  A freshly built node has one unset slot for each distinct
    neighbour it was given and none for any other id; it has no aggregate,
    is not fully initialised, and cannot compute: its belief raises
    [AttributeError], and an aggregation over a non-empty neighbour list
    raises [MissingMessage]. *)
Theorem fresh_node_has_nothing (l : label) (cs ps : list label) (c : CPD) :
  let node := BernoulliOrNode_init l cs ps c in
  (forall k, dict_get (pi_received_msgs node) k
             = if existsb (String.eqb k) ps then Some None else None)
  /\ (forall k, dict_get (lambda_received_msgs node) k
                = if existsb (String.eqb k) cs then Some None else None)
  /\ NoDup (dict_keys (pi_received_msgs node))
  /\ NoDup (dict_keys (lambda_received_msgs node))
  /\ is_fully_initialized node = false
  /\ belief node = Raise AttributeError
  /\ (cs <> [] -> compute_lambda_agg node = (Raise (MissingMessage LAMBDA), node))
  /\ (ps <> [] -> compute_pi_agg node = (Raise (MissingMessage PI), node)).
Proof.
  cbn zeta. repeat split.
  - intros k. apply _init_received_msgs_get.
  - intros k. apply _init_received_msgs_get.
  - apply neighbours_NoDup.
  - apply neighbours_NoDup.
  - unfold is_fully_initialized. simpl.
    destruct (existsb is_None _); [reflexivity|].
    destruct (existsb is_None _); reflexivity.
  - intros N. rewrite compute_lambda_agg_cases.
    cbn [children lambda_received_msgs BernoulliOrNode_init].
    apply is_empty_false_iff in N. rewrite N.
    apply is_empty_false_iff in N.
    now rewrite (_init_received_msgs_unset cs N).
  - intros N. rewrite compute_pi_agg_cases.
    cbn [class_of parents pi_received_msgs BernoulliOrNode_init].
    apply is_empty_false_iff in N. rewrite N.
    apply is_empty_false_iff in N.
    now rewrite (_init_received_msgs_unset ps N).
Qed.

(** The fresh node with parents [a] and [b] cannot aggregate its pi
    messages. *)
Lemma fresh_node_has_nothing_witness :
  compute_pi_agg Fixtures.two_parents
  = (Raise (MissingMessage PI), Fixtures.two_parents).
Proof.
  apply (fresh_node_has_nothing "y"%string [] ["a"; "b"]%string
           Fixtures.cpd_with_parents).
  discriminate.
Defined.

(** ** The edges of a set of nodes *)

Lemma NoDup_set_add {A} (eqb : A -> A -> bool)
    (eqb_eq : forall x y, eqb x y = true <-> x = y) (s : list A) (x : A) :
  NoDup s -> NoDup (set_add eqb s x).
Proof.
  intros ND. unfold set_add. destruct (existsb (eqb x) s) eqn:E.
  - assumption.
  - apply NoDup_app; [assumption | repeat constructor; intros [] |].
    intros y Hy [<- | []].
    assert (X : existsb (eqb x) s = true).
    { apply existsb_exists. exists x. split; [assumption|].
      now apply eqb_eq. }
    congruence.
Qed.

Lemma NoDup_set_update {A} (eqb : A -> A -> bool)
    (eqb_eq : forall x y, eqb x y = true <-> x = y) (xs s : list A) :
  NoDup s -> NoDup (set_update eqb s xs).
Proof.
  unfold set_update. revert s. induction xs as [|x xs IH]; intros s ND; simpl.
  - assumption.
  - apply IH. now apply NoDup_set_add.
Qed.

Lemma _get_edges_from_nodes_NoDup (nodes : list Node) :
  NoDup (_get_edges_from_nodes nodes).
Proof.
  unfold _get_edges_from_nodes.
  assert (G : forall acc, NoDup acc ->
              NoDup (fold_left
                 (fun edges node =>
                    if negb (is_empty (parents node)) then
                      set_update edge_eqb edges
                        (combine (parents node)
                           (repeat (label_id node)
                                   (List.length (parents node))))
                    else edges) nodes acc)).
  { induction nodes as [|n nodes IH]; intros acc ND; simpl; [assumption|].
    apply IH. destruct (negb _); [|assumption].
    now apply NoDup_set_update; [apply edge_eqb_eq|]. }
  apply G. constructor.
Qed.

(** X17.  [_get_edges_from_nodes] returns each edge once, and [(p, c)] is
    among them exactly when some node labelled [c] lists [p] among its
    parents; the [children] declarations play no part: replacing them by
    anything gives the same edges. *)
Theorem edges_from_nodes_spec (nodes : list Node) :
  NoDup (_get_edges_from_nodes nodes)
  /\ (forall p c,
         In (p, c) (_get_edges_from_nodes nodes) <->
         exists node, In node nodes /\ label_id node = c
                      /\ In p (parents node))
  /\ (forall f : Node -> list label,
         _get_edges_from_nodes
           (map (fun n => mkNode (class_of n) (label_id n) (f n) (parents n)
                                 (cardinality n) (cpd n) (pi_agg n)
                                 (lambda_agg n) (pi_received_msgs n)
                                 (lambda_received_msgs n)) nodes)
         = _get_edges_from_nodes nodes).
Proof.
  split; [|split].
  - apply _get_edges_from_nodes_NoDup.
  - intros p c. apply _get_edges_from_nodes_In.
  - intros f. unfold _get_edges_from_nodes.
    generalize (@nil edge) as acc.
    induction nodes as [|n nodes IH]; intros acc; simpl; [reflexivity|].
    apply IH.
Qed.

(** ** Models built from edges *)

Lemma successors_In (edges : list edge) (l c : label) :
  In c (successors edges l) <-> In (l, c) edges.
Proof.
  unfold successors. rewrite (set_update_In String.eqb String.eqb_eq).
  rewrite in_map_iff. split.
  - intros [[] | ([p c'] & E & H)]. simpl in E. subst c'.
    apply filter_In in H as [H Ep]. simpl in Ep.
    apply String.eqb_eq in Ep. now subst.
  - intros H. right. exists (l, c). split; [reflexivity|].
    apply filter_In. split; [assumption|]. apply String.eqb_refl.
Qed.

Lemma predecessors_In (edges : list edge) (l p : label) :
  In p (predecessors edges l) <-> In (p, l) edges.
Proof.
  unfold predecessors. rewrite (set_update_In String.eqb String.eqb_eq).
  rewrite in_map_iff. split.
  - intros [[] | ([p' c] & E & H)]. simpl in E. subst p'.
    apply filter_In in H as [H Ec]. simpl in Ec.
    apply String.eqb_eq in Ec. now subst.
  - intros H. right. exists (p, l). split; [reflexivity|].
    apply filter_In. split; [assumption|]. apply String.eqb_refl.
Qed.

Lemma edge_labels_In (edges : list edge) (l : label) :
  In l (edge_labels edges) <->
  exists e, In e edges /\ (l = fst e \/ l = snd e).
Proof.
  unfold edge_labels. rewrite (set_update_In String.eqb String.eqb_eq).
  rewrite in_flat_map. simpl. split.
  - intros [[] | (e & He & [<- | [<- | []]])]; eauto.
  - intros (e & He & [-> | ->]); right; exists e; auto.
Qed.

Lemma edge_labels_NoDup (edges : list edge) : NoDup (edge_labels edges).
Proof.
  apply NoDup_set_update; [apply String.eqb_eq | constructor].
Qed.

Lemma dict_set_new {V} (d : dict V) (k : label) (v : V) :
  ~ In k (dict_keys d) -> dict_set d k v = d ++ [(k, v)].
Proof.
  induction d as [|[k' v'] d IH]; simpl; [reflexivity|].
  intros H. destruct (String.eqb k' k) eqn:E.
  - apply String.eqb_eq in E. tauto.
  - f_equal. apply IH. tauto.
Qed.

(** Nodes with distinct labels are stored in the order they come. *)
Lemma dict_by_label_id_distinct (nodes : list Node) :
  NoDup (map label_id nodes) ->
  dict_by_label_id nodes = map (fun n => (label_id n, n)) nodes.
Proof.
  unfold dict_by_label_id.
  assert (G : forall d,
             NoDup (map label_id nodes) ->
             (forall n, In n nodes -> ~ In (label_id n) (dict_keys d)) ->
             fold_left (fun d node => dict_set d (label_id node) node) nodes d
             = d ++ map (fun n => (label_id n, n)) nodes).
  { induction nodes as [|n nodes IH]; intros d ND H; simpl.
    - now rewrite app_nil_r.
    - inversion ND as [|? ? Hn ND']; subst.
      rewrite dict_set_new by (apply H; now left).
      rewrite IH; [now rewrite <- app_assoc | assumption |].
      intros n' Hn'. unfold dict_keys. rewrite map_app, in_app_iff. simpl.
      intros [X | [X | []]].
      + apply (H n'); [now right | assumption].
      + apply Hn. rewrite X. now apply in_map. }
  intros ND. now apply (G [] ND).
Qed.

Lemma dict_get_map_keys {V} (f : label -> V) (ks : list label) (k : label) :
  dict_get (map (fun l => (l, f l)) ks) k
  = if existsb (String.eqb k) ks then Some (f k) else None.
Proof.
  induction ks as [|k' ks IH]; simpl; [reflexivity|].
  rewrite (String.eqb_sym k k').
  destruct (String.eqb k' k) eqn:E; simpl; [|assumption].
  apply String.eqb_eq in E. now subst.
Qed.

(** The dictionary of [init_from_edges], read off the labels. *)
Lemma init_from_edges_nodes_dict (edges : list edge)
    (node_class : label -> list label -> list label -> Node) :
  (forall l cs ps, label_id (node_class l cs ps) = l) ->
  nodes_dict (init_from_edges edges node_class)
  = map (fun l => (l, node_class l (successors edges l)
                                 (predecessors edges l)))
        (edge_labels edges).
Proof.
  intros H. unfold init_from_edges. cbn [nodes_dict BeliefUpdateNodeModel_init].
  rewrite dict_by_label_id_distinct.
  - rewrite map_map. apply map_ext. intros l. now rewrite H.
  - rewrite map_map.
    rewrite (map_ext _ (fun l => l)) by (intros l; apply H).
    rewrite map_id. apply edge_labels_NoDup.
Qed.

(** X18.  [init_from_edges] builds one node for each distinct end point of
    the edges and no other: the node stored under a label is the one the
    node class returns for that label, with the heads of the edges out of it
    as children and the tails of the edges into it as parents, each
    once. *)
Theorem init_from_edges_spec (edges : list edge)
    (node_class : label -> list label -> list label -> Node) :
  (forall l cs ps, label_id (node_class l cs ps) = l) ->
  let model := init_from_edges edges node_class in
  NoDup (dict_keys (nodes_dict model))
  /\ (forall l, In l (dict_keys (nodes_dict model)) <->
                exists e, In e edges /\ (l = fst e \/ l = snd e))
  /\ (forall l node,
         dict_get (nodes_dict model) l = Some node ->
         node = node_class l (successors edges l) (predecessors edges l))
  /\ (forall l c, In c (successors edges l) <-> In (l, c) edges)
  /\ (forall l p, In p (predecessors edges l) <-> In (p, l) edges)
  /\ (forall l, NoDup (successors edges l) /\ NoDup (predecessors edges l)).
Proof.
  intros H. cbn zeta. rewrite (init_from_edges_nodes_dict edges node_class H).
  assert (K : dict_keys
                (map (fun l => (l, node_class l (successors edges l)
                                              (predecessors edges l)))
                     (edge_labels edges)) = edge_labels edges).
  { unfold dict_keys. rewrite map_map. simpl. apply map_id. }
  rewrite K. repeat split.
  - apply edge_labels_NoDup.
  - apply edge_labels_In.
  - apply edge_labels_In.
  - intros l node G. rewrite dict_get_map_keys in G.
    destruct (existsb _ _); [now injection G as <- | discriminate].
  - apply successors_In.
  - apply successors_In.
  - apply predecessors_In.
  - apply predecessors_In.
  - apply NoDup_set_update; [apply String.eqb_eq | constructor].
  - apply NoDup_set_update; [apply String.eqb_eq | constructor].
Qed.

(** In the model of the triangle [X -> Y], [X -> Z], [Y -> Z] the node [Z]
    has the parents [X] and [Y] and no child. *)
Lemma init_from_edges_spec_witness :
  exists node,
    dict_get (nodes_dict Fixtures.triangle_model) "Z" = Some node
    /\ parents node = ["X"; "Y"]%string
    /\ children node = [].
Proof.
  eexists. split; [reflexivity|].
  rewrite (proj1 (proj2 (proj2
             (init_from_edges_spec Fixtures.triangle
                (BernoulliOrNode_class Fixtures.cpd_of)
                (fun _ _ _ => eq_refl))))
             "Z"%string _ eq_refl).
  split; reflexivity.
Defined.

Lemma init_from_edges_get (edges : list edge)
    (node_class : label -> list label -> list label -> Node) (l : label) :
  (forall l cs ps, label_id (node_class l cs ps) = l) ->
  In l (edge_labels edges) ->
  dict_get (nodes_dict (init_from_edges edges node_class)) l
  = Some (node_class l (successors edges l) (predecessors edges l)).
Proof.
  intros H Hl. rewrite (init_from_edges_nodes_dict edges node_class H).
  rewrite dict_get_map_keys. apply existsb_eqb_In in Hl. now rewrite Hl.
Qed.

Lemma init_from_edges_is_consistent (edges : list edge)
    (node_class : label -> list label -> list label -> Node) :
  (forall l cs ps,
      label_id (node_class l cs ps) = l
      /\ children (node_class l cs ps) = cs
      /\ parents (node_class l cs ps) = ps) ->
  consistent (nodes_dict (init_from_edges edges node_class)) = true.
Proof.
  intros H.
  assert (Hl : forall l cs ps, label_id (node_class l cs ps) = l)
    by (intros; apply H).
  unfold consistent. apply andb_true_iff. split.
  - apply no_dup_NoDup.
    rewrite (init_from_edges_nodes_dict edges node_class Hl).
    unfold dict_keys. rewrite map_map. simpl. rewrite map_id.
    apply edge_labels_NoDup.
  - apply forallb_forall. intros [k node] Hin.
    rewrite (init_from_edges_nodes_dict edges node_class Hl) in Hin.
    apply in_map_iff in Hin as (l & E & Hlab). injection E as <- <-.
    destruct (H l (successors edges l) (predecessors edges l))
      as (E1 & E2 & E3).
    rewrite E1, E2, E3, String.eqb_refl. cbn [andb].
    apply andb_true_iff. split; apply forallb_forall.
    + intros p Hp. apply predecessors_In in Hp.
      assert (Lp : In p (edge_labels edges))
        by (apply edge_labels_In; exists (p, l); auto).
      rewrite (init_from_edges_get edges node_class p Hl Lp).
      destruct (H p (successors edges p) (predecessors edges p))
        as (_ & -> & _).
      apply existsb_eqb_In. now apply successors_In.
    + intros c Hc. apply successors_In in Hc.
      assert (Lc : In c (edge_labels edges))
        by (apply edge_labels_In; exists (l, c); auto).
      rewrite (init_from_edges_get edges node_class c Hl Lc).
      destruct (H c (successors edges c) (predecessors edges c))
        as (_ & _ & ->).
      apply existsb_eqb_In. now apply predecessors_In.
Qed.

(** X19.  A model built by [init_from_edges], with a node class that keeps
    the label, children and parents it is given, has declarations that
    agree; the edges its constructor derives from the nodes are exactly the
    edges it was built from; and [set_boundary_conditions] returns on it
    without raising. *)
Theorem init_from_edges_round_trip (edges : list edge)
    (node_class : label -> list label -> list label -> Node) :
  (forall l cs ps,
      label_id (node_class l cs ps) = l
      /\ children (node_class l cs ps) = cs
      /\ parents (node_class l cs ps) = ps) ->
  let model := init_from_edges edges node_class in
  consistent (nodes_dict model) = true
  /\ (forall p c, In (p, c) (graph_edges model) <-> In (p, c) edges)
  /\ NoDup (graph_edges model)
  /\ fst (set_boundary_conditions model) = Ok tt.
Proof.
  intros H. cbn zeta.
  assert (Hl : forall l cs ps, label_id (node_class l cs ps) = l)
    by (intros; apply H).
  pose proof (init_from_edges_is_consistent edges node_class H) as C.
  split; [assumption|]. split; [|split].
  - intros p c. unfold init_from_edges at 1.
    cbn [graph_edges BeliefUpdateNodeModel_init].
    fold (nodes_dict (init_from_edges edges node_class)).
    change (dict_by_label_id _)
      with (nodes_dict (init_from_edges edges node_class)).
    rewrite _get_edges_from_nodes_In. split.
    + intros (node & Hn & El & Hp).
      apply In_dict_values in Hn as (k & Hn).
      rewrite (init_from_edges_nodes_dict edges node_class Hl) in Hn.
      apply in_map_iff in Hn as (l & E & _). injection E as <- <-.
      destruct (H l (successors edges l) (predecessors edges l))
        as (E1 & _ & E3).
      rewrite E1 in El. subst c. rewrite E3 in Hp.
      now apply predecessors_In.
    + intros Hpc.
      assert (Lc : In c (edge_labels edges))
        by (apply edge_labels_In; exists (p, c); auto).
      exists (node_class c (successors edges c) (predecessors edges c)).
      destruct (H c (successors edges c) (predecessors edges c))
        as (E1 & _ & E3).
      repeat split.
      * apply In_dict_values. exists c. apply dict_get_Some_In.
        now apply init_from_edges_get.
      * assumption.
      * rewrite E3. now apply predecessors_In.
  - unfold init_from_edges. cbn [graph_edges BeliefUpdateNodeModel_init].
    apply _get_edges_from_nodes_NoDup.
  - unfold init_from_edges in *. cbn [nodes_dict BeliefUpdateNodeModel_init] in C.
    now rewrite (proj1 (set_boundary_conditions_consistent _ C)).
Qed.

(** The model of the triangle has exactly the three edges it was built
    from. *)
Lemma init_from_edges_round_trip_witness :
  consistent (nodes_dict Fixtures.triangle_model) = true
  /\ (In ("X", "Z")%string (graph_edges Fixtures.triangle_model)
      <-> In ("X", "Z")%string Fixtures.triangle).
Proof.
  destruct (init_from_edges_round_trip Fixtures.triangle
              (BernoulliOrNode_class Fixtures.cpd_of)
              (fun _ _ _ => conj eq_refl (conj eq_refl eq_refl)))
    as (C & E & _).
  split; [exact C | apply E].
Defined.

(** ** Boundary conditions again *)

(** X20.  In a model built by [init_from_edges] from Bernoulli-OR nodes,
    [set_boundary_conditions] returns; afterwards the node of a label has
    its prior as [pi_agg] exactly when no edge enters the label, and ones
    as [lambda_agg] exactly when no edge leaves it, the other aggregates
    being still absent; and the model is not fully initialised unless it is
    empty: boundary conditions alone never complete a model that has an
    edge. *)
Theorem boundary_conditions_after_init_from_edges (edges : list edge)
    (bernoulli_or_cpd : label -> list label -> CPD) :
  let model :=
    init_from_edges edges (BernoulliOrNode_class bernoulli_or_cpd) in
  let after := snd (set_boundary_conditions model) in
  fst (set_boundary_conditions model) = Ok tt
  /\ (forall l, In l (edge_labels edges) ->
        exists node,
          dict_get (nodes_dict after) l = Some node
          /\ pi_agg node
             = (if is_empty (predecessors edges l)
                then Some (values (bernoulli_or_cpd l []))
                else None)
          /\ lambda_agg node
             = (if is_empty (successors edges l)
                then Some (Float64 (Np.ones 2)) else None))
  /\ all_nodes_are_fully_initialized after = is_empty edges.
Proof.
  cbn zeta.
  set (nc := BernoulliOrNode_class bernoulli_or_cpd).
  assert (H : forall l cs ps,
             label_id (nc l cs ps) = l /\ children (nc l cs ps) = cs
             /\ parents (nc l cs ps) = ps)
    by (intros; repeat split).
  assert (Hl : forall l cs ps, label_id (nc l cs ps) = l) by (intros; apply H).
  pose proof (init_from_edges_is_consistent edges nc H) as C.
  assert (M : init_from_edges edges nc
              = BeliefUpdateNodeModel_init
                  (nodes_dict (init_from_edges edges nc))) by reflexivity.
  destruct (set_boundary_conditions_consistent _ C) as (E & G).
  rewrite <- M in E. rewrite E. cbn [fst snd nodes_dict set_nodes_dict].
  assert (B : forall l, In l (edge_labels edges) ->
              dict_get
                (update_at (get_leaves (init_from_edges edges nc))
                   (fun node =>
                      set_lambda_agg
                        (Some (Float64 (Np.ones (cardinality node)))) node)
                   (update_at (get_roots (init_from_edges edges nc))
                      (fun node => set_pi_agg (Some (values (cpd node))) node)
                      (nodes_dict (init_from_edges edges nc)))) l
              = Some (boundary (nc l (successors edges l)
                                   (predecessors edges l)))).
  { intros l Hlab. rewrite M at 1 2. apply G.
    now apply init_from_edges_get. }
  split; [reflexivity|]. split.
  - intros l Hlab. eexists. split; [apply (B l Hlab)|].
    unfold boundary, nc, BernoulliOrNode_class, BernoulliOrNode_init.
    cbn [parents children cardinality cpd values].
    destruct (predecessors edges l) as [|p ps] eqn:Ep,
             (successors edges l) as [|c cs] eqn:Ec;
      cbn [is_empty]; split; reflexivity.
  - unfold all_nodes_are_fully_initialized. cbn [nodes_dict].
    destruct edges as [|[p c] edges'] eqn:Ee.
    + reflexivity.
    + cbn [is_empty]. rewrite <- Ee in *.
      assert (Hp : In p (edge_labels edges)).
      { apply edge_labels_In. exists (p, c). rewrite Ee. simpl. auto. }
      destruct (forallb is_fully_initialized _) eqn:F; [|reflexivity].
      exfalso. rewrite forallb_forall in F.
      specialize (F (boundary (nc p (successors edges p)
                                  (predecessors edges p)))).
      assert (X : is_fully_initialized
                    (boundary (nc p (successors edges p)
                                  (predecessors edges p))) = false).
      { assert (S : successors edges p <> []).
        { intros X. assert (Hc : In c (successors edges p)).
          { apply successors_In. rewrite Ee. now left. }
          rewrite X in Hc. destruct Hc. }
        unfold is_fully_initialized, _return_msgs_received_for_msg_type.
        assert (U : existsb is_None
                      (dict_values
                         (lambda_received_msgs
                            (boundary (nc p (successors edges p)
                                          (predecessors edges p))))) = true).
        { unfold boundary.
          destruct (is_empty (parents _)), (is_empty (children _));
            cbn [lambda_received_msgs set_lambda_agg set_pi_agg nc
                 BernoulliOrNode_class BernoulliOrNode_init];
            now apply _init_received_msgs_unset. }
        now rewrite U. }
      rewrite F in X; [discriminate|].
      apply In_dict_values. exists p. apply dict_get_Some_In. apply B, Hp.
Qed.

(** In the model of the triangle, after the boundary conditions, [X] has
    its prior and no [lambda_agg], and the model is not fully
    initialised. *)
Lemma boundary_conditions_after_init_from_edges_witness :
  all_nodes_are_fully_initialized
    (snd (set_boundary_conditions Fixtures.triangle_model)) = false.
Proof.
  exact (proj2 (proj2 (boundary_conditions_after_init_from_edges
                         Fixtures.triangle Fixtures.cpd_of))).
Defined.

Lemma first_missing (keys roots : list label) :
  (exists r, In r roots /\ ~ In r keys) ->
  exists l1 r l2,
    roots = l1 ++ r :: l2
    /\ (forall k, In k l1 -> In k keys)
    /\ ~ In r keys.
Proof.
  induction roots as [|x roots IH]; intros (r & Hr & Hn); [destruct Hr|].
  destruct (in_dec string_dec x keys) as [Hx | Hx].
  - destruct IH as (l1 & r' & l2 & E & K & N).
    { destruct Hr as [-> | Hr]; [contradiction | eauto]. }
    exists (x :: l1), r', l2. rewrite E. repeat split; [|assumption].
    intros k [<- | Hk]; auto.
  - exists [], x, roots. repeat split; [|assumption]. intros k [].
Qed.

(** A loop that meets a key the dictionary does not have. *)
Lemma for_each_assign_missing (g : Node -> Node) (l1 l2 : list label)
    (r : label) (self : BeliefUpdateNodeModel) :
  (forall n, g (g n) = g n) ->
  NoDup (dict_keys (nodes_dict self)) ->
  (forall k, In k l1 -> In k (dict_keys (nodes_dict self))) ->
  ~ In r (dict_keys (nodes_dict self)) ->
  for_each (l1 ++ r :: l2) (fun k => assign_node_attr k g) self
  = (Raise (KeyError r),
     set_nodes_dict (update_at l1 g (nodes_dict self)) self).
Proof.
  intros I. revert self. induction l1 as [|k l1 IH]; intros self ND K N.
  - cbn [app for_each]. unfold bind at 1.
    unfold assign_node_attr, bind, query, dict_getitem.
    rewrite (proj2 (dict_get_None _ _) N).
    now rewrite update_at_nil, set_nodes_dict_same.
  - cbn [app for_each]. unfold bind at 1.
    destruct (In_keys_dict_get _ _ (K k (or_introl eq_refl))) as (node & G).
    unfold assign_node_attr at 1, bind, query, assign, dict_getitem.
    rewrite G. rewrite (dict_set_update_at g _ _ _ ND G).
    rewrite IH.
    + cbn [nodes_dict set_nodes_dict graph_edges graph_variables].
      now rewrite update_at_cons.
    + cbn [nodes_dict set_nodes_dict]. now rewrite dict_keys_update_at.
    + cbn [nodes_dict set_nodes_dict]. intros k' Hk'.
      rewrite dict_keys_update_at. apply K. now right.
    + cbn [nodes_dict set_nodes_dict]. now rewrite dict_keys_update_at.
Qed.

(** X21.  If a node names a parent that is neither a key of the model nor
    the label of one of its nodes, [set_boundary_conditions] raises
    [KeyError] for a label the model does not have.  The loop over the
    leaves is not reached: no [lambda_agg] is assigned; the roots visited
    before the failure keep the [pi_agg] just assigned to them. *)
Theorem set_boundary_conditions_unknown_parent (nodes : dict Node)
    (node : Node) (p : label) :
  NoDup (dict_keys nodes) ->
  In node (dict_values nodes) -> In p (parents node) ->
  ~ In p (dict_keys nodes) ->
  (forall n, In n (dict_values nodes) -> label_id n <> p) ->
  exists r nodes',
    ~ In r (dict_keys nodes)
    /\ set_boundary_conditions (BeliefUpdateNodeModel_init nodes)
       = (Raise (KeyError r),
          set_nodes_dict nodes' (BeliefUpdateNodeModel_init nodes))
    /\ forall k n,
        dict_get nodes k = Some n ->
        exists n',
          dict_get nodes' k = Some n'
          /\ lambda_agg n' = lambda_agg n
          /\ (pi_agg n' = pi_agg n \/ pi_agg n' = Some (values (cpd n))).
Proof.
  intros ND Hn Hp Hk Hl.
  set (model := BeliefUpdateNodeModel_init nodes).
  assert (R : In p (get_roots model)).
  { unfold get_roots. apply filter_In. split.
    - apply graph_vertices_In. left. exists (p, label_id node).
      split; [|simpl; auto]. unfold model. cbn [graph_edges BeliefUpdateNodeModel_init].
      apply _get_edges_from_nodes_In. exists node. auto.
    - apply negb_true_iff.
      destruct (existsb _ _) eqn:E; [|reflexivity]. exfalso.
      apply existsb_exists in E as ([p' c] & He & Ec). simpl in Ec.
      apply String.eqb_eq in Ec. subst c.
      unfold model in He. cbn [graph_edges BeliefUpdateNodeModel_init] in He.
      apply _get_edges_from_nodes_In in He as (n & Hn' & El & _).
      now apply (Hl n). }
  destruct (first_missing (dict_keys nodes) (get_roots model))
    as (l1 & r & l2 & E & K & N); [eauto|].
  exists r.
  exists (update_at l1 (fun node => set_pi_agg (Some (values (cpd node))) node)
                    nodes).
  split; [assumption|]. split.
  - unfold set_boundary_conditions. unfold bind at 1, read at 1.
    unfold bind at 1. rewrite E.
    rewrite for_each_assign_missing; try assumption; reflexivity.
  - intros k n G. rewrite dict_get_update_at, G. cbn [option_map].
    eexists. split; [reflexivity|].
    destruct (existsb (String.eqb k) l1); cbn [set_pi_agg lambda_agg pi_agg];
      auto.
Qed.

(** The model whose only node names the parent [ghost] cannot be given
    boundary conditions. *)
Lemma set_boundary_conditions_unknown_parent_witness :
  exists r,
    ~ In r (dict_keys Fixtures.dangling)
    /\ fst (set_boundary_conditions
              (BeliefUpdateNodeModel_init Fixtures.dangling))
       = Raise (KeyError r).
Proof.
  destruct (set_boundary_conditions_unknown_parent Fixtures.dangling
              (BernoulliOrNode_init "Y" [] ["ghost"]%string
                 Fixtures.cpd_with_parents) "ghost")
    as (r & nodes' & N & E & _).
  - repeat constructor. intros [].
  - left. reflexivity.
  - left. reflexivity.
  - intros [X | []]. discriminate.
  - intros n [<- | []]. discriminate.
  - exists r. split; [assumption|]. now rewrite E.
Defined.

(** X22.  [set_boundary_conditions] is idempotent on a model whose
    declarations agree: called a second time it returns again and leaves
    the model as the first call left it. *)
Theorem set_boundary_conditions_idempotent (nodes : dict Node) :
  consistent nodes = true ->
  let after :=
    snd (set_boundary_conditions (BeliefUpdateNodeModel_init nodes)) in
  set_boundary_conditions after = (Ok tt, after).
Proof.
  intros C. cbn zeta.
  destruct (set_boundary_conditions_consistent nodes C) as (E & G).
  rewrite E. cbn [snd].
  set (roots := get_roots (BeliefUpdateNodeModel_init nodes)) in *.
  set (leaves := get_leaves (BeliefUpdateNodeModel_init nodes)) in *.
  set (gr := fun node : Node => set_pi_agg (Some (values (cpd node))) node)
    in *.
  set (gl := fun node : Node =>
               set_lambda_agg
                        (Some (Float64 (Np.ones (cardinality node)))) node) in *.
  set (nodes' := update_at leaves gl (update_at roots gr nodes)) in *.
  destruct (consistent_spec nodes C) as (ND & _).
  assert (K' : dict_keys nodes' = dict_keys nodes)
    by (unfold nodes'; now rewrite !dict_keys_update_at).
  assert (Hr : forall k, In k roots -> In k (dict_keys nodes)).
  { intros k Hk. apply (graph_vertices_are_nodes nodes k C).
    unfold roots, get_roots in Hk. now apply filter_In in Hk. }
  assert (Hv : forall k, In k leaves -> In k (dict_keys nodes)).
  { intros k Hk. apply (graph_vertices_are_nodes nodes k C).
    unfold leaves, get_leaves in Hk. now apply filter_In in Hk. }
  unfold set_boundary_conditions. unfold bind at 1, read at 1.
  unfold bind at 1.
  change (get_roots (set_nodes_dict nodes' (BeliefUpdateNodeModel_init nodes)))
    with roots.
  rewrite for_each_assign_node_attr;
    [| reflexivity
     | cbn [nodes_dict set_nodes_dict]; now rewrite K'
     | cbn [nodes_dict set_nodes_dict]; intros k Hk; rewrite K'; auto].
  unfold bind, read.
  change (get_leaves
            (set_nodes_dict
               (update_at roots
                  (fun node => set_pi_agg (Some (values (cpd node))) node)
                  (nodes_dict
                     (set_nodes_dict nodes'
                        (BeliefUpdateNodeModel_init nodes))))
               (set_nodes_dict nodes' (BeliefUpdateNodeModel_init nodes))))
    with leaves.
  rewrite for_each_assign_node_attr;
    [| reflexivity
     | cbn [nodes_dict set_nodes_dict];
       now rewrite dict_keys_update_at, K'
     | cbn [nodes_dict set_nodes_dict]; intros k Hk;
       rewrite dict_keys_update_at, K'; auto].
  cbn [nodes_dict set_nodes_dict graph_edges graph_variables].
  f_equal. unfold set_nodes_dict. cbn [graph_edges graph_variables]. f_equal.
  fold gr. fold gl. unfold nodes', update_at. rewrite !map_map.
  apply map_ext. intros [k n]. cbn [fst snd]. f_equal.
  unfold gr, gl.
  destruct (existsb (String.eqb k) roots), (existsb (String.eqb k) leaves);
    reflexivity.
Qed.

(** The chain [X -> Y]: a second call changes nothing. *)
Lemma set_boundary_conditions_idempotent_witness :
  consistent Fixtures.chain = true
  /\ set_boundary_conditions
       (snd (set_boundary_conditions
               (BeliefUpdateNodeModel_init Fixtures.chain)))
     = (Ok tt,
        snd (set_boundary_conditions
               (BeliefUpdateNodeModel_init Fixtures.chain))).
Proof.
  split; [reflexivity|].
  exact (set_boundary_conditions_idempotent Fixtures.chain eq_refl).
Defined.

(** * Further error behaviour *)

(** X23.  The failures of [compute_pi_msg_to_child], in the order the code
    meets them, for a node that satisfies the shape invariant: an id that is
    not a declared child gives [KeyError]; a declared child that has sent
    nothing gives [PreconditionNotMet], whatever the aggregates are; then an
    absent [pi_agg] gives [AttributeError]; and a [pi_agg] that is present
    but entirely zero makes the belief [None] and the division a
    [TypeError]. *)
Theorem compute_pi_msg_to_child_failures (self : Node) (child_k : label) :
  wf_node self = true ->
  (~ In child_k (children self) ->
   compute_pi_msg_to_child self child_k = Raise (KeyError child_k))
  /\ (dict_get (lambda_received_msgs self) child_k = Some None ->
      compute_pi_msg_to_child self child_k = Raise PreconditionNotMet)
  /\ (forall m,
         dict_get (lambda_received_msgs self) child_k = Some (Some m) ->
         (pi_agg self = None ->
          compute_pi_msg_to_child self child_k = Raise AttributeError)
         /\ (forall p, pi_agg self = Some p -> Np.any p = false ->
               compute_pi_msg_to_child self child_k
               = Raise (TypeError NoneOperand))
         /\ (forall p, pi_agg self = Some p -> Np.any p = true ->
               lambda_agg self = None ->
               compute_pi_msg_to_child self child_k = Raise AttributeError)).
Proof.
  intros W. apply wf_node_spec in W as (_ & WL & _).
  unfold compute_pi_msg_to_child, dict_getitem. repeat split.
  - intros N.
    assert (G : dict_get (lambda_received_msgs self) child_k = None).
    { apply dict_get_None. intros X. apply N.
      now apply (wf_mailbox_In _ _ _ child_k WL). }
    now rewrite G.
  - intros G. now rewrite G.
  - intros E. rewrite H. unfold belief. now rewrite E.
  - intros p E A. rewrite H. unfold belief. now rewrite E, A.
  - intros p E A L. rewrite H. unfold belief. now rewrite E, A, L.
Qed.

(** The fresh node with parents [a] and [b] has no child [c]. *)
Lemma compute_pi_msg_to_child_failures_witness :
  wf_node Fixtures.two_parents = true
  /\ compute_pi_msg_to_child Fixtures.two_parents "c" = Raise (KeyError "c").
Proof.
  split; [reflexivity|].
  apply (compute_pi_msg_to_child_failures Fixtures.two_parents "c" eq_refl).
  intros [].
Defined.

(** X24.  A Bernoulli-OR node whose [lambda_agg] is still absent cannot
    send a lambda message: the call raises [MissingMessage] while a pi
    message is missing, and a [TypeError] once they are all there, since
    [None] cannot be subscripted; it never returns. *)
Theorem lambda_msg_without_lambda_agg (self : Node) (parent_k : label) :
  wf_node self = true -> class_of self = BernoulliOrNodeClass ->
  lambda_agg self = None ->
  (some_unset (pi_received_msgs self) (parents self) ->
   compute_lambda_msg_to_parent self parent_k = Raise (MissingMessage PI))
  /\ (all_received (pi_received_msgs self) (parents self) ->
      compute_lambda_msg_to_parent self parent_k
      = Raise (TypeError NoneOperand)).
Proof.
  intros W C L. apply wf_node_spec in W as (WP & _ & _ & _ & C2 & _).
  specialize (C2 C).
  unfold compute_lambda_msg_to_parent,
    BernoulliOrNode_compute_lambda_msg_to_parent.
  rewrite C, L, validate_eq. cbn [array_equal_opt]. cbn zeta. split.
  - intros U. apply (some_unset_iff _ _ _ WP) in U. now rewrite U.
  - intros A. apply (all_received_iff _ _ _ WP) in A. rewrite A.
    cbn [rbind]. rewrite (p0_excluding_wf _ _ _ parent_k WP); [| lia | exact A].
    cbn [rbind]. now rewrite reduce_mul_from_1_product.
Qed.

(** Scenario B before any evidence has been aggregated: both pi messages
    are there, [lambda_agg] is not. *)
Lemma lambda_msg_without_lambda_agg_witness :
  wf_node Fixtures.scenario_B = true
  /\ lambda_agg Fixtures.scenario_B = None
  /\ compute_lambda_msg_to_parent Fixtures.scenario_B "a"
     = Raise (TypeError NoneOperand).
Proof.
  split; [reflexivity|]. split; [reflexivity|].
  apply (lambda_msg_without_lambda_agg Fixtures.scenario_B "a"
           eq_refl eq_refl eq_refl).
  intros k [<- | [<- | []]]; eexists; reflexivity.
Defined.

